(** * Deolang: the grid interpreter, embedded and verified

    The development follows the Python sources: [GridMap]
    (deolang/gridmap.py, also embedded in deolangc.py) and [Interpreter]
    (the class body embedded in deolangc.py).  Python objects mutated in
    place become explicit state passing; Python exceptions become an
    error result carrying the state reached when the exception left the
    code. *)

From Stdlib Require Import ZArith Ascii String DecimalString.
From stdpp Require Import base tactics option list gmap.

Local Open Scope Z_scope.

(** ** Python values used by the interpreter *)

(** A Python [str] is a sequence of Unicode code points. *)
Definition pystr := list Z.

Inductive exn :=
  | ValueError | TypeError | IndexError | KeyError
  | AttributeError | OverflowError | OSError | CallbackError.

#[global] Instance exn_eq_dec : EqDecision exn.
Proof. solve_decision. Defined.

(** [ord s]: the code point of a one-character string; [TypeError]
    for every other length. *)
Definition ord (s : pystr) : exn + Z :=
  match s with
  | [c] => inr c
  | _ => inl TypeError
  end.

(** [chr v]: [ValueError] outside [range(0x110000)], [OverflowError]
    when [v] does not fit a C int. *)
Definition chr (v : Z) : exn + pystr :=
  if (0 <=? v) && (v <? 1114112) then inr [v]
  else if (-2147483648 <=? v) && (v <=? 2147483647) then inl ValueError
  else inl OverflowError.

(** [str(n)] for an integer: its decimal representation (the cap on
    the number of digits that recent CPython versions put on this
    conversion is not modelled). *)
Definition str_of_int (z : Z) : pystr :=
  map (fun a => Z.of_N (N_of_ascii a))
      (list_ascii_of_string (NilZero.string_of_int (Z.to_int z))).

(** Truth value of a string: non-empty. *)
Definition truthy (s : pystr) : bool :=
  match s with [] => false | _ => true end.

(** [a in b] for strings: [a] occurs as a substring of [b]; the empty
    string occurs in every string. *)
Fixpoint is_prefix (a b : pystr) : bool :=
  match a, b with
  | [], _ => true
  | _ :: _, [] => false
  | c :: a', d :: b' => (c =? d) && is_prefix a' b'
  end.

Fixpoint str_in (a b : pystr) : bool :=
  is_prefix a b ||
  match b with
  | [] => false
  | _ :: b' => str_in a b'
  end.

(** Python indexing of a sequence of length [len]: negative indices
    count from the end; [None] is [IndexError]. *)
Definition py_index (len : nat) (i : Z) : option nat :=
  if (0 <=? i) && (i <? Z.of_nat len) then Some (Z.to_nat i)
  else if (- Z.of_nat len <=? i) && (i <? 0) then Some (Z.to_nat (Z.of_nat len + i))
  else None.

Definition getitem {A} (l : list A) (i : Z) : option A :=
  n ← py_index (length l) i; l !! n.

Definition setitem {A} (l : list A) (i : Z) (v : A) : option (list A) :=
  n ← py_index (length l) i; Some (<[n:=v]> l).

(** [l.pop()]: the last element and the rest; [None] on an empty list
    ([IndexError]). *)
Definition pop {A} (l : list A) : option (A * list A) :=
  match reverse l with
  | [] => None
  | v :: r => Some (v, reverse r)
  end.

(** [l.pop(0)]. *)
Definition pop0 {A} (l : list A) : option (A * list A) :=
  match l with
  | [] => None
  | v :: r => Some (v, r)
  end.

(** [s.splitlines()]: the line boundaries of Python's [str.splitlines];
    a carriage return directly followed by a line feed is one
    boundary.  [cur] is the current line reversed, [skip_lf] records
    that the previous character was a carriage return. *)
Definition is_linebreak (c : Z) : bool :=
  bool_decide (c ∈ [10; 11; 12; 13; 28; 29; 30; 133; 8232; 8233]).

Fixpoint splitlines_aux (cur : pystr) (skip_lf : bool) (s : pystr) : list pystr :=
  match s with
  | [] => if truthy cur then [reverse cur] else []
  | c :: rest =>
      if skip_lf && (c =? 10) then splitlines_aux cur false rest
      else if is_linebreak c then reverse cur :: splitlines_aux [] (c =? 13) rest
      else splitlines_aux (c :: cur) false rest
  end.

Definition splitlines (s : pystr) : list pystr := splitlines_aux [] false s.

(** [line.rstrip('\n')]. *)
Fixpoint drop_lf (s : pystr) : pystr :=
  match s with
  | c :: s' => if c =? 10 then drop_lf s' else s
  | [] => []
  end.

Definition rstrip_nl (s : pystr) : pystr := reverse (drop_lf (reverse s)).

(** String literals of the source, as code points. *)
Definition lit (s : string) : pystr :=
  map (fun a => Z.of_N (N_of_ascii a)) (list_ascii_of_string s).

(** ** The world outside the interpreter

    What one step may consult outside the interpreter object: the
    Unicode tables of the Python runtime beyond ASCII, the standard
    output stream, the clock, the random generator, the answer of the
    host's input callback and the file system. *)
Inductive callback_answer :=
  | AnsStr (s : pystr)      (* isinstance(val, str) *)
  | AnsInt (n : Z)          (* isinstance(val, int) *)
  | AnsOther                (* any other value, e.g. None *)
  | AnsRaise.               (* the callback raised *)

Record World := {
  unicode_isdigit : Z -> bool;        (* str.isdigit of a non-ASCII character *)
  unicode_decimal : Z -> option Z;    (* int() of a non-ASCII character *)
  stdout_accepts : pystr -> bool;     (* sys.stdout.write succeeds *)
  sleep_overflows : Z -> bool;        (* time.sleep(n) overflows, n >= 0 *)
  now : Z;                            (* int(time.time()) *)
  random_pick : nat;                  (* index drawn by random.choice *)
  answer : callback_answer;           (* what built_in_input() does *)
  files : pystr -> option (option (list pystr))
    (* None: os.path.exists is false; Some None: open or read raises;
       Some (Some lines): what readlines returns *)
}.

(** [c.isdigit()] and [int(c)] for one character: decided here on ASCII,
    left to the runtime's tables above it. *)
Definition isdigit1 (w : World) (c : Z) : bool :=
  if c <? 128 then (48 <=? c) && (c <=? 57) else unicode_isdigit w c.

Definition int1 (w : World) (c : Z) : option Z :=
  if c <? 128 then (if (48 <=? c) && (c <=? 57) then Some (c - 48) else None)
  else unicode_decimal w c.

Definition isdigit (w : World) (s : pystr) : bool :=
  truthy s && forallb (isdigit1 w) s.

(** [int(s)] on a string of decimal digits; [ValueError] otherwise. *)
Definition int_of_str (w : World) (s : pystr) : exn + Z :=
  match s with
  | [] => inl ValueError
  | _ =>
    match foldl (fun acc c => a ← acc; d ← int1 w c; Some (a * 10 + d)) (Some 0) s with
    | Some n => inr n
    | None => inl ValueError
    end
  end.

(** Result of a Python call: a value, or an exception that left it. *)
Inductive res (A : Type) :=
  | Ok (a : A)
  | Err (e : exn).
Arguments Ok {A} a.
Arguments Err {A} e.

(** ** GridMap (deolang/gridmap.py) *)
Module GridMap.

(** [rows] and [cols] are only ever assigned a [len(...)]. *)
Record t := { _map : list (list pystr); rows : nat; cols : nat }.

Definition width0 (m : list (list pystr)) : nat :=
  match m with
  | row0 :: _ => length row0
  | [] => 0%nat
  end.

(** [m[i][j] = v] with Python indexing; [None] is [IndexError]. *)
Definition setitem2 (m : list (list pystr)) (i j : Z) (v : pystr)
  : option (list (list pystr)) :=
  row ← getitem m i; row' ← setitem row j v; setitem m i row'.

(** The body of [__init__] once [lines] is known. *)
Definition fill_row (m : list (list pystr)) (r : nat) (row : pystr) : list (list pystr) :=
  foldl (fun m rc => alter (<[rc.1 := [rc.2]]>) r m) m (imap (fun c ch => (c, ch)) row).

Definition of_lines (lines : list pystr) : t :=
  let raw_grid := map rstrip_nl lines in
  let rows := length raw_grid in
  let cols := foldr Nat.max 0%nat (map length raw_grid) in
  let blank := replicate rows (replicate cols ([] : pystr)) in
  {| _map := foldl (fun m rr => fill_row m rr.1 rr.2) blank
                   (imap (fun r row => (r, row)) raw_grid);
     rows := rows; cols := cols |}.

(** [GridMap(file=..., content=...)]. *)
Definition init (w : World) (file content : option pystr) : res t :=
  match content with
  | Some (c :: cs) => Ok (of_lines (splitlines (c :: cs)))
  | _ =>
    match file with
    | Some (c :: cs) =>
      match files w (c :: cs) with
      | Some (Some lines) => Ok (of_lines lines)
      | Some None => Err OSError         (* exists, cannot be read *)
      | None => Err ValueError           (* os.path.exists is false *)
      end
    | _ => Err ValueError
    end
  end.

Definition get_map (g : t) : list (list pystr) := _map g.

Definition get_item (g : t) (x y : Z) : pystr :=
  if (0 <=? y) && (y <? Z.of_nat (length (_map g))) then
    let row := default [] (_map g !! Z.to_nat y) in
    if (0 <=? x) && (x <? Z.of_nat (length row)) then default [] (row !! Z.to_nat x)
    else []
  else [].

Definition _ensure_size (g : t) (w h : Z) : t :=
  let current_h := length (_map g) in
  let current_w := width0 (_map g) in
  let m1 := if Z.of_nat current_h <? h
            then _map g ++ replicate (Z.to_nat (h - Z.of_nat current_h))
                                       (replicate current_w ([] : pystr))
            else _map g in
  let m2 := if Z.of_nat current_w <? w
            then map (fun row => row ++ replicate (Z.to_nat (w - Z.of_nat (length row)))
                                                     ([] : pystr)) m1
            else m1 in
  {| _map := m2; rows := length m2; cols := width0 m2 |}.

(** [set_item]: the grid afterwards, and the [IndexError] of the final
    store when the row is too short (the grid has been grown by
    then). *)
Definition set_item (g : t) (x y : Z) (char : pystr) : res unit * t :=
  if (x <? 0) || (y <? 0) then (Ok (), g)
  else
    let g' := _ensure_size g (x + 1) (y + 1) in
    match setitem2 (_map g') y x char with
    | Some m => (Ok (), {| _map := m; rows := rows g'; cols := cols g' |})
    | None => (Err IndexError, g')
    end.

(** One iteration of the inner loop of [merge_grid]; [acc] carries the
    exception that stopped the loops, if any. *)
Definition merge_cell (other_map : list (list pystr)) (x_offset y_offset : Z)
    (acc : option exn * list (list pystr)) (rc : nat * nat)
  : option exn * list (list pystr) :=
  match acc with
  | (Some _, _) => acc
  | (None, m) =>
    match other_map !! rc.1 ≫= (fun row => row !! rc.2) with
    | None => (Some IndexError, m)
    | Some val =>
      if truthy val then
        match setitem2 m (Z.of_nat rc.1 + y_offset) (Z.of_nat rc.2 + x_offset) val with
        | Some m' => (None, m')
        | None => (Some IndexError, m)
        end
      else acc
    end
  end.

Definition merge_grid (wld : World) (g : t) (other_grid_file : pystr)
    (x_offset y_offset : Z) : bool * t :=
  match init wld (Some other_grid_file) None with
  | Err _ => (false, g)
  | Ok other =>
    let other_map := get_map other in
    let h := length other_map in
    let w := width0 other_map in
    let g1 := _ensure_size g (x_offset + Z.of_nat w) (y_offset + Z.of_nat h) in
    let cells := r ← seq 0 h; c ← seq 0 w; [(r, c)] in
    let '(e, m) := foldl (merge_cell other_map x_offset y_offset) (None, _map g1) cells in
    (bool_decide (e = None), {| _map := m; rows := rows g1; cols := cols g1 |})
  end.

(** [__len__]. *)
Definition len (g : t) : nat := (rows g * cols g)%nat.

(** Every row has the same length: what the constructor builds and
    every write keeps. *)
Definition uniform (g : t) : Prop :=
  Forall (fun row => length row = width0 (_map g)) (_map g).

End GridMap.

(** ** Constant tables (CONSTANTS_SRC) *)

(** A Python dict literal, in insertion order. *)
Fixpoint dict_get {K V} `{EqDecision K} (d : list (K * V)) (k : K) : option V :=
  match d with
  | [] => None
  | (k', v) :: d' => if decide (k' = k) then Some v else dict_get d' k
  end.

Definition dict_values {K V} (d : list (K * V)) : list V := map snd d.

Definition DIRECTIONS : list (pystr * (Z * Z)) :=
  [ (lit "^", (0, -1)); (lit ">", (1, 0)); (lit "<", (-1, 0)); (lit "V", (0, 1)) ].

Definition TURN_RIGHT : list ((Z * Z) * (Z * Z)) :=
  [ ((0, -1), (1, 0)); ((1, 0), (0, 1)); ((-1, 0), (0, -1)); ((0, 1), (-1, 0)) ].

Definition TURN_LEFT : list ((Z * Z) * (Z * Z)) :=
  [ ((0, -1), (-1, 0)); ((1, 0), (0, -1)); ((-1, 0), (0, 1)); ((0, 1), (1, 0)) ].

(** ** Interpreter (INTERPRETER_SRC_RAW) *)
Module Interpreter.

(** What the attribute [built_in_input] can hold: [None], the host's
    callable, or the boolean that [set_input] stores. *)
Inductive pyobj :=
  | PyNone
  | PyCallable
  | PyBool (b : bool).

Definition obj_truthy (o : pyobj) : bool :=
  match o with
  | PyNone => false
  | PyCallable => true
  | PyBool b => b
  end.

Record t := {
  program : option GridMap.t;
  stack : list Z;
  addition_stack : list Z;
  output : list pystr;
  call_stack : list (Z * Z);
  heap : gmap Z Z;
  x : Z;
  y : Z;
  direction : Z * Z;
  ignore_mode : bool;
  string_mode : bool;
  input : option pystr;
  input_pointer : Z;
  built_in_input : pyobj
}.

(** [__init__]. *)
Definition init (program_input : option pystr) (build_in_input : pyobj) : t :=
  {| program := None; stack := []; addition_stack := []; output := [];
     call_stack := []; heap := ∅; x := 0; y := 0; direction := (1, 0);
     ignore_mode := false; string_mode := false; input := program_input;
     input_pointer := 0; built_in_input := build_in_input |}.

(** Attribute assignments. *)
Definition set_program (v : option GridMap.t) (s : t) : t :=
  {| program := v; stack := stack s; addition_stack := addition_stack s;
     output := output s; call_stack := call_stack s; heap := heap s; x := x s;
     y := y s; direction := direction s; ignore_mode := ignore_mode s;
     string_mode := string_mode s; input := input s;
     input_pointer := input_pointer s; built_in_input := built_in_input s |}.
Definition set_stack (v : list Z) (s : t) : t :=
  {| program := program s; stack := v; addition_stack := addition_stack s;
     output := output s; call_stack := call_stack s; heap := heap s; x := x s;
     y := y s; direction := direction s; ignore_mode := ignore_mode s;
     string_mode := string_mode s; input := input s;
     input_pointer := input_pointer s; built_in_input := built_in_input s |}.
Definition set_addition_stack (v : list Z) (s : t) : t :=
  {| program := program s; stack := stack s; addition_stack := v;
     output := output s; call_stack := call_stack s; heap := heap s; x := x s;
     y := y s; direction := direction s; ignore_mode := ignore_mode s;
     string_mode := string_mode s; input := input s;
     input_pointer := input_pointer s; built_in_input := built_in_input s |}.
Definition set_output (v : list pystr) (s : t) : t :=
  {| program := program s; stack := stack s; addition_stack := addition_stack s;
     output := v; call_stack := call_stack s; heap := heap s; x := x s;
     y := y s; direction := direction s; ignore_mode := ignore_mode s;
     string_mode := string_mode s; input := input s;
     input_pointer := input_pointer s; built_in_input := built_in_input s |}.
Definition set_call_stack (v : list (Z * Z)) (s : t) : t :=
  {| program := program s; stack := stack s; addition_stack := addition_stack s;
     output := output s; call_stack := v; heap := heap s; x := x s;
     y := y s; direction := direction s; ignore_mode := ignore_mode s;
     string_mode := string_mode s; input := input s;
     input_pointer := input_pointer s; built_in_input := built_in_input s |}.
Definition set_heap (v : gmap Z Z) (s : t) : t :=
  {| program := program s; stack := stack s; addition_stack := addition_stack s;
     output := output s; call_stack := call_stack s; heap := v; x := x s;
     y := y s; direction := direction s; ignore_mode := ignore_mode s;
     string_mode := string_mode s; input := input s;
     input_pointer := input_pointer s; built_in_input := built_in_input s |}.
Definition set_xy (vx vy : Z) (s : t) : t :=
  {| program := program s; stack := stack s; addition_stack := addition_stack s;
     output := output s; call_stack := call_stack s; heap := heap s; x := vx;
     y := vy; direction := direction s; ignore_mode := ignore_mode s;
     string_mode := string_mode s; input := input s;
     input_pointer := input_pointer s; built_in_input := built_in_input s |}.
Definition set_direction (v : Z * Z) (s : t) : t :=
  {| program := program s; stack := stack s; addition_stack := addition_stack s;
     output := output s; call_stack := call_stack s; heap := heap s; x := x s;
     y := y s; direction := v; ignore_mode := ignore_mode s;
     string_mode := string_mode s; input := input s;
     input_pointer := input_pointer s; built_in_input := built_in_input s |}.
Definition set_ignore_mode (v : bool) (s : t) : t :=
  {| program := program s; stack := stack s; addition_stack := addition_stack s;
     output := output s; call_stack := call_stack s; heap := heap s; x := x s;
     y := y s; direction := direction s; ignore_mode := v;
     string_mode := string_mode s; input := input s;
     input_pointer := input_pointer s; built_in_input := built_in_input s |}.
Definition set_string_mode (v : bool) (s : t) : t :=
  {| program := program s; stack := stack s; addition_stack := addition_stack s;
     output := output s; call_stack := call_stack s; heap := heap s; x := x s;
     y := y s; direction := direction s; ignore_mode := ignore_mode s;
     string_mode := v; input := input s;
     input_pointer := input_pointer s; built_in_input := built_in_input s |}.
Definition set_input_pointer (v : Z) (s : t) : t :=
  {| program := program s; stack := stack s; addition_stack := addition_stack s;
     output := output s; call_stack := call_stack s; heap := heap s; x := x s;
     y := y s; direction := direction s; ignore_mode := ignore_mode s;
     string_mode := string_mode s; input := input s;
     input_pointer := v; built_in_input := built_in_input s |}.

(** *** Handlers run in a state-and-exception monad: a handler maps the
    interpreter to its result and the interpreter as it has been
    mutated, also when an exception leaves it. *)
Definition M (A : Type) : Type := t -> res A * t.

Definition ret {A} (a : A) : M A := fun s => (Ok a, s).
Definition raise {A} (e : exn) : M A := fun s => (Err e, s).
Definition bind {A B} (m : M A) (k : A -> M B) : M B :=
  fun s => match m s with
           | (Ok a, s') => k a s'
           | (Err e, s') => (Err e, s')
           end.
Definition gets {A} (f : t -> A) : M A := fun s => (Ok (f s), s).
Definition modify (f : t -> t) : M unit := fun s => (Ok (), f s).

Declare Scope py_scope.
Delimit Scope py_scope with py.
Notation "v <- m ;; k" := (bind m (fun v => k))
  (at level 100, m at next level, right associativity) : py_scope.
Notation "m ;; k" := (bind m (fun _ => k))
  (at level 100, right associativity) : py_scope.
Local Open Scope py_scope.

(** [self.stack.pop()], [self.stack.append(v)] and their kin. *)
Definition stack_pop : M Z :=
  fun s => match pop (stack s) with
           | Some (v, r) => (Ok v, set_stack r s)
           | None => (Err IndexError, s)
           end.
Definition stack_append (v : Z) : M unit :=
  modify (fun s => set_stack (stack s ++ [v]) s).
Definition stack_len : M Z := gets (fun s => Z.of_nat (length (stack s))).

(** What a handler returns: nothing, [False], or the string "JUMPED". *)
Inductive retval := RNone | RFalse | RJumped.

Definition the_program : M GridMap.t :=
  fun s => match program s with
           | Some g => (Ok g, s)
           | None => (Err AttributeError, s)
           end.

Definition of_option {A} (e : exn) (o : option A) : M A :=
  match o with
  | Some a => ret a
  | None => raise e
  end.

Definition of_sum {A} (r : exn + A) : M A :=
  match r with
  | inr a => ret a
  | inl e => raise e
  end.

(** *** Opcode handlers *)

Definition set_dir_key (k : pystr) : M retval :=
  d <- of_option KeyError (dict_get DIRECTIONS k);;
  modify (set_direction d);; ret RNone.

Definition op_up (w : World) : M retval := set_dir_key (lit "^").
Definition op_right (w : World) : M retval := set_dir_key (lit ">").
Definition op_left (w : World) : M retval := set_dir_key (lit "<").
Definition op_down (w : World) : M retval := set_dir_key (lit "V").

(** [random.choice(seq)]: [IndexError] on an empty sequence. *)
Definition random_choice {A} (w : World) (l : list A) : option A :=
  l !! (random_pick w mod length l)%nat.

Definition op_random_dir (w : World) : M retval :=
  d <- of_option IndexError (random_choice w (dict_values DIRECTIONS));;
  modify (set_direction d);; ret RNone.

(** [if len(self.stack) < n: return]. *)
Definition guard_len (n : Z) (body : M retval) : M retval :=
  l <- stack_len;; if l <? n then ret RNone else body.

(** [if self.stack: ...] *)
Definition if_stack (body : M retval) : M retval :=
  l <- stack_len;; if 0 <? l then body else ret RNone.

Definition op_add (w : World) : M retval :=
  guard_len 2 (b <- stack_pop;; a <- stack_pop;; stack_append (b + a);; ret RNone).

Definition op_sub (w : World) : M retval :=
  guard_len 2 (b <- stack_pop;; a <- stack_pop;; stack_append (a - b);; ret RNone).

Definition op_mul (w : World) : M retval :=
  guard_len 2 (b <- stack_pop;; a <- stack_pop;; stack_append (b * a);; ret RNone).

Definition op_div (w : World) : M retval :=
  guard_len 2 (b <- stack_pop;; a <- stack_pop;;
               stack_append (if b =? 0 then 0 else a `div` b);; ret RNone).

Definition op_mod (w : World) : M retval :=
  guard_len 2 (b <- stack_pop;; a <- stack_pop;;
               stack_append (if b =? 0 then 0 else a `mod` b);; ret RNone).

Definition op_and (w : World) : M retval :=
  guard_len 2 (b <- stack_pop;; a <- stack_pop;; stack_append (Z.land b a);; ret RNone).

Definition op_or (w : World) : M retval :=
  guard_len 2 (b <- stack_pop;; a <- stack_pop;; stack_append (Z.lor b a);; ret RNone).

Definition op_xor (w : World) : M retval :=
  guard_len 2 (b <- stack_pop;; a <- stack_pop;; stack_append (Z.lxor b a);; ret RNone).

Definition op_not (w : World) : M retval :=
  l <- stack_len;;
  if l =? 0 then ret RNone
  else (v <- stack_pop;; stack_append (Z.lnot v);; ret RNone).

Definition op_eq (w : World) : M retval :=
  guard_len 2 (b <- stack_pop;; a <- stack_pop;;
               stack_append (if b =? a then 1 else 0);; ret RNone).

Definition op_less (w : World) : M retval :=
  guard_len 2 (b <- stack_pop;; a <- stack_pop;;
               stack_append (if a <? b then 1 else 0);; ret RNone).

Definition op_greater (w : World) : M retval :=
  guard_len 2 (b <- stack_pop;; a <- stack_pop;;
               stack_append (if a >? b then 1 else 0);; ret RNone).

Definition op_pop (w : World) : M retval :=
  if_stack (stack_pop;; ret RNone).

Definition op_swap (w : World) : M retval :=
  guard_len 2 (b <- stack_pop;; a <- stack_pop;;
               modify (fun s => set_stack (stack s ++ [b; a]) s);; ret RNone).

Definition op_copy (w : World) : M retval :=
  if_stack (v <- (fun s => of_option IndexError (getitem (stack s) (-1)) s);;
            stack_append v;; ret RNone).

Definition op_move_to_aux (w : World) : M retval :=
  if_stack (v <- stack_pop;;
            modify (fun s => set_addition_stack (addition_stack s ++ [v]) s);;
            ret RNone).

Definition op_move_from_aux (w : World) : M retval :=
  fun s =>
    match addition_stack s with
    | [] => (Ok RNone, s)
    | _ =>
      match pop (addition_stack s) with
      | Some (v, r) => (stack_append v;; ret RNone) (set_addition_stack r s)
      | None => (Err IndexError, s)
      end
    end.

Definition op_rotate_left (w : World) : M retval :=
  l <- stack_len;;
  if 1 <? l
  then (v <- stack_pop;; modify (fun s => set_stack (v :: stack s) s);; ret RNone)
  else ret RNone.

Definition op_rotate_right (w : World) : M retval :=
  l <- stack_len;;
  if 1 <? l
  then (fun s => match pop0 (stack s) with
                 | Some (v, r) => (stack_append v;; ret RNone) (set_stack r s)
                 | None => (Err IndexError, s)
                 end)
  else ret RNone.

Definition op_len (w : World) : M retval :=
  l <- stack_len;; stack_append l;; ret RNone.

Definition op_clear (w : World) : M retval :=
  modify (set_stack []);; ret RNone.

(** [sys.stdout.write(s); sys.stdout.flush()]. *)
Definition stdout_write (w : World) (s : pystr) : M unit :=
  if stdout_accepts w s then ret () else raise OSError.

Definition op_print_num (w : World) : M retval :=
  if_stack (v <- stack_pop;;
            let s := str_of_int v in
            modify (fun st => set_output (output st ++ [s]) st);;
            stdout_write w s;; ret RNone).

Definition op_print_char (w : World) : M retval :=
  if_stack (v <- stack_pop;;
            c <- of_sum (chr v);;
            modify (fun st => set_output (output st ++ [c]) st);;
            stdout_write w c;; ret RNone).

(** [self.built_in_input()]: calling a boolean is a [TypeError]. *)
Definition call_built_in_input (w : World) : M callback_answer :=
  fun s =>
    match built_in_input s with
    | PyCallable =>
      match answer w with
      | AnsRaise => (Err CallbackError, s)
      | a => (Ok a, s)
      end
    | _ => (Err TypeError, s)
    end.

Definition op_input (w : World) : M retval :=
  inp <- gets input;;
  match inp with
  | Some (c :: cs) =>
    let data := c :: cs in
    p <- gets input_pointer;;
    if p <? Z.of_nat (length data) then
      ch <- of_option IndexError (getitem data p);;
      stack_append ch;;
      modify (fun s => set_input_pointer (input_pointer s + 1) s);; ret RNone
    else (stack_append (-1);; ret RNone)
  | _ =>
    cb <- gets built_in_input;;
    if obj_truthy cb then
      val <- call_built_in_input w;;
      match val with
      | AnsStr (c :: _) => stack_append c;; ret RNone
      | AnsInt n => stack_append n;; ret RNone
      | _ => ret RNone
      end
    else ret RNone
  end.

Definition op_heap_store (w : World) : M retval :=
  guard_len 2 (addr <- stack_pop;; val <- stack_pop;;
               modify (fun s => set_heap (<[addr := val]> (heap s)) s);; ret RNone).

Definition op_heap_load (w : World) : M retval :=
  l <- stack_len;;
  if l =? 0 then ret RNone
  else (addr <- stack_pop;; h <- gets heap;;
        stack_append (default 0 (h !! addr));; ret RNone).

Definition op_grid_get (w : World) : M retval :=
  guard_len 2 (y <- stack_pop;; x <- stack_pop;;
               g <- the_program;;
               let val := GridMap.get_item g x y in
               v <- (if truthy val then of_sum (ord val) else ret 0);;
               stack_append v;; ret RNone).

Definition op_grid_put (w : World) : M retval :=
  guard_len 3 (y <- stack_pop;; x <- stack_pop;; val <- stack_pop;;
               g <- the_program;;
               c <- of_sum (chr val);;
               (fun s => let '(r, g') := GridMap.set_item g x y c in
                         (match r with Ok _ => Ok RNone | Err e => Err e end,
                          set_program (Some g') s))).

Definition op_jump (w : World) : M retval :=
  guard_len 2 (vy <- stack_pop;; vx <- stack_pop;;
               modify (set_xy vx vy);; ret RJumped).

Definition op_func_call (w : World) : M retval :=
  guard_len 2 (vy <- stack_pop;; vx <- stack_pop;;
               modify (fun s => set_call_stack
                         (call_stack s ++ [(x s + (direction s).1, y s + (direction s).2)]) s);;
               modify (set_xy vx vy);; ret RJumped).

Definition op_return (w : World) : M retval :=
  fun s =>
    match call_stack s with
    | [] => (Ok RNone, s)
    | _ =>
      match pop (call_stack s) with
      | Some ((vx, vy), r) => (Ok RJumped, set_xy vx vy (set_call_stack r s))
      | None => (Err IndexError, s)
      end
    end.

(** [_pop_string]; [rs] is the stack from the top down. *)
Fixpoint pop_string_loop (rs : list Z) (chars : pystr) : res pystr * list Z :=
  match rs with
  | [] => (Ok chars, [])
  | val :: rs' =>
    if val =? 0 then (Ok chars, rs')
    else match chr val with
         | inr c => pop_string_loop rs' (chars ++ c)
         | inl e => (Err e, rs')
         end
  end.

Definition _pop_string : M pystr :=
  fun s => let '(r, rs) := pop_string_loop (reverse (stack s)) [] in
           (r, set_stack (reverse rs) s).

Definition op_merge (w : World) : M retval :=
  guard_len 2 (y <- stack_pop;; x <- stack_pop;;
               filename <- _pop_string;;
               g <- the_program;;
               modify (set_program (Some (GridMap.merge_grid w g filename x y).2));;
               ret RNone).

Definition op_time (w : World) : M retval :=
  stack_append (now w);; ret RNone.

(** [time.sleep(n)]: [ValueError] on a negative length. *)
Definition op_wait (w : World) : M retval :=
  if_stack (n <- stack_pop;;
            if n <? 0 then raise ValueError
            else if sleep_overflows w n then raise OverflowError
            else ret RNone).

Definition op_vertical_mirror (w : World) : M retval :=
  d <- gets direction;;
  if bool_decide (d ∈ [(-1, 0); (1, 0)])
  then (modify (set_ignore_mode true);; ret RNone) else ret RNone.

Definition op_horizontal_mirror (w : World) : M retval :=
  d <- gets direction;;
  if bool_decide (d ∈ [(0, -1); (0, 1)])
  then (modify (set_ignore_mode true);; ret RNone) else ret RNone.

Definition turn (table : list ((Z * Z) * (Z * Z))) : M retval :=
  d <- gets direction;;
  d' <- of_option KeyError (dict_get table d);;
  modify (set_direction d');; ret RNone.

Definition op_mirror_slash (w : World) : M retval :=
  l <- stack_len;;
  if l =? 0 then ret RNone
  else (v <- stack_pop;; if v =? 0 then turn TURN_LEFT else turn TURN_RIGHT).

Definition op_mirror_backslash (w : World) : M retval :=
  l <- stack_len;;
  if l =? 0 then ret RNone
  else (val <- stack_pop;; if val =? 0 then turn TURN_RIGHT else turn TURN_LEFT).

Definition op_exit (w : World) : M retval := ret RFalse.

Definition op_quote (w : World) : M retval :=
  modify (set_string_mode true);; ret RNone.

(** The double quote and the backslash, by code point. *)
Definition quote : pystr := [34].
Definition backslash : pystr := [92].

(** [self.ops]. *)
Definition ops : list (pystr * (World -> M retval)) :=
  [ (lit "^", op_up); (lit ">", op_right); (lit "<", op_left); (lit "V", op_down);
    (lit "?", op_random_dir);
    (lit "+", op_add); (lit "-", op_sub); (lit "*", op_mul); (lit ":", op_div);
    (lit "%", op_mod); (lit "&", op_and); (lit "o", op_or); (lit "x", op_xor);
    (lit "~", op_not); (lit "=", op_eq); (lit "(", op_less); (lit ")", op_greater);
    (lit "P", op_pop); (lit "S", op_swap); (lit "C", op_copy);
    (lit "D", op_move_to_aux); (lit "U", op_move_from_aux);
    (lit "{", op_rotate_left); (lit "}", op_rotate_right);
    (lit "L", op_len); (lit "Z", op_clear);
    (lit "N", op_print_num); (lit "A", op_print_char); (lit "I", op_input);
    (lit "h", op_heap_store); (lit "H", op_heap_load);
    (lit "g", op_grid_get); (lit "p", op_grid_put);
    (lit "j", op_jump); (lit "F", op_func_call); (lit "R", op_return);
    (lit "M", op_merge); (lit "T", op_time); (lit "W", op_wait);
    (lit "|", op_vertical_mirror); (lit "_", op_horizontal_mirror);
    (lit "/", op_mirror_slash); (backslash, op_mirror_backslash);
    (lit "@", op_exit); (quote, op_quote) ].

(** *** The step *)

Definition move (s : t) : t :=
  set_xy (x s + (direction s).1) (y s + (direction s).2) s.

(** The body of the [try] block, up to the value of [res]. *)
Definition dispatch (w : World) (char : pystr) : M retval :=
  if negb (truthy char) then ret RNone
  else if isdigit w char then
    (n <- of_sum (int_of_str w char);; stack_append n;; ret RNone)
  else match dict_get ops char with
       | Some handler => handler w
       | None => ret RNone
       end.

(** What a method call does: it returns, or an exception leaves it. *)
Inductive outcome (A : Type) :=
  | Returned (a : A) (s : t)
  | Uncaught (e : exn) (s : t).
Arguments Returned {A} a s.
Arguments Uncaught {A} e s.

Definition process_char (w : World) (char : pystr) (s : t) : outcome bool :=
  if string_mode s then
    if decide (char = quote) then Returned true (move (set_string_mode false s))
    else match ord char with
         | inr c => Returned true (move (set_stack (stack s ++ [c]) s))
         | inl e => Uncaught e s
         end
  else if ignore_mode s then
    Returned true
      (move (if str_in char (lit "|_") then set_ignore_mode false s else s))
  else
    match dispatch w char s with
    | (Ok RFalse, s') => Returned false s'
    | (Ok RJumped, s') => Returned true s'
    | (Ok RNone, s') => Returned true (move s')
    | (Err _, s') => Returned false s'
    end.

(** [char = self.program.get_item(self.x, self.y)] followed by
    [self.process_char(char)]: one iteration of the loops of [run]. *)
Definition step (w : World) (s : t) : outcome bool :=
  match program s with
  | None => Uncaught AttributeError s
  | Some g => process_char w (GridMap.get_item g (x s) (y s)) s
  end.

(** [for _ in range(n)]: [inl s] when the loop runs to its end,
    [inr o] when the body returns or raises.  [ws i] is the world at
    the [i]-th iteration. *)
Fixpoint for_loop (ws : nat -> World) (i n : nat) (s : t) : t + outcome bool :=
  match n with
  | O => inl s
  | S n' =>
    match step (ws i) s with
    | Returned false s' => inr (Returned false s')
    | Returned true s' => for_loop ws (S i) n' s'
    | Uncaught e s' => inr (Uncaught e s')
    end
  end.

(** [while True]: [None] when [fuel] iterations did not leave it. *)
Fixpoint while_loop (ws : nat -> World) (i fuel : nat) (s : t) : option (outcome bool) :=
  match fuel with
  | O => None
  | S fuel' =>
    match step (ws i) s with
    | Returned false s' => Some (Returned false s')
    | Returned true s' => while_loop ws (S i) fuel' s'
    | Uncaught e s' => Some (Uncaught e s')
    end
  end.

Definition run (fuel : nat) (ws : nat -> World) (steps : Z) (s : t)
  : option (outcome bool) :=
  if steps <? 0 then Some (Uncaught ValueError s)
  else if 0 <? steps then
    match for_loop ws 0 (Z.to_nat steps) s with
    | inr o => Some o
    | inl s' => Some (Returned (0 <? steps) s')
    end
  else while_loop ws 0 fuel s.

(** *** The façade *)

Definition load_program (w : World) (file : pystr) (s : t) : outcome unit :=
  match GridMap.init w (Some file) None with
  | Ok g => Returned () (set_program (Some g) s)
  | Err e => Uncaught e s
  end.

Definition load_code (w : World) (code : pystr) (s : t) : outcome unit :=
  match GridMap.init w None (Some code) with
  | Ok g => Returned () (set_program (Some g) s)
  | Err e => Uncaught e s
  end.

(** [if self.program]: not [None], and [__len__] is not zero. *)
Definition program_truthy (s : t) : bool :=
  match program s with
  | Some g => negb (GridMap.len g =? 0)%nat
  | None => false
  end.

Definition get_current_char (s : t) : pystr :=
  match program s with
  | Some g => if program_truthy s then GridMap.get_item g (x s) (y s) else []
  | None => []
  end.

Definition get_output (s : t) : pystr := concat (output s).

Record information := {
  i_output : pystr;
  i_stack : list Z;
  i_addition_stack : list Z;
  i_call_stack : list (Z * Z);
  i_heap : gmap Z Z;
  i_position : Z * Z;
  i_direction : Z * Z;
  i_character : pystr;
  i_ignore_mode : bool;
  i_string_mode : bool;
  i_input : option pystr;
  i_input_pointer : Z
}.

Definition get_information (s : t) : information :=
  {| i_output := get_output s; i_stack := stack s;
     i_addition_stack := addition_stack s; i_call_stack := call_stack s;
     i_heap := heap s; i_position := (x s, y s); i_direction := direction s;
     i_character := get_current_char s; i_ignore_mode := ignore_mode s;
     i_string_mode := string_mode s; i_input := input s;
     i_input_pointer := input_pointer s |}.

Definition reset (s : t) : t :=
  {| program := program s; stack := []; addition_stack := []; output := [];
     call_stack := []; heap := ∅; x := 0; y := 0; direction := (1, 0);
     ignore_mode := false; string_mode := false; input := input s;
     input_pointer := 0; built_in_input := built_in_input s |}.

Definition set_input (input_data : pystr) (pointer_position : Z) (s : t) : t :=
  {| program := program s; stack := stack s; addition_stack := addition_stack s;
     output := output s; call_stack := call_stack s; heap := heap s; x := x s;
     y := y s; direction := direction s; ignore_mode := ignore_mode s;
     string_mode := string_mode s; input := Some input_data;
     input_pointer := pointer_position;
     built_in_input := PyBool (negb (truthy input_data)) |}.

End Interpreter.

(** * Vocabulary of the properties *)

Import Interpreter.
Local Open Scope py_scope.

(** A world for the examples: ASCII only, a terminal that takes
    everything, a callback that answers the empty string, no files. *)
Definition demo_world : World :=
  {| unicode_isdigit := fun _ => false; unicode_decimal := fun _ => None;
     stdout_accepts := fun _ => true; sleep_overflows := fun _ => false;
     now := 0; random_pick := 0; answer := AnsStr []; files := fun _ => None |}.

(** The opcodes of the arithmetic, logic and stack groups with the
    number of operands each takes from its source stack. *)
Definition arity : list (pystr * nat) :=
  [ (lit "+", 2); (lit "-", 2); (lit "*", 2); (lit ":", 2); (lit "%", 2);
    (lit "&", 2); (lit "o", 2); (lit "x", 2); (lit "~", 1); (lit "=", 2);
    (lit "(", 2); (lit ")", 2); (lit "P", 1); (lit "S", 2); (lit "C", 1);
    (lit "D", 1); (lit "U", 1); (lit "{", 2); (lit "}", 2) ]%nat.

(** [U] takes its operand from the auxiliary stack, the others from the
    main stack. *)
Definition source_stack (char : pystr) (s : t) : list Z :=
  if decide (char = lit "U") then addition_stack s else stack s.

(** The interpreter a method call leaves behind, whether it returned
    or raised. *)
Definition final {A} (o : outcome A) : t :=
  match o with
  | Returned _ s => s
  | Uncaught _ s => s
  end.

(** Position, direction and modes: what decides where execution goes
    next. *)
Definition control (s : t) : Z * Z * (Z * Z) * bool * bool :=
  (x s, y s, direction s, ignore_mode s, string_mode s).

(** The four unit vectors. *)
Definition unit_vectors : list (Z * Z) := [ (0, -1); (1, 0); (0, 1); (-1, 0) ].

(** The invariant of the data model. *)
Definition invariant (s : t) : Prop :=
  direction s ∈ unit_vectors /\ ignore_mode s && string_mode s = false.

(** One call of a method of the interpreter object by its host. *)
Inductive method_call : t -> t -> Prop :=
  | call_load_code w code s : method_call s (final (load_code w code s))
  | call_load_program w file s : method_call s (final (load_program w file s))
  | call_reset s : method_call s (reset s)
  | call_set_input data p s : method_call s (set_input data p s)
  | call_step w s : method_call s (final (step w s)).

(** The states an interpreter object can be in: built by the
    constructor and changed only through its methods. *)
Definition reachable (s : t) : Prop :=
  exists inp cb, rtc method_call (init inp cb) s.

(** A run of the program [1/] over two rows, three steps in. *)
Definition mirror_demo : t :=
  final (step demo_world (final (step demo_world (final (step demo_world
    (final (load_code demo_world (lit "1/" ++ [10] ++ lit "@>") (init None PyCallable)))))))).

(** The program [01-A]: three steps leave -1 on the stack with the IP on
    [A]; [chr(-1)] then raises inside [op_print_char]. *)
Definition chr_fault_start : t :=
  final (load_code demo_world (lit "01-A") (init None PyCallable)).

(** Three steps in: the IP is on [A]. *)
Definition chr_fault_before : t :=
  final (step demo_world (final (step demo_world (final (step demo_world chr_fault_start))))).

(** The program consisting of one double quote: the first step enters
    string mode and moves off the grid. *)
Definition lone_quote : t :=
  final (step demo_world (final (load_code demo_world [34] (init None PyCallable)))).

(** The attribute holds a boolean, not a callable and not [None]. *)
Definition is_bool (o : pyobj) : Prop :=
  match o with
  | PyBool _ => True
  | _ => False
  end.

(** Steps only: what [run] does between two calls of the host. *)
Definition steps_to : t -> t -> Prop :=
  rtc (fun s s' => exists w, s' = final (step w s)).

(** The program [1I@] driven by a host that calls [set_input("")] first:
    the first step pushes 1, the second halts on [I]. *)
Definition input_demo : t :=
  final (load_code demo_world (lit "1I@") (init None PyCallable)).

(** The program that writes [A] over its own first cell: a quoted [A],
    then [00p]. *)
Definition selfmod_src : pystr := [34] ++ lit "A" ++ [34] ++ lit "00p".

(** Its interpreter after [run(6)]. *)
Definition selfmod_demo : t :=
  match run 0 (fun _ => demo_world) 6
            (final (load_code demo_world selfmod_src (init None PyCallable))) with
  | Some o => final o
  | None => init None PyCallable
  end.

(** [state_at ws s k]: the interpreter before iteration [k] of a loop of
    [run] started in [s], when every earlier iteration returned True. *)
Fixpoint state_at (ws : nat -> World) (s : t) (k : nat) : option t :=
  match k with
  | O => Some s
  | S k' =>
    match state_at ws s k' with
    | Some sk =>
      match step (ws k') sk with
      | Returned true s' => Some s'
      | _ => None
      end
    | None => None
    end
  end.

(** The iteration returned True. *)
Definition continues (o : outcome bool) : Prop :=
  exists s', o = Returned true s'.

(** The program [34+N@]: four steps do not halt, the fifth does, and
    [run(0)] needs five iterations to come back. *)
Definition add_demo : t :=
  final (load_code demo_world (lit "34+N@") (init None PyCallable)).

(** Every row of [m] has [n] cells. *)
Definition rows_of_width (n : nat) (m : list (list pystr)) : Prop :=
  Forall (fun row => length row = n) m.

(** The program, when one is loaded, is a uniform grid. *)
Definition grid_ok (s : t) : Prop :=
  match program s with
  | Some g => GridMap.uniform g
  | None => True
  end.

(** Two zeros, a quoted [A], two zeros, then [p] and [g]: seven steps in,
    the IP is on [p] and the stack holds x, y, val, x, y. *)
Definition put_get_src : pystr := lit "00" ++ [34] ++ lit "A" ++ [34] ++ lit "00pg".

(** Seven steps in. *)
Definition put_get_demo : t :=
  final (step demo_world (final (step demo_world (final (step demo_world
  (final (step demo_world (final (step demo_world (final (step demo_world
  (final (step demo_world
    (final (load_code demo_world put_get_src (init None PyCallable)))))))))))))))).

(** Feeding the step a sequence of cells, as [run] does while every
    step returns True: the interpreter after the last one, [None] when
    a step returns False or raises. *)
Fixpoint feed (w : World) (cells : list pystr) (s : t) : option t :=
  match cells with
  | [] => Some s
  | c :: cs =>
    match process_char w c s with
    | Returned true s' => feed w cs s'
    | _ => None
    end
  end.

(** A fresh interpreter with 1, 2, 3 on the stack (3 on top) and 7 on
    the auxiliary stack. *)
Definition stack123 : t :=
  set_addition_stack [7] (set_stack [1; 2; 3] (init None PyNone)).

(** The quarter turns of a direction: to the right (east to south, the
    y axis pointing down) and to the left. *)
Definition rotate_right (d : Z * Z) : Z * Z := (- d.2, d.1).
Definition rotate_left (d : Z * Z) : Z * Z := (d.2, - d.1).

(** The IP is outside the grid and heading away from it. *)
Definition leaving (g : GridMap.t) (s : t) : Prop :=
  (direction s = (0, -1) /\ y s < 0) \/
  (direction s = (-1, 0) /\ x s < 0) \/
  (direction s = (0, 1) /\ Z.of_nat (length (GridMap._map g)) <= y s) \/
  (direction s = (1, 0) /\
   Forall (fun row : list pystr => Z.of_nat (length row) <= x s) (GridMap._map g)).

(** A state on the call/return example: the IP at (3, 0) heading east,
    with 3, 0, 1 on the stack. *)
Definition call_demo : t := set_xy 3 0 (set_stack [3; 0; 1] (init None PyNone)).

(** The program [12+], its IP moved to (5, 0), past the end of the row. *)
Definition off_grid_demo : t :=
  set_xy 5 0 (final (load_code demo_world (lit "12+") (init None PyCallable))).

(** The program [1@], one step in: the IP is on [@]. *)
Definition halt_demo : t :=
  final (step demo_world (final (load_code demo_world (lit "1@") (init None PyCallable)))).

(** A code point that [chr] accepts and that is not the sentinel 0. *)
Definition char_code (c : Z) : Prop := 0 < c < 1114112.

(** An interpreter given the input [abc] by [set_input]. *)
Definition abc_input : t := set_input (lit "abc") 0 (init None PyCallable).

(** A world whose runtime counts the superscript two, U+00B2, as a digit
    without a decimal value, as CPython does. *)
Definition superscript_world : World :=
  {| unicode_isdigit := fun c => c =? 178; unicode_decimal := fun _ => None;
     stdout_accepts := fun _ => true; sleep_overflows := fun _ => false;
     now := 0; random_pick := 0; answer := AnsStr []; files := fun _ => None |}.

(** The program [ab] over [cd], with 65, 0, 0 on the stack. *)
Definition grid_demo : t :=
  set_stack [65; 0; 0]
    (final (load_code demo_world (lit "ab" ++ [10] ++ lit "cd") (init None PyCallable))).

(** The cell of a list of rows at column [c] of row [r], empty when
    there is none. *)
Definition cell_at (m : list (list pystr)) (c r : nat) : pystr :=
  default [] (m !! r ≫= fun row => row !! c).

(** The inner loop of the constructor of [GridMap], seen on the row it
    writes to. *)
Definition fill_cells_of (row : pystr) (old : list pystr) : list pystr :=
  foldl (fun acc rc => <[rc.1 := [rc.2]]> acc) old (imap (fun c ch => (c, ch)) row).

(** Every cell holds at most one character. *)
Definition cells_ok (m : list (list pystr)) : Prop :=
  Forall (Forall (fun c : pystr => (length c <= 1)%nat)) m.

(** A well-formed grid: rows of one width, [rows] and [cols] telling
    its real size, cells of at most one character. *)
Definition grid_wf (g : GridMap.t) : Prop :=
  GridMap.uniform g /\
  GridMap.rows g = length (GridMap._map g) /\
  GridMap.cols g = GridMap.width0 (GridMap._map g) /\
  cells_ok (GridMap._map g).

Definition program_wf (s : t) : Prop :=
  match program s with
  | Some g => grid_wf g
  | None => True
  end.


(** A host with one file, [f], of two lines: [x] and [yz]. *)
Definition overlay_world : World :=
  {| unicode_isdigit := fun _ => false; unicode_decimal := fun _ => None;
     stdout_accepts := fun _ => true; sleep_overflows := fun _ => false;
     now := 0; random_pick := 0; answer := AnsStr [];
     files := fun name => if decide (name = lit "f")
                          then Some (Some [lit "x" ++ [10]; lit "yz"]) else None |}.


(** What [run(5)] leaves of the program [34+N@]. *)
Definition add_demo_end : outcome bool :=
  default (Returned false add_demo) (run 0 (fun _ => demo_world) 5 add_demo).

(** * Properties *)

(** ** Lists as Python stacks *)

Lemma pop_snoc {A} (l : list A) (v : A) : pop (l ++ [v]) = Some (v, l).
Proof. unfold pop. by rewrite reverse_snoc, reverse_involutive. Qed.

Lemma pop_nil {A} : pop ([] : list A) = None.
Proof. done. Qed.

Lemma pop_Some {A} (l r : list A) (v : A) : pop l = Some (v, r) <-> l = r ++ [v].
Proof.
  split; [|intros ->; apply pop_snoc].
  destruct l as [|a l'] using rev_ind; [done|].
  rewrite pop_snoc. by intros [= -> ->].
Qed.

Lemma pop_None {A} (l : list A) : pop l = None <-> l = [].
Proof.
  split; [|by intros ->].
  destruct l as [|a l'] using rev_ind; [done|]. by rewrite pop_snoc.
Qed.

(** ** Running the monad on a stack whose top is known *)

Lemma stack_pop_snoc (s : t) (l : list Z) (v : Z) :
  stack s = l ++ [v] -> stack_pop s = (Ok v, set_stack l s).
Proof. intros H. unfold stack_pop. by rewrite H, pop_snoc. Qed.

Lemma guard_len_short (n : Z) (body : M retval) (s : t) :
  Z.of_nat (length (stack s)) < n -> guard_len n body s = (Ok RNone, s).
Proof.
  intros H. unfold guard_len, bind, stack_len, gets.
  by rewrite (proj2 (Z.ltb_lt _ _) H).
Qed.

Lemma guard_len_enough (n : Z) (body : M retval) (s : t) :
  n <= Z.of_nat (length (stack s)) -> guard_len n body s = body s.
Proof.
  intros H. unfold guard_len, bind, stack_len, gets.
  by rewrite (proj2 (Z.ltb_ge _ _) H).
Qed.

(** A binary handler on a stack [rest ++ [a; b]] pops [b], then [a]. *)
Lemma pop2_run {A} (k : Z -> Z -> M A) (s : t) (rest : list Z) (a b : Z) :
  stack s = rest ++ [a; b] ->
  (vb <- stack_pop;; va <- stack_pop;; k vb va) s = k b a (set_stack rest s).
Proof.
  intros H. unfold bind at 1.
  rewrite (stack_pop_snoc s (rest ++ [a]) b) by (by rewrite H, <- app_assoc).
  unfold bind at 1.
  rewrite (stack_pop_snoc _ rest a) by done.
  by destruct s.
Qed.

Lemma two_on_stack (s : t) (rest : list Z) (a b : Z) :
  stack s = rest ++ [a; b] -> 2 <= Z.of_nat (length (stack s)).
Proof. intros ->. rewrite length_app. simpl. lia. Qed.

(** ** Dispatch *)

Lemma dict_get_elem_of {K V} `{EqDecision K} (d : list (K * V)) (k : K) (v : V) :
  dict_get d k = Some v -> (k, v) ∈ d.
Proof.
  induction d as [|[k' v'] d IH]; simpl; [done|].
  case_decide as Hk; [intros [= ->]; subst; left|right; auto].
Qed.

(** A cell that is neither empty nor a digit runs the handler the
    table has for it. *)
Lemma dispatch_handler (w : World) (char : pystr) (h : World -> M retval) (s : t) :
  truthy char = true -> isdigit w char = false -> dict_get ops char = Some h ->
  dispatch w char s = h w s.
Proof. intros Ht Hd Ho. unfold dispatch. by rewrite Ht, Hd, Ho. Qed.

Lemma process_char_normal (w : World) (char : pystr) (s : t) :
  string_mode s = false -> ignore_mode s = false ->
  process_char w char s =
    match dispatch w char s with
    | (Ok RFalse, s') => Returned false s'
    | (Ok RJumped, s') => Returned true s'
    | (Ok RNone, s') => Returned true (move s')
    | (Err _, s') => Returned false s'
    end.
Proof. intros Hs Hi. unfold process_char. by rewrite Hs, Hi. Qed.

(** ** Arithmetic: [:] and [%] *)

(** C8: on a stack [rest ++ [a; b]] the cells [:] and [%] replace [a] and
    [b] by the quotient [q] and the remainder [r] of the floor division
    of [a] by [b] (the remainder has the sign of [b]), both 0 when
    [b = 0]; the step returns True and no exception arises. *)
Theorem div_mod_floor_no_fault (w : World) (s : t) (rest : list Z) (a b : Z) :
  string_mode s = false -> ignore_mode s = false -> stack s = rest ++ [a; b] ->
  exists q r : Z,
    dispatch w (lit ":") s = (Ok RNone, set_stack (rest ++ [q]) s) /\
    dispatch w (lit "%") s = (Ok RNone, set_stack (rest ++ [r]) s) /\
    process_char w (lit ":") s = Returned true (move (set_stack (rest ++ [q]) s)) /\
    process_char w (lit "%") s = Returned true (move (set_stack (rest ++ [r]) s)) /\
    (b = 0 -> q = 0 /\ r = 0) /\
    (b <> 0 -> a = b * q + r /\ (0 <= r < b \/ b < r <= 0)).
Proof.
  intros Hs Hi Hst.
  exists (if b =? 0 then 0 else a `div` b), (if b =? 0 then 0 else a `mod` b).
  assert (Hd : dispatch w (lit ":") s
               = (Ok RNone, set_stack (rest ++ [if b =? 0 then 0 else a `div` b]) s)).
  { rewrite (dispatch_handler w _ op_div) by done.
    unfold op_div. rewrite guard_len_enough by eauto using two_on_stack.
    rewrite (pop2_run _ s rest a b) by done. by destruct s. }
  assert (Hm : dispatch w (lit "%") s
               = (Ok RNone, set_stack (rest ++ [if b =? 0 then 0 else a `mod` b]) s)).
  { rewrite (dispatch_handler w _ op_mod) by done.
    unfold op_mod. rewrite guard_len_enough by eauto using two_on_stack.
    rewrite (pop2_run _ s rest a b) by done. by destruct s. }
  split_and!; try done.
  - by rewrite process_char_normal, Hd.
  - by rewrite process_char_normal, Hm.
  - by intros ->.
  - intros Hb. destruct (Z.eqb_spec b 0) as [|_]; [done|].
    split; [apply Z.div_mod; done|].
    destruct (Z_lt_le_dec 0 b).
    + left. apply Z.mod_pos_bound. lia.
    + right. apply Z.mod_neg_bound. lia.
Qed.

Lemma div_mod_floor_no_fault_witness :
  exists q r : Z,
    dispatch demo_world (lit ":") (set_stack [-7; 2] (init None PyNone))
      = (Ok RNone, set_stack ([] ++ [q]) (set_stack [-7; 2] (init None PyNone))) /\
    dispatch demo_world (lit "%") (set_stack [-7; 2] (init None PyNone))
      = (Ok RNone, set_stack ([] ++ [r]) (set_stack [-7; 2] (init None PyNone))) /\
    process_char demo_world (lit ":") (set_stack [-7; 2] (init None PyNone))
      = Returned true (move (set_stack ([] ++ [q]) (set_stack [-7; 2] (init None PyNone)))) /\
    process_char demo_world (lit "%") (set_stack [-7; 2] (init None PyNone))
      = Returned true (move (set_stack ([] ++ [r]) (set_stack [-7; 2] (init None PyNone)))) /\
    (2 = 0 -> q = 0 /\ r = 0) /\
    (2 <> 0 -> -7 = 2 * q + r /\ (0 <= r < 2 \/ 2 < r <= 0)).
Proof.
  apply (div_mod_floor_no_fault demo_world (set_stack [-7; 2] (init None PyNone)) [] (-7) 2);
    reflexivity.
Defined.

(** Python's [-7 // 2 == -4], [-7 % 2 == 1], [7 // -2 == -4], [7 % -2 == -1]. *)
Example div_mod_signs :
  (dispatch demo_world (lit ":") (set_stack [-7; 2] (init None PyNone))).1 = Ok RNone /\
  stack (dispatch demo_world (lit ":") (set_stack [-7; 2] (init None PyNone))).2 = [-4] /\
  stack (dispatch demo_world (lit "%") (set_stack [-7; 2] (init None PyNone))).2 = [1] /\
  stack (dispatch demo_world (lit ":") (set_stack [7; -2] (init None PyNone))).2 = [-4] /\
  stack (dispatch demo_world (lit "%") (set_stack [7; -2] (init None PyNone))).2 = [-1] /\
  stack (dispatch demo_world (lit ":") (set_stack [7; 0] (init None PyNone))).2 = [0] /\
  stack (dispatch demo_world (lit "%") (set_stack [7; 0] (init None PyNone))).2 = [0].
Proof. by vm_compute. Qed.

(** ** Subroutine call *)

(** C7: with at least two stack elements, [F] pops y (top), then x,
    appends the position one move ahead of the [F] cell, in the
    direction held when [F] is dispatched, to the call stack, sets the
    IP to (x, y), and the step does not move the IP afterwards. *)
Theorem func_call_return_address (w : World) (s : t) (rest : list Z) (vx vy : Z) :
  string_mode s = false -> ignore_mode s = false -> stack s = rest ++ [vx; vy] ->
  exists s' : t,
    process_char w (lit "F") s = Returned true s' /\
    stack s' = rest /\
    call_stack s' = call_stack s ++ [(x s + (direction s).1, y s + (direction s).2)] /\
    (x s', y s') = (vx, vy) /\
    (x (move s), y (move s)) = (x s + (direction s).1, y s + (direction s).2) /\
    direction s' = direction s /\ program s' = program s /\
    addition_stack s' = addition_stack s /\ heap s' = heap s /\ output s' = output s.
Proof.
  intros Hs Hi Hst.
  eexists. split.
  - rewrite process_char_normal by done.
    rewrite (dispatch_handler w _ op_func_call) by done.
    unfold op_func_call. rewrite guard_len_enough by eauto using two_on_stack.
    rewrite (pop2_run _ s rest vx vy) by done.
    reflexivity.
  - by destruct s.
Qed.

Lemma func_call_return_address_witness :
  exists s' : t,
    process_char demo_world (lit "F")
      (set_xy 3 0 (set_stack [3; 0; 1] (init None PyNone))) = Returned true s' /\
    stack s' = [3] /\ call_stack s' = [(4, 0)] /\ (x s', y s') = (0, 1).
Proof.
  destruct (func_call_return_address demo_world
              (set_xy 3 0 (set_stack [3; 0; 1] (init None PyNone))) [3] 0 1
              eq_refl eq_refl eq_refl) as (s' & H1 & H2 & H3 & H4 & _).
  exists s'. split_and!; done.
Defined.

(** ** Arity guards *)

Lemma short_list {A} (l : list A) (n : nat) :
  (length l < n)%nat -> (n <= 2)%nat -> l = [] \/ exists a, l = [a] /\ n = 2%nat.
Proof. destruct l as [|a [|b l]]; simpl; intros; [by left|right; exists a; split; [done|lia]|lia]. Qed.

(** C5: when the source stack of one of these opcodes holds fewer
    elements than the opcode takes, the handler returns without an
    exception and changes nothing: the step returns True and only moves
    the IP, so the main stack (and the auxiliary stack) is as before. *)
Theorem arity_unmet_no_op (w : World) (char : pystr) (n : nat) (s : t) :
  dict_get arity char = Some n ->
  string_mode s = false -> ignore_mode s = false ->
  (length (source_stack char s) < n)%nat ->
  dispatch w char s = (Ok RNone, s) /\
  process_char w char s = Returned true (move s) /\
  stack (move s) = stack s /\ addition_stack (move s) = addition_stack s.
Proof.
  intros Ha Hs Hi Hlen.
  assert (Hd : dispatch w char s = (Ok RNone, s)).
  { apply dict_get_elem_of in Ha. unfold arity in Ha.
    repeat (apply (proj1 (elem_of_cons _ _ _)) in Ha; destruct Ha as [[= -> ->]|Ha]);
      try (by apply elem_of_nil in Ha);
      (destruct (short_list _ _ Hlen ltac:(lia)) as [Hl|(a & Hl & ?)]; try done);
      unfold source_stack in Hl; simpl in Hl;
      (erewrite dispatch_handler; [|reflexivity|reflexivity|reflexivity]);
      cbv [op_add op_sub op_mul op_div op_mod op_and op_or op_xor op_not op_eq
           op_less op_greater op_pop op_swap op_copy op_move_to_aux
           op_move_from_aux op_rotate_left op_rotate_right
           guard_len if_stack bind stack_len gets ret];
      by rewrite Hl. }
  split_and!; [done| |by destruct s..].
  by rewrite process_char_normal, Hd.
Qed.

Lemma arity_unmet_no_op_witness :
  dispatch demo_world (lit "S") (set_stack [5] (init None PyNone))
    = (Ok RNone, set_stack [5] (init None PyNone)) /\
  process_char demo_world (lit "S") (set_stack [5] (init None PyNone))
    = Returned true (move (set_stack [5] (init None PyNone))) /\
  stack (move (set_stack [5] (init None PyNone))) = stack (set_stack [5] (init None PyNone)) /\
  addition_stack (move (set_stack [5] (init None PyNone)))
    = addition_stack (set_stack [5] (init None PyNone)).
Proof.
  apply (arity_unmet_no_op demo_world (lit "S") 2 (set_stack [5] (init None PyNone)));
    [reflexivity|reflexivity|reflexivity|simpl; lia].
Defined.

(** ** What every handler leaves alone *)

Ltac unfold_handlers :=
  cbv [op_up op_right op_left op_down set_dir_key
       op_add op_sub op_mul op_div op_mod op_and op_or op_xor op_not op_eq
       op_less op_greater op_pop op_swap op_copy op_move_to_aux
       op_move_from_aux op_rotate_left op_rotate_right op_len op_clear
       op_print_num op_print_char stdout_write op_input call_built_in_input
       op_heap_store op_heap_load op_grid_get op_grid_put op_jump op_func_call
       op_return _pop_string op_merge op_time op_wait op_vertical_mirror
       op_horizontal_mirror turn op_mirror_slash op_mirror_backslash op_exit
       op_quote op_random_dir guard_len if_stack bind ret raise gets modify
       stack_pop stack_append stack_len the_program of_option of_sum] in *.

Ltac each_handler :=
  unfold ops;
  repeat (apply Forall_cons; split); [..|by apply Forall_nil];
  intros ? ?; simpl; unfold_handlers.

#[local] Set Warnings "-clear-no-such-hyp".

Ltac crunch := repeat case_match; simplify_eq/=; try done.

(** No handler assigns [input] or [built_in_input]. *)
Lemma handlers_keep_bindings :
  Forall (fun kv : pystr * (World -> M retval) =>
            forall w s, built_in_input (kv.2 w s).2 = built_in_input s
                        /\ input (kv.2 w s).2 = input s) ops.
Proof. each_handler; crunch; by destruct s. Qed.

(** A handler that raises has not touched the IP, the direction or the
    modes. *)
Lemma handlers_raise_frame :
  Forall (fun kv : pystr * (World -> M retval) =>
            forall w s e s', kv.2 w s = (Err e, s') -> control s' = control s) ops.
Proof. each_handler; intros e s' H; crunch; by destruct s. Qed.

Lemma random_choice_unit (w : World) (d : Z * Z) :
  random_choice w (dict_values DIRECTIONS) = Some d -> d ∈ unit_vectors.
Proof.
  unfold random_choice. intros H%list_elem_of_lookup_2.
  simpl in H. unfold unit_vectors. set_solver.
Qed.

(** Started in normal mode with a unit direction, a handler ends with a
    unit direction and at most one mode set. *)
Lemma handlers_invariant :
  Forall (fun kv : pystr * (World -> M retval) =>
            forall w s, direction s ∈ unit_vectors ->
                        string_mode s = false -> ignore_mode s = false ->
                        invariant (kv.2 w s).2) ops.
Proof.
  unfold ops.
  repeat (apply Forall_cons; split); [..|by apply Forall_nil];
    intros w s Hd Hs Hi; simpl.
  all: unfold_handlers; crunch; split; simpl; rewrite ?Hi, ?Hs; try done.
  all: first [ by eapply random_choice_unit
             | unfold unit_vectors; set_solver
             | repeat case_decide; simplify_eq; unfold unit_vectors; set_solver ].
Qed.

(** The body of the [try] block does nothing, pushes a digit, fails in
    [int], or runs a handler of the table. *)
Lemma dispatch_cases (w : World) (char : pystr) (s : t) :
  dispatch w char s = (Ok RNone, s)
  \/ (exists n, dispatch w char s = (Ok RNone, set_stack (stack s ++ [n]) s))
  \/ dispatch w char s = (Err ValueError, s)
  \/ (exists h, (char, h) ∈ ops /\ dispatch w char s = h w s).
Proof.
  unfold dispatch.
  destruct (truthy char); cbn [negb]; [|left; reflexivity].
  destruct (isdigit w char).
  - unfold bind, of_sum, int_of_str.
    destruct char as [|c cs]; [right; right; left; reflexivity|].
    destruct (foldl _ _ _);
      [right; left; eexists; reflexivity|right; right; left; reflexivity].
  - destruct (dict_get ops char) as [h|] eqn:E; [|left; reflexivity].
    right; right; right. exists h. split; [by apply dict_get_elem_of|done].
Qed.

Lemma in_ops {P : pystr * (World -> M retval) -> Prop} char h :
  Forall P ops -> (char, h) ∈ ops -> P (char, h).
Proof. intros HF Hin. by apply (proj1 (Forall_forall _ _) HF). Qed.

(** ** The step keeps the invariant *)

Lemma dispatch_invariant (w : World) (char : pystr) (s : t) :
  direction s ∈ unit_vectors -> string_mode s = false -> ignore_mode s = false ->
  invariant (dispatch w char s).2.
Proof.
  intros Hd Hs Hi.
  destruct (dispatch_cases w char s) as [->|[[n ->]|[->|(h & Hin & ->)]]];
    try (by split; simpl; rewrite ?Hi).
  by apply (in_ops _ _ handlers_invariant Hin).
Qed.

Lemma invariant_move (s : t) : invariant s -> invariant (move s).
Proof. by intros [? ?]. Qed.

Lemma process_char_invariant (w : World) (char : pystr) (s : t) :
  invariant s -> invariant (final (process_char w char s)).
Proof.
  intros [Hd Hm]. unfold process_char.
  destruct (string_mode s) eqn:Hs.
  - rewrite andb_true_r in Hm.
    case_decide; [by split; simpl; rewrite ?Hm|].
    destruct (ord char); simpl; split; simpl; by rewrite ?Hm, ?Hs.
  - destruct (ignore_mode s) eqn:Hi.
    + simpl. case_match; split; simpl; by rewrite ?Hs, ?andb_false_r.
    + pose proof (dispatch_invariant w char s Hd Hs Hi) as Hinv.
      destruct (dispatch w char s) as [[[| |]|e] s']; simpl in *;
        auto using invariant_move.
Qed.

Lemma step_invariant (w : World) (s : t) :
  invariant s -> invariant (final (step w s)).
Proof.
  intros H. unfold step. destruct (program s); [|done].
  by apply process_char_invariant.
Qed.

Lemma method_call_invariant (s s' : t) :
  method_call s s' -> invariant s -> invariant s'.
Proof.
  destruct 1 as [w code s|w file s|s|data p s|w s]; intros Hinv.
  - unfold load_code. by destruct (GridMap.init _ _ _).
  - unfold load_program. by destruct (GridMap.init _ _ _).
  - split; simpl; [unfold unit_vectors; set_solver|done].
  - done.
  - by apply step_invariant.
Qed.

(** C4: in every state the interpreter can reach (any program, any
    number of steps, any inputs, also the state in which a step halted
    or raised) the direction is one of the four unit vectors and
    ignore mode and string mode are not both set. *)
Theorem reachable_invariant (s : t) :
  reachable s ->
  direction s ∈ [ (0, -1); (1, 0); (0, 1); (-1, 0) ] /\
  ignore_mode s && string_mode s = false.
Proof.
  intros (inp & cb & Hr). change (invariant s).
  revert s Hr. apply rtc_ind_r.
  - split; simpl; [unfold unit_vectors; set_solver|done].
  - intros s s' _ Hcall IH. by eapply method_call_invariant.
Qed.

Lemma reachable_init (inp : option pystr) (cb : pyobj) : reachable (init inp cb).
Proof. by exists inp, cb. Qed.

Lemma reachable_call (s s' : t) : reachable s -> method_call s s' -> reachable s'.
Proof. intros (inp & cb & Hr) Hc. exists inp, cb. by eapply rtc_r. Qed.

Lemma reachable_step (w : World) (s : t) : reachable s -> reachable (final (step w s)).
Proof. intros Hr. eapply reachable_call; [done|apply call_step]. Qed.

Lemma reachable_load_code (w : World) (code : pystr) (s : t) :
  reachable s -> reachable (final (load_code w code s)).
Proof. intros Hr. eapply reachable_call; [done|apply call_load_code]. Qed.

Lemma reachable_invariant_witness :
  direction mirror_demo = (1, 0) /\ (x mirror_demo, y mirror_demo) = (2, 1) /\
  direction mirror_demo ∈ [ (0, -1); (1, 0); (0, 1); (-1, 0) ] /\
  ignore_mode mirror_demo && string_mode mirror_demo = false.
Proof.
  split; [reflexivity|]. split; [reflexivity|].
  apply reachable_invariant. unfold mirror_demo.
  do 3 apply reachable_step. apply reachable_load_code, reachable_init.
Defined.

(** ** Exceptions inside the step *)

Lemma dispatch_raise_frame (w : World) (char : pystr) (s s' : t) (e : exn) :
  dispatch w char s = (Err e, s') -> control s' = control s.
Proof.
  destruct (dispatch_cases w char s) as [H|[[n H]|[H|(h & Hin & H)]]]; rewrite H.
  - intros [=].
  - intros [=].
  - by intros [= _ <-].
  - apply (in_ops _ _ handlers_raise_frame Hin).
Qed.

(** A raising dispatch makes the step return False, and a [run] of
    one step with it. *)
Lemma raise_stops_run (w : World) (char : pystr) (s s' : t) (e : exn) :
  string_mode s = false -> ignore_mode s = false ->
  dispatch w char s = (Err e, s') ->
  process_char w char s = Returned false s' /\
  (forall g ws fuel, program s = Some g -> GridMap.get_item g (x s) (y s) = char ->
     ws 0%nat = w -> run fuel ws 1 s = Some (Returned false s')).
Proof.
  intros Hs Hi Hd.
  assert (Hp : process_char w char s = Returned false s')
    by (by rewrite process_char_normal, Hd).
  split; [done|].
  intros g ws fuel Hg Hch Hw. unfold run, step. simpl.
  unfold step. by rewrite Hg, Hch, Hw, Hp.
Qed.

(** C1, as the code has it: in normal mode an exception raised while
    the cell is dispatched is caught inside the step and does not reach
    the host, but the step returns False, so [run] stops as it does on
    [@]; the IP is not moved (position, direction and modes are as
    before the step) and what the handler had mutated before the
    exception stays mutated. *)
Theorem handler_exception_halts (w : World) (char : pystr) (s s' : t) (e : exn) :
  string_mode s = false -> ignore_mode s = false ->
  dispatch w char s = (Err e, s') ->
  process_char w char s = Returned false s' /\
  (x s', y s') = (x s, y s) /\ direction s' = direction s /\
  ignore_mode s' = false /\ string_mode s' = false /\
  (forall g ws fuel, program s = Some g -> GridMap.get_item g (x s) (y s) = char ->
     ws 0%nat = w -> run fuel ws 1 s = Some (Returned false s')).
Proof.
  intros Hs Hi Hd.
  destruct (raise_stops_run w char s s' e Hs Hi Hd) as [Hp Hrun].
  pose proof (dispatch_raise_frame _ _ _ _ _ Hd) as Hc.
  unfold control in Hc. injection Hc as Hx Hy Hdir Him Hsm.
  split_and!; try congruence. exact Hrun.
Qed.

Lemma handler_exception_halts_witness :
  stack chr_fault_before = [-1] /\
  process_char demo_world (lit "A") chr_fault_before
    = Returned false (set_stack [] chr_fault_before) /\
  (x (set_stack [] chr_fault_before), y (set_stack [] chr_fault_before)) = (3, 0).
Proof.
  split; [reflexivity|].
  destruct (handler_exception_halts demo_world (lit "A") chr_fault_before
              (set_stack [] chr_fault_before) ValueError
              eq_refl eq_refl eq_refl) as (H1 & H2 & _).
  split; [exact H1|exact H2].
Defined.

(** C1 fails as stated: on [01-A] the fourth step is taken in normal
    mode, its handler raises, and the step neither leaves the state
    alone nor moves the IP nor lets the run go on: [run(4)] returns
    False with the stack popped and the IP still on [A]. *)
Lemma handler_exception_not_a_no_op :
  string_mode chr_fault_before = false /\ ignore_mode chr_fault_before = false /\
  (dispatch demo_world (lit "A") chr_fault_before).1 = Err ValueError /\
  process_char demo_world (lit "A") chr_fault_before
    <> Returned true (move chr_fault_before) /\
  exists s', run 0 (fun _ => demo_world) 4 chr_fault_start = Some (Returned false s') /\
             stack s' = [] /\ stack chr_fault_before = [-1] /\
             (x s', y s') = (3, 0) /\
             (x (move chr_fault_before), y (move chr_fault_before)) = (4, 0).
Proof.
  split_and!; [reflexivity|reflexivity|reflexivity|by vm_compute|].
  eexists. split; [vm_compute; reflexivity|]. by vm_compute.
Qed.

(** ** String mode on an empty cell *)

(** Outside the grid, and on a cell never filled, [get_item] gives the
    empty string. *)
Lemma get_item_outside (g : GridMap.t) (vx vy : Z) :
  vx < 0 \/ vy < 0 \/ Z.of_nat (length (GridMap._map g)) <= vy ->
  GridMap.get_item g vx vy = [].
Proof.
  intros H. unfold GridMap.get_item.
  destruct (Z.leb_spec 0 vy), (Z.ltb_spec vy (Z.of_nat (length (GridMap._map g))));
    simpl; try done; try lia.
  destruct (Z.leb_spec 0 vx); simpl; [lia|done].
Qed.

(** C9: in string mode a step on an empty cell evaluates [ord("")],
    which raises [TypeError] outside the [try] block: the exception
    leaves [process_char] and [run], for every step count that is not
    negative, with the interpreter unchanged. *)
Theorem string_mode_empty_cell_raises (w : World) (s : t) (g : GridMap.t) :
  string_mode s = true -> program s = Some g ->
  GridMap.get_item g (x s) (y s) = [] ->
  ord [] = inl TypeError /\
  process_char w [] s = Uncaught TypeError s /\
  step w s = Uncaught TypeError s /\
  (forall ws fuel steps, ws 0%nat = w -> 0 < steps ->
     run fuel ws steps s = Some (Uncaught TypeError s)) /\
  (forall ws fuel, ws 0%nat = w -> run (S fuel) ws 0 s = Some (Uncaught TypeError s)).
Proof.
  intros Hs Hg Hc.
  assert (Hp : process_char w [] s = Uncaught TypeError s)
    by (unfold process_char; by rewrite Hs).
  assert (Hstep : step w s = Uncaught TypeError s)
    by (unfold step; by rewrite Hg, Hc).
  split_and!; try done.
  - intros ws fuel steps Hw Hpos. unfold run.
    destruct (Z.ltb_spec steps 0); [lia|].
    destruct (Z.ltb_spec 0 steps); [|lia].
    destruct (Z.to_nat steps) as [|n] eqn:En; [lia|].
    simpl. by rewrite Hw, Hstep.
  - intros ws fuel Hw. unfold run. simpl. by rewrite Hw, Hstep.
Qed.

Lemma string_mode_empty_cell_raises_witness :
  string_mode lone_quote = true /\ (x lone_quote, y lone_quote) = (1, 0) /\
  step demo_world lone_quote = Uncaught TypeError lone_quote /\
  run 0 (fun _ => demo_world) 2
      (final (load_code demo_world [34] (init None PyCallable)))
    = Some (Uncaught TypeError lone_quote).
Proof.
  split; [reflexivity|]. split; [reflexivity|].
  destruct (string_mode_empty_cell_raises demo_world lone_quote
              (GridMap.of_lines [[34]]) eq_refl eq_refl eq_refl)
    as (_ & _ & H3 & _).
  split; [exact H3|reflexivity].
Defined.

(** ** [set_input] and the callback *)

Lemma dispatch_keeps_bindings (w : World) (char : pystr) (s : t) :
  built_in_input (dispatch w char s).2 = built_in_input s /\
  input (dispatch w char s).2 = input s.
Proof.
  destruct (dispatch_cases w char s) as [H|[[n H]|[H|(h & Hin & H)]]];
    rewrite H; try done.
  apply (in_ops _ _ handlers_keep_bindings Hin).
Qed.

Lemma process_char_keeps_bindings (w : World) (char : pystr) (s : t) :
  built_in_input (final (process_char w char s)) = built_in_input s /\
  input (final (process_char w char s)) = input s.
Proof.
  unfold process_char.
  destruct (string_mode s); [case_decide; [done|by destruct (ord char)]|].
  destruct (ignore_mode s); [by case_match|].
  pose proof (dispatch_keeps_bindings w char s) as Hk.
  by destruct (dispatch w char s) as [[[| |]|e] s'].
Qed.

Lemma method_call_keeps_bool (s s' : t) :
  method_call s s' -> is_bool (built_in_input s) -> is_bool (built_in_input s').
Proof.
  destruct 1 as [w code s|w file s|s|data p s|w s]; try done.
  - unfold load_code. by destruct (GridMap.init _ _ _).
  - unfold load_program. by destruct (GridMap.init _ _ _).
  - unfold step. destruct (program s); [|done].
    by rewrite (proj1 (process_char_keeps_bindings _ _ _)).
Qed.

Lemma steps_to_keep_bindings (s s' : t) :
  steps_to s s' -> built_in_input s' = built_in_input s /\ input s' = input s.
Proof.
  intros Hr. revert s' Hr. apply rtc_ind_r; [done|].
  intros s1 s2 _ [w ->] [IH1 IH2]. unfold step.
  destruct (program s1); [|done].
  destruct (process_char_keeps_bindings w (GridMap.get_item t0 (x s1) (y s1)) s1)
    as [H1 H2].
  by rewrite H1, H2.
Qed.

(** C10: [set_input] stores a boolean in [built_in_input], False for a
    non-empty input and True for an empty one, whatever was bound
    before; no later method call binds a callable again; and after
    [set_input("")], at once or any number of steps later, the cell
    [I] executed in normal mode calls True, the [TypeError] is caught
    in [process_char], and the step returns False with the state
    unchanged, so [run] stops there. *)
Theorem set_input_replaces_callback (w : World) (data : pystr) (p : Z) (s : t) :
  built_in_input (set_input data p s) = PyBool (negb (truthy data)) /\
  (forall s', rtc method_call (set_input data p s) s' ->
              exists b, built_in_input s' = PyBool b) /\
  (forall s', steps_to (set_input [] p s) s' ->
     string_mode s' = false -> ignore_mode s' = false ->
     dispatch w (lit "I") s' = (Err TypeError, s') /\
     process_char w (lit "I") s' = Returned false s' /\
     (forall g ws fuel, program s' = Some g ->
        GridMap.get_item g (x s') (y s') = lit "I" -> ws 0%nat = w ->
        run fuel ws 1 s' = Some (Returned false s'))).
Proof.
  split; [done|]. split.
  - intros s' Hr.
    assert (is_bool (built_in_input s')) as Hb.
    { revert s' Hr. apply rtc_ind_r; [done|].
      intros s1 s2 _ Hc IH. by eapply method_call_keeps_bool. }
    destruct (built_in_input s') as [| |b]; try done. by exists b.
  - intros s' Hr Hs Hi.
    destruct (steps_to_keep_bindings _ _ Hr) as [Hcb Hin]. simpl in Hcb, Hin.
    assert (Hd : dispatch w (lit "I") s' = (Err TypeError, s')).
    { rewrite (dispatch_handler w _ op_input) by done.
      unfold op_input, bind, gets, call_built_in_input.
      rewrite Hin, Hcb. cbn [obj_truthy]. by rewrite Hcb. }
    destruct (raise_stops_run w (lit "I") s' _ _ Hs Hi Hd) as [Hp Hrun].
    by split_and!.
Qed.

Lemma set_input_replaces_callback_witness :
  built_in_input input_demo = PyCallable /\
  built_in_input (set_input [] 0 input_demo) = PyBool true /\
  built_in_input (set_input (lit "a") 0 input_demo) = PyBool false /\
  run 0 (fun _ => demo_world) 1 (final (step demo_world (set_input [] 0 input_demo)))
    = Some (Returned false (final (step demo_world (set_input [] 0 input_demo)))).
Proof.
  split; [reflexivity|].
  destruct (set_input_replaces_callback demo_world [] 0 input_demo)
    as (H1 & _ & H3).
  destruct (set_input_replaces_callback demo_world (lit "a") 0 input_demo)
    as (H1' & _).
  destruct (H3 (final (step demo_world (set_input [] 0 input_demo)))
               (rtc_once _ _ (ex_intro _ demo_world eq_refl)) eq_refl eq_refl)
    as (_ & _ & Hrun).
  split; [exact H1|]. split; [exact H1'|].
  exact (Hrun (GridMap.of_lines [lit "1I@"]) (fun _ => demo_world) 0%nat
              eq_refl eq_refl eq_refl).
Defined.

(** ** [reset] and the snapshot *)

(** C2, as the code has it: after [reset] the snapshot agrees with that
    of a fresh interpreter on output, stack, auxiliary stack, call
    stack, heap, position, direction, both modes and the input pointer;
    [input] and [built_in_input] keep their bindings; and, [reset]
    leaving [program] alone, the character field is the cell at (0, 0)
    of the program the interpreter holds (empty without a program),
    where a fresh interpreter shows the empty string. *)
Theorem reset_snapshot (s : t) (inp : option pystr) (cb : pyobj) :
  let a := get_information (reset s) in
  let b := get_information (init inp cb) in
  i_output a = i_output b /\ i_stack a = i_stack b /\
  i_addition_stack a = i_addition_stack b /\ i_call_stack a = i_call_stack b /\
  i_heap a = i_heap b /\ i_position a = i_position b /\
  i_direction a = i_direction b /\ i_ignore_mode a = i_ignore_mode b /\
  i_string_mode a = i_string_mode b /\ i_input_pointer a = i_input_pointer b /\
  i_input a = input s /\ built_in_input (reset s) = built_in_input s /\
  program (reset s) = program s /\
  i_character b = [] /\
  i_character a = match program s with
                  | Some g => if (GridMap.len g =? 0)%nat then []
                              else GridMap.get_item g 0 0
                  | None => []
                  end.
Proof.
  split_and!; try done.
  unfold get_information, get_current_char, program_truthy; simpl.
  destruct (program s); [|done]. by destruct (GridMap.len _ =? 0)%nat.
Qed.

(** C2 fails as stated on the character field: after six steps of the
    program above and a [reset], the snapshot shows [A] there; a fresh
    interpreter shows the empty string, and a fresh interpreter with
    the same source loaded shows the double quote. *)
Lemma reset_snapshot_character_differs :
  i_character (get_information (reset selfmod_demo)) = lit "A" /\
  i_character (get_information (init None PyCallable)) = [] /\
  i_character (get_information
                 (final (load_code demo_world selfmod_src (init None PyCallable)))) = [34] /\
  i_character (get_information (reset selfmod_demo))
    <> i_character (get_information (init None PyCallable)).
Proof. by vm_compute. Qed.

(** ** The stepper *)

Lemma state_at_None_mono (ws : nat -> World) (s : t) (k j : nat) :
  state_at ws s k = None -> (k <= j)%nat -> state_at ws s j = None.
Proof.
  intros Hk Hle. induction Hle as [|j _ IH]; [done|]. simpl. by rewrite IH.
Qed.

Lemma state_at_stuck (ws : nat -> World) (s sk : t) (k j : nat) :
  state_at ws s k = Some sk -> ~ continues (step (ws k) sk) -> (k < j)%nat ->
  state_at ws s j = None.
Proof.
  intros Hk Hn Hlt. apply (state_at_None_mono ws s (S k)); [|lia].
  simpl. rewrite Hk. destruct (step (ws k) sk) as [[|] s'|e s']; try done.
  destruct Hn. by exists s'.
Qed.

(** The [for] loop against [state_at]; [s0] is the state the run
    started in, [i] the iterations done so far. *)
Lemma for_loop_spec (ws : nat -> World) (s0 : t) (n i : nat) (s : t) :
  state_at ws s0 i = Some s ->
  match for_loop ws i n s with
  | inl s' => state_at ws s0 (i + n) = Some s'
  | inr o => exists k sk, (i <= k < i + n)%nat /\ state_at ws s0 k = Some sk /\
                          step (ws k) sk = o /\ ~ continues o
  end.
Proof.
  revert i s. induction n as [|n IH]; intros i s Hi; simpl.
  - by rewrite Nat.add_0_r.
  - destruct (step (ws i) s) as [[|] s'|e s'] eqn:Hst.
    + specialize (IH (S i) s'). simpl in IH. rewrite Hi, Hst in IH.
      specialize (IH eq_refl). rewrite <- Nat.add_succ_comm.
      destruct (for_loop ws (S i) n s') as [s''|o]; [done|].
      destruct IH as (k & sk & ? & ? & ? & ?). exists k, sk. split_and!; [lia..|done|done|done].
    + exists i, s. split_and!; [lia..|done|done|]. by intros (? & [=]).
    + exists i, s. split_and!; [lia..|done|done|]. by intros (? & [=]).
Qed.

Lemma while_loop_for_loop (ws : nat -> World) (fuel i : nat) (s : t) :
  while_loop ws i fuel s = match for_loop ws i fuel s with
                           | inl _ => None
                           | inr o => Some o
                           end.
Proof.
  revert i s. induction fuel as [|fuel IH]; intros i s; simpl; [done|].
  destruct (step (ws i) s) as [[|] s'|e s']; auto.
Qed.

(** The loop leaves through the first iteration that does not return
    True, and only through it. *)
Lemma for_loop_leaves (ws : nat -> World) (s : t) (n : nat) (o : outcome bool) :
  for_loop ws 0 n s = inr o <->
  exists k sk, (k < n)%nat /\ state_at ws s k = Some sk /\
               step (ws k) sk = o /\ ~ continues o.
Proof.
  pose proof (for_loop_spec ws s n 0 s eq_refl) as Hspec. simpl in Hspec.
  split.
  - intros H. rewrite H in Hspec. destruct Hspec as (k & sk & ? & ? & ? & ?).
    exists k, sk. split_and!; [lia|done..].
  - intros (k & sk & Hk & Hsk & Ho & Hn).
    destruct (for_loop ws 0 n s) as [s'|o'].
    + rewrite (state_at_stuck ws s sk k n) in Hspec; [done..|by rewrite Ho|done].
    + destruct Hspec as (k' & sk' & Hk' & Hsk' & Ho' & Hn').
      destruct (lt_eq_lt_dec k k') as [[Hlt|Heq]|Hgt].
      * rewrite (state_at_stuck ws s sk k k') in Hsk'; [done..|by rewrite Ho|done].
      * subst k'. congruence.
      * rewrite (state_at_stuck ws s sk' k' k) in Hsk; [done..|by rewrite Ho'|done].
Qed.

Lemma for_loop_completes (ws : nat -> World) (s s' : t) (n : nat) :
  for_loop ws 0 n s = inl s' <-> state_at ws s n = Some s'.
Proof.
  pose proof (for_loop_spec ws s n 0 s eq_refl) as Hspec. simpl in Hspec.
  split.
  - intros H. by rewrite H in Hspec.
  - intros H. destruct (for_loop ws 0 n s) as [s''|o]; [congruence|].
    destruct Hspec as (k & sk & Hk & Hsk & Ho & Hn).
    rewrite (state_at_stuck ws s sk k n) in H; [done..|by rewrite Ho|lia].
Qed.

Lemma step_never_ValueError (w : World) (s s' : t) :
  step w s <> Uncaught ValueError s'.
Proof.
  unfold step, process_char. destruct (program s); [|done].
  destruct (string_mode s).
  - case_decide; [done|]. by destruct (GridMap.get_item _ _ _) as [|? [|? ?]].
  - destruct (ignore_mode s); [done|]. by destruct (dispatch _ _ _) as [[[| |]|?] ?].
Qed.

(** C3: [run(steps)] raises [ValueError] exactly when [steps < 0].  For
    [steps > 0] it always comes back: it returns True exactly when all
    [steps] iterations returned True (no halt), and returns False
    exactly when one of the first [steps] iterations returned False,
    which is then the last one executed.  For [steps == 0] it never
    returns True, returns False exactly through the first iteration
    that returns False, and is still looping after [fuel] iterations
    exactly when all of them returned True. *)
Theorem run_contract (fuel : nat) (ws : nat -> World) (steps : Z) (s : t) :
  ((exists s', run fuel ws steps s = Some (Uncaught ValueError s')) <-> steps < 0) /\
  (0 < steps ->
     run fuel ws steps s <> None /\
     (forall s', run fuel ws steps s = Some (Returned true s') <->
                 state_at ws s (Z.to_nat steps) = Some s') /\
     (forall s', run fuel ws steps s = Some (Returned false s') <->
                 exists k sk, (k < Z.to_nat steps)%nat /\ state_at ws s k = Some sk /\
                              step (ws k) sk = Returned false s')) /\
  (steps = 0 ->
     (forall s', run fuel ws steps s <> Some (Returned true s')) /\
     (forall s', run fuel ws steps s = Some (Returned false s') <->
                 exists k sk, (k < fuel)%nat /\ state_at ws s k = Some sk /\
                              step (ws k) sk = Returned false s') /\
     (run fuel ws steps s = None <-> is_Some (state_at ws s fuel))).
Proof.
  assert (Hnt : forall s', ~ continues (Returned false s')) by (by intros s' (? & [=])).
  split_and!.
  - unfold run. destruct (Z.ltb_spec steps 0) as [Hneg|Hnn].
    { split; [done|]. intros _. by exists s. }
    split; [|lia]. intros [s' H]. exfalso.
    destruct (Z.ltb_spec 0 steps).
    + destruct (for_loop ws 0 (Z.to_nat steps) s) as [s''|o] eqn:E; [done|].
      apply for_loop_leaves in E as (k & sk & _ & _ & Ho & _).
      injection H as ->. by apply step_never_ValueError in Ho.
    + rewrite while_loop_for_loop in H.
      destruct (for_loop ws 0 fuel s) as [s''|o] eqn:E; [done|].
      apply for_loop_leaves in E as (k & sk & _ & _ & Ho & _).
      injection H as ->. by apply step_never_ValueError in Ho.
  - intros Hpos. unfold run.
    destruct (Z.ltb_spec steps 0); [lia|]. destruct (Z.ltb_spec 0 steps); [|lia].
    split_and!.
    + by destruct (for_loop _ _ _ _).
    + intros s'. rewrite <- for_loop_completes.
      destruct (for_loop ws 0 (Z.to_nat steps) s) as [s''|o] eqn:E.
      * split; congruence.
      * split; [|done]. intros [= ->].
        apply for_loop_leaves in E as (k & sk & _ & _ & _ & Hn).
        destruct Hn. by eexists.
    + intros s'. split.
      * destruct (for_loop ws 0 (Z.to_nat steps) s) as [s''|o] eqn:E; [done|].
        intros [= ->]. apply for_loop_leaves in E as (k & sk & ? & ? & ? & _).
        by exists k, sk.
      * intros (k & sk & Hk & Hsk & Ho).
        assert (E : for_loop ws 0 (Z.to_nat steps) s = inr (Returned false s'))
          by (apply for_loop_leaves; exists k, sk; auto).
        by rewrite E.
  - intros ->. unfold run. simpl. rewrite while_loop_for_loop.
    split_and!.
    + intros s'. destruct (for_loop ws 0 fuel s) as [s''|o] eqn:E; [done|].
      intros [= ->]. apply for_loop_leaves in E as (k & sk & _ & _ & _ & Hn).
      destruct Hn. by eexists.
    + intros s'. split.
      * destruct (for_loop ws 0 fuel s) as [s''|o] eqn:E; [done|].
        intros [= ->]. apply for_loop_leaves in E as (k & sk & ? & ? & ? & _).
        by exists k, sk.
      * intros (k & sk & Hk & Hsk & Ho).
        assert (E : for_loop ws 0 fuel s = inr (Returned false s'))
          by (apply for_loop_leaves; exists k, sk; auto).
        by rewrite E.
    + destruct (for_loop ws 0 fuel s) as [s''|o] eqn:E.
      * apply for_loop_completes in E. split; [by eexists|done].
      * split; [done|]. intros [s'' Hs''].
        apply for_loop_leaves in E as (k & sk & Hk & Hsk & Ho & Hn).
        rewrite (state_at_stuck ws s sk k fuel) in Hs''; [done..|by rewrite Ho|done].
Qed.

Lemma run_contract_witness :
  (exists s', run 0 (fun _ => demo_world) 4 add_demo = Some (Returned true s')
              /\ get_output s' = lit "7") /\
  (exists s', run 0 (fun _ => demo_world) 5 add_demo = Some (Returned false s')
              /\ (x s', y s') = (4, 0)) /\
  run 4 (fun _ => demo_world) 0 add_demo = None /\
  (exists s', run 5 (fun _ => demo_world) 0 add_demo = Some (Returned false s')) /\
  run 0 (fun _ => demo_world) (-1) add_demo = Some (Uncaught ValueError add_demo).
Proof.
  split_and!.
  - destruct (run_contract 0 (fun _ => demo_world) 4 add_demo) as (_ & H & _).
    destruct (H eq_refl) as (_ & Ht & _).
    eexists. split; [apply Ht; vm_compute; reflexivity|reflexivity].
  - destruct (run_contract 0 (fun _ => demo_world) 5 add_demo) as (_ & H & _).
    destruct (H eq_refl) as (_ & _ & Hf).
    eexists. split; [apply Hf; exists 4%nat; eexists; split_and!;
                     [vm_compute; lia|vm_compute; reflexivity|vm_compute; reflexivity]|].
    reflexivity.
  - destruct (run_contract 4 (fun _ => demo_world) 0 add_demo) as (_ & _ & H).
    destruct (H eq_refl) as (_ & _ & Hn). apply Hn. eexists. vm_compute. reflexivity.
  - destruct (run_contract 5 (fun _ => demo_world) 0 add_demo) as (_ & _ & H).
    destruct (H eq_refl) as (_ & Hf & _).
    eexists. apply Hf. exists 4%nat. eexists. split_and!;
      [lia|vm_compute; reflexivity|vm_compute; reflexivity].
  - reflexivity.
Defined.

(** ** The grid under writes *)

Lemma uniform_rows_of_width (g : GridMap.t) :
  GridMap.uniform g <-> exists n, rows_of_width n (GridMap._map g).
Proof.
  unfold GridMap.uniform, rows_of_width. split; [by eexists|].
  intros [n H]. destruct (GridMap._map g) as [|row0 m]; [done|].
  simpl. by rewrite (Forall_inv H).
Qed.

Lemma py_index_in_range (len : nat) (i : Z) :
  0 <= i < Z.of_nat len -> py_index len i = Some (Z.to_nat i).
Proof.
  intros H. unfold py_index.
  destruct (Z.leb_spec 0 i), (Z.ltb_spec i (Z.of_nat len)); simpl; try lia; done.
Qed.

Lemma py_index_lt (len : nat) (i : Z) (k : nat) :
  py_index len i = Some k -> (k < len)%nat.
Proof.
  unfold py_index.
  destruct (Z.leb_spec 0 i), (Z.ltb_spec i (Z.of_nat len)); simpl; try (intros [= <-]; lia).
  all: destruct (Z.leb_spec (- Z.of_nat len) i), (Z.ltb_spec i 0); simpl;
    try done; intros [= <-]; lia.
Qed.

(** A store into the grid keeps the number of rows and their widths. *)
Lemma setitem2_rows_of_width (m m' : list (list pystr)) (i j : Z) (v : pystr) (n : nat) :
  GridMap.setitem2 m i j v = Some m' -> rows_of_width n m ->
  rows_of_width n m' /\ length m' = length m.
Proof.
  unfold GridMap.setitem2, getitem, setitem. intros H Hn.
  destruct (py_index (length m) i) as [k|] eqn:Ek; [|done]. simpl in H.
  destruct (m !! k) as [row|] eqn:Erow; [|done]. simpl in H.
  destruct (py_index (length row) j) as [k'|]; [|done]. simpl in H.
  injection H as <-. split; [|by rewrite length_insert].
  apply Forall_insert; [done|]. rewrite length_insert.
  by apply (Forall_lookup_1 _ _ _ _ Hn Erow).
Qed.

Lemma setitem2_in_range (m : list (list pystr)) (row : list pystr) (i j : Z) (v : pystr) :
  0 <= i -> 0 <= j -> m !! Z.to_nat i = Some row -> j < Z.of_nat (length row) ->
  GridMap.setitem2 m i j v = Some (<[Z.to_nat i := <[Z.to_nat j := v]> row]> m).
Proof.
  intros Hi Hj Hrow Hlen. unfold GridMap.setitem2, getitem, setitem.
  pose proof (lookup_lt_Some _ _ _ Hrow) as Hlt.
  rewrite (py_index_in_range (length m) i) by lia. simpl. rewrite Hrow. simpl.
  by rewrite (py_index_in_range (length row) j) by lia.
Qed.

(** After [_ensure_size w h] on a uniform grid there are at least [h]
    rows, all of one width that is at least [w]. *)
Lemma ensure_size_rows (g : GridMap.t) (w h : Z) :
  GridMap.uniform g ->
  exists n, rows_of_width n (GridMap._map (GridMap._ensure_size g w h)) /\
            w <= Z.of_nat n /\
            h <= Z.of_nat (length (GridMap._map (GridMap._ensure_size g w h))).
Proof.
  intros Hu. unfold GridMap._ensure_size. simpl.
  set (cw := GridMap.width0 (GridMap._map g)).
  set (m1 := if Z.of_nat (length (GridMap._map g)) <? h then _ else _).
  assert (H1 : rows_of_width cw m1).
  { unfold m1. case_match; [|done].
    apply Forall_app. split; [done|].
    apply Forall_replicate. by rewrite length_replicate. }
  assert (Hh : h <= Z.of_nat (length m1)).
  { unfold m1. destruct (Z.ltb_spec (Z.of_nat (length (GridMap._map g))) h); [|done].
    rewrite length_app, length_replicate. lia. }
  destruct (Z.ltb_spec (Z.of_nat cw) w) as [Hlt|Hge].
  - exists (Z.to_nat w). split_and!; [|lia|by rewrite length_map].
    apply Forall_map. eapply Forall_impl; [exact H1|].
    intros row Hrow. simpl. rewrite length_app, length_replicate, Hrow. lia.
  - exists cw. by split_and!.
Qed.

Lemma ensure_size_uniform (g : GridMap.t) (w h : Z) :
  GridMap.uniform g -> GridMap.uniform (GridMap._ensure_size g w h).
Proof.
  intros Hu. apply uniform_rows_of_width.
  destruct (ensure_size_rows g w h Hu) as (n & Hn & _). by exists n.
Qed.

(** On a uniform grid a write at non-negative coordinates does not
    raise, and [get_item] reads it back. *)
Lemma set_item_get_item (g : GridMap.t) (vx vy : Z) (c : pystr) :
  GridMap.uniform g -> 0 <= vx -> 0 <= vy ->
  exists g', GridMap.set_item g vx vy c = (Ok (), g') /\
             GridMap.get_item g' vx vy = c /\ GridMap.uniform g'.
Proof.
  intros Hu Hx Hy. unfold GridMap.set_item.
  rewrite (proj2 (Z.ltb_ge vx 0)), (proj2 (Z.ltb_ge vy 0)) by lia. cbn [orb].
  destruct (ensure_size_rows g (vx + 1) (vy + 1) Hu) as (n & Hn & Hw & Hh).
  set (g1 := GridMap._ensure_size g (vx + 1) (vy + 1)) in *.
  destruct (lookup_lt_is_Some_2 (GridMap._map g1) (Z.to_nat vy)) as [row Hrow]; [lia|].
  pose proof (Forall_lookup_1 _ _ _ _ Hn Hrow) as Hlen. simpl in Hlen.
  rewrite (setitem2_in_range (GridMap._map g1) row vy vx c Hy Hx Hrow) by lia.
  eexists. split; [done|]. split.
  - unfold GridMap.get_item. cbn [GridMap._map]. rewrite length_insert.
    destruct (Z.leb_spec 0 vy), (Z.ltb_spec vy (Z.of_nat (length (GridMap._map g1))));
      try lia. cbn [andb].
    rewrite list_lookup_insert_eq by lia. cbv [default from_option id]. rewrite length_insert.
    destruct (Z.leb_spec 0 vx), (Z.ltb_spec vx (Z.of_nat (length row))); try lia.
    cbn [andb]. rewrite list_lookup_insert_eq; [done|unfold pystr in *; lia].
  - apply uniform_rows_of_width. exists n. cbn [GridMap._map].
    apply Forall_insert; [done|]. by rewrite length_insert.
Qed.

Lemma set_item_uniform (g : GridMap.t) (vx vy : Z) (c : pystr) :
  GridMap.uniform g -> GridMap.uniform (GridMap.set_item g vx vy c).2.
Proof.
  intros Hu. unfold GridMap.set_item.
  destruct ((vx <? 0) || (vy <? 0)); [done|].
  pose proof (ensure_size_uniform g (vx + 1) (vy + 1) Hu) as Hu1.
  destruct (GridMap.setitem2 _ _ _ _) as [m|] eqn:Em; [|done].
  apply uniform_rows_of_width in Hu1 as [n Hn].
  apply uniform_rows_of_width. exists n.
  by apply (setitem2_rows_of_width _ _ _ _ _ _ Em).
Qed.

Lemma foldl_preserves {A B} (P : A -> Prop) (f : A -> B -> A) (l : list B) (a : A) :
  (forall a b, P a -> P (f a b)) -> P a -> P (foldl f a l).
Proof. intros Hf. revert a. induction l as [|b l IH]; simpl; auto. Qed.

Lemma of_lines_uniform (lines : list pystr) : GridMap.uniform (GridMap.of_lines lines).
Proof.
  apply uniform_rows_of_width.
  exists (foldr Nat.max 0%nat (map length (map rstrip_nl lines))).
  unfold GridMap.of_lines. cbn [GridMap._map].
  apply (foldl_preserves (rows_of_width _)).
  - intros m [r row] Hm. unfold GridMap.fill_row. cbn [fst snd].
    apply (foldl_preserves (rows_of_width _)); [|done].
    intros m' [c ch] Hm'. cbn [fst snd].
    apply Forall_alter; [done|]. intros row' _ <-. by rewrite length_insert.
  - apply Forall_replicate. by rewrite length_replicate.
Qed.

Lemma init_uniform (w : World) (file content : option pystr) (g : GridMap.t) :
  GridMap.init w file content = Ok g -> GridMap.uniform g.
Proof.
  unfold GridMap.init. intros H.
  repeat case_match; simplify_eq; apply of_lines_uniform.
Qed.

Lemma merge_grid_uniform (w : World) (g : GridMap.t) (file : pystr) (vx vy : Z) :
  GridMap.uniform g -> GridMap.uniform (GridMap.merge_grid w g file vx vy).2.
Proof.
  intros Hu. unfold GridMap.merge_grid.
  destruct (GridMap.init w (Some file) None) as [other|e]; [|done].
  set (g1 := GridMap._ensure_size g _ _).
  assert (Hu1 : GridMap.uniform g1) by by apply ensure_size_uniform.
  apply uniform_rows_of_width in Hu1 as [n Hn].
  set (cells := _ ≫= _). 
  assert (Hf : rows_of_width n
                 (foldl (GridMap.merge_cell (GridMap.get_map other) vx vy)
                        (None, GridMap._map g1) cells).2).
  { apply (foldl_preserves (fun acc => rows_of_width n acc.2)); [|done].
    intros [e m] rc Hm. unfold GridMap.merge_cell. cbn [snd] in Hm.
    repeat case_match; simplify_eq; cbn [snd]; try done.
    by eapply setitem2_rows_of_width. }
  destruct (foldl _ _ _) as [e m]. apply uniform_rows_of_width. by exists n.
Qed.

(** ** The program grid of a reachable interpreter is uniform *)

Lemma handlers_grid_ok :
  Forall (fun kv : pystr * (World -> M retval) =>
            forall w s, grid_ok s -> grid_ok (kv.2 w s).2) ops.
Proof.
  unfold ops.
  repeat (apply Forall_cons; split); [..|by apply Forall_nil];
    intros w s Hg; cbn [snd]; unfold_handlers.
  all: repeat case_match; simplify_eq; cbn [snd]; try done.
  all: unfold grid_ok in *; simpl in *; try done.
  all: rename select (program s = Some _) into Hp; rewrite Hp in Hg.
  all: try by apply merge_grid_uniform.
  all: match goal with
       | Hs : GridMap.set_item ?g ?vx ?vy ?c = _ |- _ =>
         pose proof (set_item_uniform g vx vy c Hg) as Hu; by rewrite Hs in Hu
       end.
Qed.

Lemma dispatch_grid_ok (w : World) (char : pystr) (s : t) :
  grid_ok s -> grid_ok (dispatch w char s).2.
Proof.
  intros Hg.
  destruct (dispatch_cases w char s) as [H|[[n H]|[H|(h & Hin & H)]]];
    rewrite H; try done.
  by apply (in_ops _ _ handlers_grid_ok Hin).
Qed.

Lemma process_char_grid_ok (w : World) (char : pystr) (s : t) :
  grid_ok s -> grid_ok (final (process_char w char s)).
Proof.
  intros Hg. unfold process_char.
  destruct (string_mode s); [case_decide; [done|by destruct (ord char)]|].
  destruct (ignore_mode s); [by case_match|].
  pose proof (dispatch_grid_ok w char s Hg) as Hd.
  by destruct (dispatch w char s) as [[[| |]|e] s'].
Qed.

Lemma method_call_grid_ok (s s' : t) : method_call s s' -> grid_ok s -> grid_ok s'.
Proof.
  destruct 1 as [w code s|w file s|s|data p s|w s]; intros Hg; try done.
  - unfold load_code. destruct (GridMap.init _ _ _) eqn:E; [|done].
    by apply init_uniform in E.
  - unfold load_program. destruct (GridMap.init _ _ _) eqn:E; [|done].
    by apply init_uniform in E.
  - unfold step. destruct (program s); [|done]. by apply process_char_grid_ok.
Qed.

Lemma reachable_grid_ok (s : t) : reachable s -> grid_ok s.
Proof.
  intros (inp & cb & Hr). revert s Hr. apply rtc_ind_r; [done|].
  intros s s' _ Hc IH. by eapply method_call_grid_ok.
Qed.

(** ** Self-modification: [p] then [g] *)

(** C6: in a reachable interpreter in normal mode, [p] with y on top,
    then x, then val (coordinates not negative, val a code point, so
    that [chr(val)] is written) stores the character at (x, y); [g]
    executed next with the same y and x on the stack pushes val. *)
Theorem grid_put_then_get (w w' : World) (s : t) (g : GridMap.t)
    (rest : list Z) (vx vy val : Z) :
  reachable s -> string_mode s = false -> ignore_mode s = false ->
  program s = Some g ->
  0 <= vx -> 0 <= vy -> 0 <= val < 1114112 ->
  stack s = rest ++ [vx; vy; val; vx; vy] ->
  exists s1 s2 g1,
    process_char w (lit "p") s = Returned true s1 /\
    program s1 = Some g1 /\ GridMap.get_item g1 vx vy = [val] /\
    stack s1 = rest ++ [vx; vy] /\
    process_char w' (lit "g") s1 = Returned true s2 /\
    stack s2 = rest ++ [val].
Proof.
  intros Hr Hs Hi Hg Hx Hy Hval Hst.
  pose proof (reachable_grid_ok s Hr) as Hu. unfold grid_ok in Hu. rewrite Hg in Hu.
  destruct (set_item_get_item g vx vy [val] Hu Hx Hy) as (g1 & Hset & Hget & _).
  set (s0 := set_program (Some g1) (set_stack (rest ++ [vx; vy]) s)).
  assert (Hp : dispatch w (lit "p") s = (Ok RNone, s0)).
  { rewrite (dispatch_handler w _ op_grid_put) by done.
    unfold op_grid_put. rewrite guard_len_enough
      by (rewrite Hst, length_app; simpl; lia).
    unfold bind at 1.
    rewrite (stack_pop_snoc s (rest ++ [vx; vy; val; vx]) vy)
      by (by rewrite Hst, <- app_assoc).
    rewrite (pop2_run _ _ (rest ++ [vx; vy]) val vx) by (by rewrite <- app_assoc).
    unfold bind, the_program, of_sum, chr. cbn [program set_stack].
    rewrite Hg.
    rewrite (proj2 (Z.leb_le 0 val)), (proj2 (Z.ltb_lt val 1114112)) by lia.
    cbn [andb ret]. rewrite Hset. by destruct s. }
  assert (Hq : dispatch w' (lit "g") (move s0)
               = (Ok RNone, set_stack (rest ++ [val]) (move s0))).
  { rewrite (dispatch_handler w' _ op_grid_get) by done.
    unfold op_grid_get. rewrite guard_len_enough
      by (cbn [stack move set_xy s0 set_program set_stack]; rewrite length_app; simpl; lia).
    rewrite (pop2_run _ _ rest vx vy) by done.
    unfold bind, the_program. cbn [program move set_xy s0 set_program set_stack].
    rewrite Hget. by destruct s. }
  exists (move s0), (set_stack (rest ++ [val]) (move (move s0))), g1.
  split_and!; try done.
  - by rewrite process_char_normal, Hp.
  - rewrite process_char_normal, Hq by done. by destruct s.
Qed.

Lemma grid_put_then_get_witness :
  stack put_get_demo = [0; 0; 65; 0; 0] /\
  exists s1 s2 g1,
    process_char demo_world (lit "p") put_get_demo = Returned true s1 /\
    program s1 = Some g1 /\ GridMap.get_item g1 0 0 = [65] /\
    stack s1 = [0; 0] /\
    process_char demo_world (lit "g") s1 = Returned true s2 /\
    stack s2 = [65].
Proof.
  split; [reflexivity|].
  apply (grid_put_then_get demo_world demo_world put_get_demo
           (GridMap.of_lines [put_get_src]) [] 0 0 65);
    try reflexivity; try lia.
  unfold put_get_demo. do 7 apply reachable_step.
  apply reachable_load_code, reachable_init.
Defined.

(** Run from its source, the same program reads back what it wrote. *)
Example put_get_run :
  exists s', run 0 (fun _ => demo_world) 9
                 (final (load_code demo_world put_get_src (init None PyCallable)))
             = Some (Returned true s') /\ stack s' = [65].
Proof. eexists. split; [vm_compute; reflexivity|reflexivity]. Qed.

(** * Further properties of the handlers *)

(** ** Tools *)

Lemma pop_snoc2 {A} (l : list A) (a b : A) : pop (l ++ [a; b]) = Some (b, l ++ [a]).
Proof. change (l ++ [a; b]) with (l ++ [a] ++ [b]). by rewrite app_assoc, pop_snoc. Qed.

Lemma stack_cases2 {A} (l : list A) :
  l = [] \/ (exists a, l = [a]) \/ exists rest a b, l = rest ++ [a; b].
Proof.
  destruct l as [|b l _] using rev_ind; [by left|].
  destruct l as [|a l _] using rev_ind; [right; left; by exists b|].
  right; right. exists l, a, b. by rewrite <- app_assoc.
Qed.

Lemma set_stack_id (s : t) : set_stack (stack s) s = s.
Proof. by destruct s. Qed.

(** A cell that is a key of the table, in normal mode: the step is the
    handler, followed by the move unless it jumped, halted or raised. *)
Lemma process_char_handler (w : World) (char : pystr) (h : World -> M retval) (s : t) :
  string_mode s = false -> ignore_mode s = false ->
  truthy char = true -> isdigit w char = false -> dict_get ops char = Some h ->
  process_char w char s =
    match h w s with
    | (Ok RFalse, s') => Returned false s'
    | (Ok RJumped, s') => Returned true s'
    | (Ok RNone, s') => Returned true (move s')
    | (Err _, s') => Returned false s'
    end.
Proof.
  intros Hs Hi Ht Hd Ho.
  by rewrite process_char_normal, (dispatch_handler w char h) by done.
Qed.

Lemma if_stack_empty (body : M retval) (s : t) :
  stack s = [] -> if_stack body s = (Ok RNone, s).
Proof. intros H. unfold if_stack, bind, stack_len, gets. by rewrite H. Qed.

Lemma if_stack_nonempty (body : M retval) (s : t) (l : list Z) (v : Z) :
  stack s = l ++ [v] -> if_stack body s = body s.
Proof.
  intros H. unfold if_stack, bind, stack_len, gets.
  rewrite H, length_app. simpl.
  by rewrite (proj2 (Z.ltb_lt 0 _)) by lia.
Qed.

(** What each stack handler does on a stack whose top is known. *)
Lemma op_swap_run (w : World) (s : t) (rest : list Z) (a b : Z) :
  stack s = rest ++ [a; b] -> op_swap w s = (Ok RNone, set_stack (rest ++ [b; a]) s).
Proof.
  intros H. unfold op_swap. rewrite guard_len_enough by eauto using two_on_stack.
  rewrite (pop2_run _ s rest a b) by done. by destruct s.
Qed.

Lemma op_swap_short (w : World) (s : t) :
  (length (stack s) < 2)%nat -> op_swap w s = (Ok RNone, s).
Proof. intros H. unfold op_swap. apply guard_len_short. lia. Qed.

(** ** Stack manipulation composes *)

(** X1: on a stack [rest ++ [a; b]] the cell [S] exchanges [a] and [b];
    and whatever the stack, two [S] in a row leave everything as it was
    but for the two moves of the IP. *)
Theorem swap_twice (w w' : World) (s : t) :
  string_mode s = false -> ignore_mode s = false ->
  (forall rest a b, stack s = rest ++ [a; b] ->
     process_char w (lit "S") s = Returned true (move (set_stack (rest ++ [b; a]) s))) /\
  feed w [lit "S"; lit "S"] s = Some (move (move s)).
Proof.
  intros Hs Hi. split.
  - intros rest a b H.
    by rewrite (process_char_handler w _ op_swap), (op_swap_run w s rest a b) by done.
  - unfold feed.
    destruct (stack_cases2 (stack s)) as [H|[[a H]|(rest & a & b & H)]].
    + rewrite (process_char_handler w _ op_swap), op_swap_short
        by (done || (rewrite H; simpl; lia)).
      by rewrite (process_char_handler w _ op_swap), op_swap_short
        by (done || (cbn [stack move set_xy]; rewrite H; simpl; lia)).
    + rewrite (process_char_handler w _ op_swap), op_swap_short
        by (done || (rewrite H; simpl; lia)).
      by rewrite (process_char_handler w _ op_swap), op_swap_short
        by (done || (cbn [stack move set_xy]; rewrite H; simpl; lia)).
    + rewrite (process_char_handler w _ op_swap), (op_swap_run w s rest a b) by done.
      rewrite (process_char_handler w _ op_swap),
        (op_swap_run w _ rest b a) by done.
      destruct s; simpl in *; by subst.
Qed.

Lemma swap_twice_witness :
  process_char demo_world (lit "S") stack123
    = Returned true (move (set_stack [1; 3; 2] stack123)) /\
  feed demo_world [lit "S"; lit "S"] stack123 = Some (move (move stack123)).
Proof.
  destruct (swap_twice demo_world demo_world stack123 eq_refl eq_refl) as [H1 H2].
  split; [exact (H1 [1] 2 3 eq_refl)|exact H2].
Defined.

Lemma op_rotate_left_run (w : World) (s : t) (l : list Z) (v : Z) :
  stack s = l ++ [v] -> l <> [] ->
  op_rotate_left w s = (Ok RNone, set_stack (v :: l) s).
Proof.
  intros H Hl. unfold op_rotate_left, bind, stack_len, gets.
  rewrite H, length_app. simpl.
  rewrite (proj2 (Z.ltb_lt 1 _)) by (destruct l; [done|simpl; lia]).
  rewrite (stack_pop_snoc s l v H). by destruct s.
Qed.

Lemma op_rotate_right_run (w : World) (s : t) (l : list Z) (v : Z) :
  stack s = v :: l -> l <> [] ->
  op_rotate_right w s = (Ok RNone, set_stack (l ++ [v]) s).
Proof.
  intros H Hl. unfold op_rotate_right, bind, stack_len, gets.
  rewrite H. simpl length.
  rewrite (proj2 (Z.ltb_lt 1 _)) by (destruct l; [done|simpl; lia]).
  simpl. rewrite H. by destruct s.
Qed.

Lemma op_rotate_short (w : World) (s : t) :
  (length (stack s) < 2)%nat ->
  op_rotate_left w s = (Ok RNone, s) /\ op_rotate_right w s = (Ok RNone, s).
Proof.
  intros H. unfold op_rotate_left, op_rotate_right, bind, stack_len, gets.
  by rewrite (proj2 (Z.ltb_ge 1 _)) by lia.
Qed.

(** X2: [{] takes the top of the stack to the bottom, [}] the bottom to
    the top; each undoes the other, whatever the stack. *)
Theorem rotate_inverse (w : World) (s : t) :
  string_mode s = false -> ignore_mode s = false ->
  (forall l v, stack s = l ++ [v] -> l <> [] ->
     process_char w (lit "{") s = Returned true (move (set_stack (v :: l) s))) /\
  (forall l v, stack s = v :: l -> l <> [] ->
     process_char w (lit "}") s = Returned true (move (set_stack (l ++ [v]) s))) /\
  feed w [lit "{"; lit "}"] s = Some (move (move s)) /\
  feed w [lit "}"; lit "{"] s = Some (move (move s)).
Proof.
  intros Hs Hi.
  assert (Hshort : forall s0 : t, string_mode s0 = false -> ignore_mode s0 = false ->
            (length (stack s0) < 2)%nat ->
            process_char w (lit "{") s0 = Returned true (move s0) /\
            process_char w (lit "}") s0 = Returned true (move s0)).
  { intros s0 Hs0 Hi0 Hl. destruct (op_rotate_short w s0 Hl) as [H1 H2].
    by rewrite (process_char_handler w _ op_rotate_left),
               (process_char_handler w _ op_rotate_right), H1, H2 by done. }
  assert (Hl : forall l v, stack s = l ++ [v] -> l <> [] ->
     process_char w (lit "{") s = Returned true (move (set_stack (v :: l) s))).
  { intros l v H Hne.
    by rewrite (process_char_handler w _ op_rotate_left),
               (op_rotate_left_run w s l v) by done. }
  assert (Hr : forall l v, stack s = v :: l -> l <> [] ->
     process_char w (lit "}") s = Returned true (move (set_stack (l ++ [v]) s))).
  { intros l v H Hne.
    by rewrite (process_char_handler w _ op_rotate_right),
               (op_rotate_right_run w s l v) by done. }
  split_and!; [done|done|..]; unfold feed.
  - destruct (stack_cases2 (stack s)) as [H|[[a H]|(rest & a & b & H)]].
    + destruct (Hshort s Hs Hi) as [H1 _]; [by rewrite H; simpl; lia|]. rewrite H1.
      destruct (Hshort (move s) Hs Hi) as [_ H2];
        [by cbn [stack move set_xy]; rewrite H; simpl; lia|]. by rewrite H2.
    + destruct (Hshort s Hs Hi) as [H1 _]; [by rewrite H; simpl; lia|]. rewrite H1.
      destruct (Hshort (move s) Hs Hi) as [_ H2];
        [by cbn [stack move set_xy]; rewrite H; simpl; lia|]. by rewrite H2.
    + rewrite (Hl (rest ++ [a]) b) by (by rewrite H, <- ?app_assoc || by destruct rest).
      rewrite (process_char_handler w _ op_rotate_right),
        (op_rotate_right_run w _ (rest ++ [a]) b) by (done || by destruct rest).
      destruct s; simpl in *; subst. by rewrite <- app_assoc.
  - destruct (stack s) as [|v [|v' l]] eqn:H.
    + destruct (Hshort s Hs Hi) as [_ H1]; [by rewrite H; simpl; lia|]. rewrite H1.
      destruct (Hshort (move s) Hs Hi) as [H2 _];
        [by cbn [stack move set_xy]; rewrite H; simpl; lia|]. by rewrite H2.
    + destruct (Hshort s Hs Hi) as [_ H1]; [by rewrite H; simpl; lia|]. rewrite H1.
      destruct (Hshort (move s) Hs Hi) as [H2 _];
        [by cbn [stack move set_xy]; rewrite H; simpl; lia|]. by rewrite H2.
    + rewrite (Hr (v' :: l) v) by done.
      rewrite (process_char_handler w _ op_rotate_left),
        (op_rotate_left_run w _ (v' :: l) v) by done.
      destruct s; simpl in *; by subst.
Qed.

Lemma rotate_inverse_witness :
  process_char demo_world (lit "{") stack123
    = Returned true (move (set_stack [3; 1; 2] stack123)) /\
  process_char demo_world (lit "}") stack123
    = Returned true (move (set_stack [2; 3; 1] stack123)) /\
  feed demo_world [lit "{"; lit "}"] stack123 = Some (move (move stack123)).
Proof.
  destruct (rotate_inverse demo_world stack123 eq_refl eq_refl) as (H1 & H2 & H3 & _).
  split_and!; [exact (H1 [1; 2] 3 eq_refl ltac:(done))
              |exact (H2 [2; 3] 1 eq_refl ltac:(done))|exact H3].
Defined.

(** X3: [D] moves the top of the main stack to the auxiliary stack and
    [U] moves it back: with a non-empty main stack [D] then [U], and
    with a non-empty auxiliary stack [U] then [D], only move the IP. *)
Theorem aux_round_trip (w : World) (s : t) :
  string_mode s = false -> ignore_mode s = false ->
  (forall l v, stack s = l ++ [v] ->
     process_char w (lit "D") s
       = Returned true (move (set_addition_stack (addition_stack s ++ [v])
                                (set_stack l s))) /\
     feed w [lit "D"; lit "U"] s = Some (move (move s))) /\
  (forall l v, addition_stack s = l ++ [v] ->
     process_char w (lit "U") s
       = Returned true (move (set_stack (stack s ++ [v])
                                (set_addition_stack l s))) /\
     feed w [lit "U"; lit "D"] s = Some (move (move s))).
Proof.
  intros Hs Hi.
  assert (HD : forall (s0 : t) l v, string_mode s0 = false -> ignore_mode s0 = false ->
            stack s0 = l ++ [v] ->
            process_char w (lit "D") s0
            = Returned true (move (set_addition_stack (addition_stack s0 ++ [v])
                                     (set_stack l s0)))).
  { intros s0 l v Hs0 Hi0 H.
    rewrite (process_char_handler w _ op_move_to_aux) by done.
    unfold op_move_to_aux. rewrite (if_stack_nonempty _ s0 l v H).
    unfold bind at 1. rewrite (stack_pop_snoc s0 l v H). by destruct s0. }
  assert (HU : forall (s0 : t) l v, string_mode s0 = false -> ignore_mode s0 = false ->
            addition_stack s0 = l ++ [v] ->
            process_char w (lit "U") s0
            = Returned true (move (set_stack (stack s0 ++ [v])
                                     (set_addition_stack l s0)))).
  { intros s0 l v Hs0 Hi0 H.
    rewrite (process_char_handler w _ op_move_from_aux) by done.
    unfold op_move_from_aux. rewrite H, pop_snoc.
    destruct l; by destruct s0. }
  split.
  - intros l v H. split; [by apply HD|]. unfold feed.
    rewrite (HD s l v) by done.
    rewrite (HU _ (addition_stack s) v) by done.
    destruct s; simpl in *; by subst.
  - intros l v H. split; [by apply HU|]. unfold feed.
    rewrite (HU s l v) by done.
    rewrite (HD _ (stack s) v) by done.
    destruct s; simpl in *; by subst.
Qed.

Lemma aux_round_trip_witness :
  feed demo_world [lit "D"; lit "U"] stack123 = Some (move (move stack123)) /\
  feed demo_world [lit "U"; lit "D"] stack123 = Some (move (move stack123)) /\
  process_char demo_world (lit "D") stack123
    = Returned true (move (set_addition_stack [7; 3] (set_stack [1; 2] stack123))).
Proof.
  destruct (aux_round_trip demo_world stack123 eq_refl eq_refl) as [H1 H2].
  destruct (H1 [1; 2] 3 eq_refl) as [H1a H1b].
  destruct (H2 [] 7 eq_refl) as [_ H2b].
  split_and!; [exact H1b|exact H2b|exact H1a].
Defined.

(** X4: [~] replaces the top by its bitwise complement [-v - 1]; two in
    a row restore the stack, whatever it holds. *)
Theorem not_twice (w : World) (s : t) :
  string_mode s = false -> ignore_mode s = false ->
  (forall l v, stack s = l ++ [v] ->
     process_char w (lit "~") s = Returned true (move (set_stack (l ++ [- v - 1]) s))) /\
  feed w [lit "~"; lit "~"] s = Some (move (move s)).
Proof.
  intros Hs Hi.
  assert (Hn : forall (s0 : t) l v, string_mode s0 = false -> ignore_mode s0 = false ->
            stack s0 = l ++ [v] ->
            process_char w (lit "~") s0
            = Returned true (move (set_stack (l ++ [- v - 1]) s0))).
  { intros s0 l v Hs0 Hi0 H.
    rewrite (process_char_handler w _ op_not) by done.
    unfold op_not, bind at 1, stack_len, gets.
    rewrite H, length_app. cbn [length].
    rewrite (proj2 (Z.eqb_neq _ 0)) by lia.
    unfold bind at 1. rewrite (stack_pop_snoc s0 l v H).
    replace (Z.lnot v) with (- v - 1) by (unfold Z.lnot; lia). by destruct s0. }
  split; [intros l v H; by apply Hn|].
  unfold feed. destruct (stack s) as [|v l _] eqn:H using rev_ind.
  - assert (He : forall s0 : t, string_mode s0 = false -> ignore_mode s0 = false ->
              stack s0 = [] -> process_char w (lit "~") s0 = Returned true (move s0)).
    { intros s0 Hs0 Hi0 H0. rewrite (process_char_handler w _ op_not) by done.
      unfold op_not, bind, stack_len, gets. by rewrite H0. }
    by rewrite (He s), (He (move s)) by done.
  - rewrite (Hn s l v) by done.
    rewrite (Hn _ l (- v - 1)) by done.
    replace (- (- v - 1) - 1) with v by lia.
    destruct s; simpl in *; by subst.
Qed.

Lemma not_twice_witness :
  process_char demo_world (lit "~") stack123
    = Returned true (move (set_stack [1; 2; -4] stack123)) /\
  feed demo_world [lit "~"; lit "~"] stack123 = Some (move (move stack123)).
Proof.
  destruct (not_twice demo_world stack123 eq_refl eq_refl) as [H1 H2].
  split; [exact (H1 [1; 2] 3 eq_refl)|exact H2].
Defined.

(** A binary handler of the table, on a stack [rest ++ [a; b]]. *)
Lemma binop_run (f : Z -> Z -> Z) (s : t) (rest : list Z) (a b : Z) :
  stack s = rest ++ [a; b] ->
  guard_len 2 (vb <- stack_pop;; va <- stack_pop;; stack_append (f vb va);; ret RNone) s
  = (Ok RNone, set_stack (rest ++ [f b a]) s).
Proof.
  intros H. rewrite guard_len_enough by eauto using two_on_stack.
  rewrite (pop2_run _ s rest a b) by done. by destruct s.
Qed.

(** X5: the binary operators take the element below the top as their
    left operand and the top as their right operand: on [rest ++ [a; b]]
    they leave [rest] followed by a+b, a-b, a*b, a&b, a|b, a^b, and 1
    or 0 for a = b, a < b, a > b. *)
Theorem binary_operators (w : World) (s : t) (rest : list Z) (a b : Z) :
  string_mode s = false -> ignore_mode s = false -> stack s = rest ++ [a; b] ->
  process_char w (lit "+") s
    = Returned true (move (set_stack (rest ++ [a + b]) s)) /\
  process_char w (lit "-") s
    = Returned true (move (set_stack (rest ++ [a - b]) s)) /\
  process_char w (lit "*") s
    = Returned true (move (set_stack (rest ++ [a * b]) s)) /\
  process_char w (lit "&") s
    = Returned true (move (set_stack (rest ++ [Z.land a b]) s)) /\
  process_char w (lit "o") s
    = Returned true (move (set_stack (rest ++ [Z.lor a b]) s)) /\
  process_char w (lit "x") s
    = Returned true (move (set_stack (rest ++ [Z.lxor a b]) s)) /\
  process_char w (lit "=") s
    = Returned true (move (set_stack (rest ++ [if decide (a = b) then 1 else 0]) s)) /\
  process_char w (lit "(") s
    = Returned true (move (set_stack (rest ++ [if decide (a < b) then 1 else 0]) s)) /\
  process_char w (lit ")") s
    = Returned true (move (set_stack (rest ++ [if decide (a > b) then 1 else 0]) s)).
Proof.
  intros Hs Hi H.
  split_and!.
  - rewrite (process_char_handler w _ op_add) by done.
    unfold op_add. rewrite (binop_run (fun vb va => vb + va) s rest a b H).
    by rewrite (Z.add_comm b a).
  - rewrite (process_char_handler w _ op_sub) by done.
    unfold op_sub. by rewrite (binop_run (fun vb va => va - vb) s rest a b H).
  - rewrite (process_char_handler w _ op_mul) by done.
    unfold op_mul. rewrite (binop_run (fun vb va => vb * va) s rest a b H).
    by rewrite (Z.mul_comm b a).
  - rewrite (process_char_handler w _ op_and) by done.
    unfold op_and. rewrite (binop_run (fun vb va => Z.land vb va) s rest a b H).
    by rewrite (Z.land_comm b a).
  - rewrite (process_char_handler w _ op_or) by done.
    unfold op_or. rewrite (binop_run (fun vb va => Z.lor vb va) s rest a b H).
    by rewrite (Z.lor_comm b a).
  - rewrite (process_char_handler w _ op_xor) by done.
    unfold op_xor. rewrite (binop_run (fun vb va => Z.lxor vb va) s rest a b H).
    by rewrite (Z.lxor_comm b a).
  - rewrite (process_char_handler w _ op_eq) by done.
    unfold op_eq.
    rewrite (binop_run (fun vb va => if vb =? va then 1 else 0) s rest a b H).
    destruct (Z.eqb_spec b a), (decide (a = b)); try done; congruence.
  - rewrite (process_char_handler w _ op_less) by done.
    unfold op_less.
    rewrite (binop_run (fun vb va => if va <? vb then 1 else 0) s rest a b H).
    destruct (Z.ltb_spec a b), (decide (a < b)); try done; lia.
  - rewrite (process_char_handler w _ op_greater) by done.
    unfold op_greater.
    rewrite (binop_run (fun vb va => if va >? vb then 1 else 0) s rest a b H).
    rewrite Z.gtb_ltb.
    destruct (Z.ltb_spec b a), (decide (a > b)); try done; lia.
Qed.

Lemma binary_operators_witness :
  process_char demo_world (lit "-") stack123
    = Returned true (move (set_stack [1; -1] stack123)) /\
  process_char demo_world (lit "(") stack123
    = Returned true (move (set_stack [1; 1] stack123)).
Proof.
  destruct (binary_operators demo_world stack123 [1] 2 3 eq_refl eq_refl eq_refl)
    as (_ & H2 & _ & _ & _ & _ & _ & H8 & _).
  split; [exact H2|exact H8].
Defined.

(** ** The heap *)

(** X6: [h] pops the address, then the value, and stores; [H] pops an
    address and pushes what is stored there.  Storing and loading at
    once gives the value back; any other address reads as before, and
    an address never stored reads 0 without being added to the heap. *)
Theorem heap_store_load (w : World) (s : t) (rest : list Z) (val addr : Z) :
  string_mode s = false -> ignore_mode s = false ->
  stack s = rest ++ [addr; val; addr] ->
  exists s1 s2,
    process_char w (lit "h") s = Returned true s1 /\
    stack s1 = rest ++ [addr] /\ heap s1 = <[addr := val]> (heap s) /\
    process_char w (lit "H") s1 = Returned true s2 /\
    stack s2 = rest ++ [val] /\ heap s2 = heap s1 /\
    (forall (s' : t) l k, string_mode s' = false -> ignore_mode s' = false ->
       heap s' = heap s1 -> stack s' = l ++ [k] ->
       process_char w (lit "H") s'
       = Returned true (move (set_stack
           (l ++ [if decide (k = addr) then val else default 0 (heap s !! k)]) s'))).
Proof.
  intros Hs Hi H.
  assert (HH : forall (s' : t) l k, string_mode s' = false -> ignore_mode s' = false ->
            stack s' = l ++ [k] ->
            process_char w (lit "H") s'
            = Returned true (move (set_stack (l ++ [default 0 (heap s' !! k)]) s'))).
  { intros s' l k Hs' Hi' Hst.
    rewrite (process_char_handler w _ op_heap_load) by done.
    unfold op_heap_load, bind at 1, stack_len, gets.
    rewrite Hst, length_app. cbn [length].
    rewrite (proj2 (Z.eqb_neq _ 0)) by lia.
    unfold bind at 1. rewrite (stack_pop_snoc s' l k Hst). by destruct s'. }
  set (s1 := move (set_heap (<[addr := val]> (heap s)) (set_stack (rest ++ [addr]) s))).
  assert (H1 : process_char w (lit "h") s = Returned true s1).
  { rewrite (process_char_handler w _ op_heap_store) by done.
    unfold op_heap_store. rewrite guard_len_enough
      by (rewrite H, length_app; simpl; lia).
    rewrite (pop2_run _ s (rest ++ [addr]) val addr) by (by rewrite H, <- app_assoc).
    by destruct s. }
  exists s1, (move (set_stack (rest ++ [default 0 (heap s1 !! addr)]) s1)).
  split_and!; try done.
  - by apply HH.
  - cbn [heap s1 move set_xy set_heap set_stack stack]. by rewrite lookup_insert_eq.
  - intros s' l k Hs' Hi' Hh Hst. rewrite (HH s' l k) by done.
    rewrite Hh. cbn [heap s1 move set_xy set_heap set_stack].
    case_decide as Hk; [subst; by rewrite lookup_insert_eq|].
    by rewrite lookup_insert_ne.
Qed.

Lemma heap_store_load_witness :
  exists s1 s2,
    process_char demo_world (lit "h") (set_stack [7; 42; 7] (init None PyNone))
      = Returned true s1 /\
    heap s1 = {[ 7 := 42 ]} /\
    process_char demo_world (lit "H") s1 = Returned true s2 /\ stack s2 = [42].
Proof.
  destruct (heap_store_load demo_world (set_stack [7; 42; 7] (init None PyNone))
              [] 42 7 eq_refl eq_refl eq_refl)
    as (s1 & s2 & H1 & _ & H3 & H4 & H5 & _).
  exists s1, s2. split_and!; [exact H1|exact H3|exact H4|exact H5].
Defined.

(** ** Call and return *)

(** X7: [R] takes up what [F] left: after [F] at (x, y) heading (dx, dy),
    an [R] executed on the same call stack, wherever the IP is by
    then, puts the IP on (x+dx, y+dy), the cell after the [F], gives
    the call stack back as it was before the [F] and does not move;
    with an empty call stack [R] does nothing but the move. *)
Theorem call_then_return (w w' : World) (s : t) (rest : list Z) (vx vy : Z) :
  string_mode s = false -> ignore_mode s = false -> stack s = rest ++ [vx; vy] ->
  exists s1,
    process_char w (lit "F") s = Returned true s1 /\
    call_stack s1 = call_stack s ++ [(x s + (direction s).1, y s + (direction s).2)] /\
    (forall s', string_mode s' = false -> ignore_mode s' = false ->
       call_stack s' = call_stack s1 ->
       process_char w' (lit "R") s'
       = Returned true (set_xy (x s + (direction s).1) (y s + (direction s).2)
                          (set_call_stack (call_stack s) s'))) /\
    (forall s', string_mode s' = false -> ignore_mode s' = false ->
       call_stack s' = [] -> process_char w' (lit "R") s' = Returned true (move s')).
Proof.
  intros Hs Hi H.
  exists (set_xy vx vy (set_call_stack
            (call_stack s ++ [(x s + (direction s).1, y s + (direction s).2)])
            (set_stack rest s))).
  split_and!.
  - rewrite (process_char_handler w _ op_func_call) by done.
    unfold op_func_call. rewrite guard_len_enough by eauto using two_on_stack.
    by rewrite (pop2_run _ s rest vx vy) by done.
  - done.
  - intros s' Hs' Hi' Hc. rewrite (process_char_handler w' _ op_return) by done.
    unfold op_return. rewrite Hc. cbn [call_stack set_xy set_call_stack].
    rewrite pop_snoc. by destruct (call_stack s).
  - intros s' Hs' Hi' Hc. rewrite (process_char_handler w' _ op_return) by done.
    unfold op_return. by rewrite Hc.
Qed.

Lemma call_then_return_witness :
  exists s1,
    process_char demo_world (lit "F") call_demo = Returned true s1 /\
    call_stack s1 = [(4, 0)] /\
    process_char demo_world (lit "R")
      (set_call_stack [(4, 0)] (set_stack [3; 5] (set_xy 1 1 call_demo)))
    = Returned true (set_xy 4 0 (set_stack [3; 5] (set_xy 1 1 call_demo))).
Proof.
  destruct (call_then_return demo_world demo_world call_demo [3] 0 1
              eq_refl eq_refl eq_refl) as (s1 & H1 & Hc & H2 & _).
  exists s1. split; [exact H1|]. split; [exact Hc|].
  exact (H2 (set_call_stack [(4, 0)] (set_stack [3; 5] (set_xy 1 1 call_demo)))
            eq_refl eq_refl (eq_sym Hc)).
Defined.

(** ** Mirrors *)

Lemma turn_tables (d : Z * Z) :
  d ∈ unit_vectors ->
  dict_get TURN_RIGHT d = Some (rotate_right d) /\
  dict_get TURN_LEFT d = Some (rotate_left d).
Proof.
  unfold unit_vectors. intros H.
  repeat (apply (proj1 (elem_of_cons _ _ _)) in H; destruct H as [->|H]);
    try done. by apply elem_of_nil in H.
Qed.

(** X8: the turn tables are the two quarter turns of the plane.  [/]
    pops a value and turns left on 0, right otherwise; [\] turns the
    other way; the IP then moves in the new direction.  On an empty
    stack both only move the IP. *)
Theorem mirror_turns (w : World) (s : t) :
  string_mode s = false -> ignore_mode s = false -> direction s ∈ unit_vectors ->
  (forall l v, stack s = l ++ [v] ->
     process_char w (lit "/") s
       = Returned true (move (set_direction
           (if decide (v = 0) then rotate_left (direction s)
            else rotate_right (direction s)) (set_stack l s))) /\
     process_char w backslash s
       = Returned true (move (set_direction
           (if decide (v = 0) then rotate_right (direction s)
            else rotate_left (direction s)) (set_stack l s)))) /\
  (stack s = [] ->
     process_char w (lit "/") s = Returned true (move s) /\
     process_char w backslash s = Returned true (move s)) /\
  rotate_left (rotate_right (direction s)) = direction s /\
  rotate_right (rotate_left (direction s)) = direction s /\
  rotate_right (rotate_right (rotate_right (rotate_right (direction s)))) = direction s.
Proof.
  intros Hs Hi Hd. destruct (turn_tables _ Hd) as [HR HL].
  split_and!.
  - intros l v H. split.
    + rewrite (process_char_handler w _ op_mirror_slash) by done.
      unfold op_mirror_slash, bind at 1, stack_len, gets.
      rewrite H, length_app. cbn [length].
      rewrite (proj2 (Z.eqb_neq _ 0)) by lia.
      unfold bind at 1. rewrite (stack_pop_snoc s l v H).
      unfold turn, bind, gets, of_option.
      destruct (Z.eqb_spec v 0), (decide (v = 0)); try done;
        cbn beta; cbn [direction set_stack]; rewrite ?HL, ?HR; by destruct s.
    + rewrite (process_char_handler w _ op_mirror_backslash) by done.
      unfold op_mirror_backslash, bind at 1, stack_len, gets.
      rewrite H, length_app. cbn [length].
      rewrite (proj2 (Z.eqb_neq _ 0)) by lia.
      unfold bind at 1. rewrite (stack_pop_snoc s l v H).
      unfold turn, bind, gets, of_option.
      destruct (Z.eqb_spec v 0), (decide (v = 0)); try done;
        cbn beta; cbn [direction set_stack]; rewrite ?HL, ?HR; by destruct s.
  - intros H. split.
    + rewrite (process_char_handler w _ op_mirror_slash) by done.
      unfold op_mirror_slash, bind, stack_len, gets. by rewrite H.
    + rewrite (process_char_handler w _ op_mirror_backslash) by done.
      unfold op_mirror_backslash, bind, stack_len, gets. by rewrite H.
  - destruct (direction s) as [dx dy]. unfold rotate_left, rotate_right. simpl.
    f_equal; lia.
  - destruct (direction s) as [dx dy]. unfold rotate_left, rotate_right. simpl.
    f_equal; lia.
  - destruct (direction s) as [dx dy]. unfold rotate_right. simpl. f_equal; lia.
Qed.

Lemma mirror_turns_witness :
  process_char demo_world (lit "/") stack123
    = Returned true (move (set_direction (0, 1) (set_stack [1; 2] stack123))) /\
  process_char demo_world backslash stack123
    = Returned true (move (set_direction (0, -1) (set_stack [1; 2] stack123))).
Proof.
  destruct (mirror_turns demo_world stack123 eq_refl eq_refl) as (H1 & _).
  { unfold unit_vectors. simpl. set_solver. }
  exact (H1 [1; 2] 3 eq_refl).
Defined.

(** ** Bridges and ignore mode *)

(** X9: in normal mode [|] sets ignore mode when the IP moves
    horizontally and [_] when it moves vertically, and they do
    nothing otherwise.  In ignore mode every cell is skipped and only
    the IP moves; ignore mode ends on [|], on [_] and also on an empty
    cell (the empty string is [in] every string), and on no other
    one-character cell. *)
Theorem bridge_and_ignore_mode (w : World) (s : t) :
  string_mode s = false ->
  (ignore_mode s = false -> direction s ∈ unit_vectors ->
     process_char w (lit "|") s
       = Returned true (move (if decide ((direction s).2 = 0)
                              then set_ignore_mode true s else s)) /\
     process_char w (lit "_") s
       = Returned true (move (if decide ((direction s).1 = 0)
                              then set_ignore_mode true s else s))) /\
  (ignore_mode s = true ->
     process_char w [] s = Returned true (move (set_ignore_mode false s)) /\
     process_char w (lit "|") s = Returned true (move (set_ignore_mode false s)) /\
     process_char w (lit "_") s = Returned true (move (set_ignore_mode false s)) /\
     (forall c, c <> 124 -> c <> 95 -> process_char w [c] s = Returned true (move s))).
Proof.
  intros Hs. split.
  - intros Hi Hd. unfold unit_vectors in Hd. split.
    + rewrite (process_char_handler w _ op_vertical_mirror) by done.
      unfold op_vertical_mirror, bind, gets.
      repeat (apply (proj1 (elem_of_cons _ _ _)) in Hd; destruct Hd as [->|Hd]);
        try done; try (by apply elem_of_nil in Hd).
    + rewrite (process_char_handler w _ op_horizontal_mirror) by done.
      unfold op_horizontal_mirror, bind, gets.
      repeat (apply (proj1 (elem_of_cons _ _ _)) in Hd; destruct Hd as [->|Hd]);
        try done; try (by apply elem_of_nil in Hd).
  - intros Hi. unfold process_char. rewrite Hs, Hi. split_and!; try done.
    intros c H1 H2. change (lit "|_") with [124; 95]. cbn [str_in is_prefix].
    by rewrite (proj2 (Z.eqb_neq c 124)), (proj2 (Z.eqb_neq c 95)).
Qed.

Lemma bridge_and_ignore_mode_witness :
  process_char demo_world (lit "|") stack123
    = Returned true (move (set_ignore_mode true stack123)) /\
  process_char demo_world (lit "_") stack123 = Returned true (move stack123) /\
  process_char demo_world (lit "@") (set_ignore_mode true stack123)
    = Returned true (move (set_ignore_mode true stack123)) /\
  process_char demo_world [] (set_ignore_mode true stack123)
    = Returned true (move (set_ignore_mode false (set_ignore_mode true stack123))).
Proof.
  destruct (bridge_and_ignore_mode demo_world stack123 eq_refl) as [H1 _].
  destruct (H1 eq_refl) as [Ha Hb]; [unfold unit_vectors; simpl; set_solver|].
  destruct (bridge_and_ignore_mode demo_world (set_ignore_mode true stack123) eq_refl)
    as [_ H2].
  destruct (H2 eq_refl) as (Hc & _ & _ & Hd).
  split_and!; [exact Ha|exact Hb|exact (Hd 64 ltac:(done) ltac:(done))|exact Hc].
Defined.

(** ** Halting and running off the grid *)

(** X10: on [@] in normal mode the step returns False and changes
    nothing, the IP included: [run] returns False at once for every
    positive step count and for 0, however often it is called. *)
Theorem halt_is_stable (ws : nat -> World) (s : t) (g : GridMap.t) :
  string_mode s = false -> ignore_mode s = false ->
  program s = Some g -> GridMap.get_item g (x s) (y s) = lit "@" ->
  step (ws 0%nat) s = Returned false s /\
  (forall fuel steps, 0 < steps -> run fuel ws steps s = Some (Returned false s)) /\
  (forall fuel, run (S fuel) ws 0 s = Some (Returned false s)).
Proof.
  intros Hs Hi Hg Hc.
  assert (Hstep : step (ws 0%nat) s = Returned false s).
  { unfold step. rewrite Hg, Hc.
    by rewrite (process_char_handler _ _ op_exit) by done. }
  split_and!; [done|..].
  - intros fuel steps Hpos. unfold run.
    destruct (Z.ltb_spec steps 0); [lia|]. destruct (Z.ltb_spec 0 steps); [|lia].
    destruct (Z.to_nat steps) as [|n] eqn:E; [lia|]. simpl. by rewrite Hstep.
  - intros fuel. unfold run. simpl. by rewrite Hstep.
Qed.

Lemma halt_is_stable_witness :
  (x halt_demo, y halt_demo) = (1, 0) /\
  run 0 (fun _ => demo_world) 3 halt_demo = Some (Returned false halt_demo) /\
  run 1 (fun _ => demo_world) 0 halt_demo = Some (Returned false halt_demo).
Proof.
  split; [reflexivity|].
  destruct (halt_is_stable (fun _ => demo_world) halt_demo
              (GridMap.of_lines [lit "1@"]) eq_refl eq_refl eq_refl eq_refl)
    as (_ & H2 & H3).
  split; [exact (H2 0%nat 3 eq_refl)|exact (H3 0%nat)].
Defined.

Lemma get_item_beyond (g : GridMap.t) (vx vy : Z) :
  Forall (fun row : list pystr => Z.of_nat (length row) <= vx) (GridMap._map g) ->
  GridMap.get_item g vx vy = [].
Proof.
  intros H. unfold GridMap.get_item.
  destruct ((0 <=? vy) && (vy <? Z.of_nat (length (GridMap._map g)))); [|done].
  destruct (GridMap._map g !! Z.to_nat vy) as [row|] eqn:E; simpl; [|by case_match].
  pose proof (Forall_lookup_1 _ _ _ _ H E) as Hrow. simpl in Hrow.
  destruct (Z.leb_spec 0 vx), (Z.ltb_spec vx (Z.of_nat (length row))); simpl;
    try done; lia.
Qed.

Lemma leaving_empty (g : GridMap.t) (s : t) :
  leaving g s -> GridMap.get_item g (x s) (y s) = [].
Proof.
  intros [[_ H]|[[_ H]|[[_ H]|[_ H]]]].
  - apply get_item_outside. lia.
  - apply get_item_outside. lia.
  - apply get_item_outside. lia.
  - by apply get_item_beyond.
Qed.

Lemma leaving_move (g : GridMap.t) (s : t) : leaving g s -> leaving g (move s).
Proof.
  intros [[Hd H]|[[Hd H]|[[Hd H]|[Hd H]]]]; unfold leaving; simpl; rewrite Hd; simpl.
  - left. split; [done|lia].
  - right; left. split; [done|lia].
  - right; right; left. split; [done|lia].
  - right; right; right. split; [done|].
    eapply Forall_impl; [exact H|]. simpl. intros. lia.
Qed.

Lemma iter_move_position (n : nat) (s : t) :
  direction (Nat.iter n move s) = direction s /\
  x (Nat.iter n move s) = x s + Z.of_nat n * (direction s).1 /\
  y (Nat.iter n move s) = y s + Z.of_nat n * (direction s).2.
Proof.
  induction n as [|n (IHd & IHx & IHy)]; [split_and!; simpl; lia || done|].
  rewrite !Nat.iter_succ. set (sn := Nat.iter n move s) in *.
  unfold move. cbn [direction x y set_xy].
  rewrite IHd, IHx, IHy. split_and!; [done|lia..].
Qed.

(** X11: empty cells do not halt.  Once the IP is outside the grid in
    normal mode and heading away from it, every step only moves it:
    [run(n)] returns True with the IP [n] cells further for every
    positive [n], and [run(0)] never returns. *)
Theorem off_grid_runs_forever (ws : nat -> World) (s : t) (g : GridMap.t) :
  string_mode s = false -> ignore_mode s = false ->
  program s = Some g -> leaving g s ->
  (forall n : nat, (0 < n)%nat ->
     forall fuel, run fuel ws (Z.of_nat n) s = Some (Returned true (Nat.iter n move s))) /\
  (forall n : nat,
     (x (Nat.iter n move s), y (Nat.iter n move s))
     = (x s + Z.of_nat n * (direction s).1, y s + Z.of_nat n * (direction s).2)) /\
  (forall fuel, run fuel ws 0 s = None).
Proof.
  intros Hs Hi Hg Hl.
  assert (Hiter : forall n, Nat.iter (S n) move s = Nat.iter n move (move s)).
  { intros n. induction n as [|n IH]; [done|]. simpl in *. by rewrite IH. }
  assert (Hloop : forall n i s0, string_mode s0 = false -> ignore_mode s0 = false ->
            program s0 = Some g -> leaving g s0 ->
            for_loop ws i n s0 = inl (Nat.iter n move s0)).
  { induction n as [|n IH]; intros i s0 Hs0 Hi0 Hg0 Hl0; [done|].
    cbn [for_loop]. unfold step. rewrite Hg0, (leaving_empty g s0 Hl0).
    rewrite process_char_normal by done. cbn [dispatch truthy negb ret].
    rewrite (IH (S i) (move s0)) by (done || by apply leaving_move).
    clear -n. f_equal. induction n as [|n IH]; [done|]. simpl in *. by rewrite IH. }
  split_and!.
  - intros n Hn fuel. unfold run.
    destruct (Z.ltb_spec (Z.of_nat n) 0); [lia|].
    destruct (Z.ltb_spec 0 (Z.of_nat n)); [|lia].
    by rewrite Nat2Z.id, Hloop.
  - intros n. by destruct (iter_move_position n s) as (_ & -> & ->).
  - intros fuel. unfold run. simpl. rewrite while_loop_for_loop.
    by rewrite Hloop.
Qed.

Lemma off_grid_runs_forever_witness :
  (exists s', run 0 (fun _ => demo_world) 4 off_grid_demo = Some (Returned true s')
              /\ (x s', y s') = (9, 0)) /\
  run 1000 (fun _ => demo_world) 0 off_grid_demo = None.
Proof.
  destruct (off_grid_runs_forever (fun _ => demo_world) off_grid_demo
              (GridMap.of_lines [lit "12+"]) eq_refl eq_refl eq_refl)
    as (H1 & H2 & H3).
  { right; right; right. split; [reflexivity|].
    replace (GridMap._map (GridMap.of_lines [lit "12+"])) with [[[49]; [50]; [43]]]
      by (by vm_compute).
    apply Forall_cons; split; [by vm_compute|by apply Forall_nil]. }
  split; [|exact (H3 1000%nat)].
  eexists. split; [exact (H1 4%nat ltac:(lia) 0%nat)|]. exact (H2 4%nat).
Defined.

(** ** Stepping is compositional *)

Lemma for_loop_app (ws : nat -> World) (n m i : nat) (s : t) :
  for_loop ws i (n + m) s =
    match for_loop ws i n s with
    | inl s1 => for_loop ws (i + n) m s1
    | inr o => inr o
    end.
Proof.
  revert i s. induction n as [|n IH]; intros i s; simpl.
  - by rewrite Nat.add_0_r.
  - destruct (step (ws i) s) as [[|] s'|e s']; try done.
    rewrite IH. by rewrite Nat.add_succ_comm.
Qed.

Lemma for_loop_ext (ws ws' : nat -> World) (n i : nat) (s : t) :
  (forall j, ws j = ws' j) -> for_loop ws i n s = for_loop ws' i n s.
Proof.
  intros H. revert i s. induction n as [|n IH]; intros i s; simpl; [done|].
  rewrite H. destruct (step (ws' i) s) as [[|] s'|e s']; auto.
Qed.

Lemma for_loop_shift (ws : nat -> World) (n i : nat) (s : t) :
  for_loop ws i n s = for_loop (fun j => ws (i + j)%nat) 0 n s.
Proof.
  revert i s ws. induction n as [|n IH]; intros i s ws; simpl; [done|].
  rewrite Nat.add_0_r.
  destruct (step (ws i) s) as [[|] s'|e s']; try done.
  rewrite (IH (S i)), (IH 1%nat). apply for_loop_ext.
  intros j. f_equal. lia.
Qed.

(** X12: [run(a + b)] is [run(a)] followed, when that returns True, by
    [run(b)] on the interpreter it left: stepping one cell at a time,
    as the debugger's timer does, executes what one longer run
    executes. *)
Theorem run_splits (fuel : nat) (ws : nat -> World) (a b : Z) (s : t) :
  0 < a -> 0 < b ->
  run fuel ws (a + b) s =
    match run fuel ws a s with
    | Some (Returned true s1) => run fuel (fun j => ws (Z.to_nat a + j)%nat) b s1
    | r => r
    end.
Proof.
  intros Ha Hb. unfold run.
  destruct (Z.ltb_spec (a + b) 0); [lia|]. destruct (Z.ltb_spec 0 (a + b)); [|lia].
  destruct (Z.ltb_spec a 0); [lia|]. destruct (Z.ltb_spec 0 a); [|lia].
  destruct (Z.ltb_spec b 0); [lia|]. destruct (Z.ltb_spec 0 b); [|lia].
  rewrite Z2Nat.inj_add by lia. rewrite for_loop_app.
  destruct (for_loop ws 0 (Z.to_nat a) s) as [s1|[[|] s1|e s1]] eqn:E; try done.
  - by rewrite (for_loop_shift ws (Z.to_nat b) (0 + Z.to_nat a)).
  - exfalso. apply for_loop_leaves in E as (k & sk & _ & _ & _ & Hn).
    apply Hn. by eexists.
Qed.

Lemma run_splits_witness :
  run 0 (fun _ => demo_world) (2 + 3) add_demo
  = match run 0 (fun _ => demo_world) 2 add_demo with
    | Some (Returned true s1) => run 0 (fun _ => demo_world) 3 s1
    | r => r
    end.
Proof.
  exact (run_splits 0 (fun _ => demo_world) 2 3 add_demo eq_refl eq_refl).
Defined.

(** ** Input *)

(** [op_input] when the buffer is not empty. *)
Lemma op_input_buffer (w : World) (s : t) (c0 : Z) (cs : pystr) :
  input s = Some (c0 :: cs) ->
  op_input w s =
    if input_pointer s <? Z.of_nat (length (c0 :: cs)) then
      match getitem (c0 :: cs) (input_pointer s) with
      | Some ch => (Ok RNone, set_input_pointer (input_pointer s + 1)
                                (set_stack (stack s ++ [ch]) s))
      | None => (Err IndexError, s)
      end
    else (Ok RNone, set_stack (stack s ++ [-1]) s).
Proof.
  intros Hin. unfold op_input, bind, gets. rewrite Hin.
  destruct (input_pointer s <? _); [|by destruct s].
  unfold of_option. destruct (getitem _ _); by destruct s.
Qed.

(** X13: with a non-empty input buffer [I] never calls the callback.  It
    pushes the character under the pointer and advances the pointer;
    at or past the end it pushes -1 and leaves the pointer; a negative
    pointer, which [set_input] accepts, indexes from the end; a pointer
    below minus the length makes the step return False. *)
Theorem input_from_buffer (w : World) (s : t) (c0 : Z) (cs : pystr) :
  string_mode s = false -> ignore_mode s = false -> input s = Some (c0 :: cs) ->
  let data := c0 :: cs in
  let len := Z.of_nat (length data) in
  let p := input_pointer s in
  (0 <= p < len ->
     exists c, data !! Z.to_nat p = Some c /\
       process_char w (lit "I") s
       = Returned true (move (set_input_pointer (p + 1) (set_stack (stack s ++ [c]) s)))) /\
  (len <= p ->
     process_char w (lit "I") s = Returned true (move (set_stack (stack s ++ [-1]) s))) /\
  (- len <= p < 0 ->
     exists c, data !! Z.to_nat (len + p) = Some c /\
       process_char w (lit "I") s
       = Returned true (move (set_input_pointer (p + 1) (set_stack (stack s ++ [c]) s)))) /\
  (p < - len -> process_char w (lit "I") s = Returned false s).
Proof.
  intros Hs Hi Hin data len p.
  rewrite (process_char_handler w _ op_input) by done.
  rewrite (op_input_buffer w s c0 cs Hin). fold data len p.
  split_and!.
  - intros Hp. destruct (lookup_lt_is_Some_2 data (Z.to_nat p)) as [c Hc]; [lia|].
    exists c. split; [done|].
    rewrite (proj2 (Z.ltb_lt p len)) by lia. unfold getitem.
    rewrite (py_index_in_range (length data) p) by lia. cbn [mbind option_bind].
    by rewrite Hc.
  - intros Hp. by rewrite (proj2 (Z.ltb_ge p len)) by lia.
  - intros Hp. destruct (lookup_lt_is_Some_2 data (Z.to_nat (len + p))) as [c Hc]; [lia|].
    exists c. split; [done|].
    rewrite (proj2 (Z.ltb_lt p len)) by lia. unfold getitem, py_index.
    rewrite (proj2 (Z.leb_gt 0 p)) by lia. cbn [andb].
    rewrite (proj2 (Z.leb_le (- Z.of_nat (length data)) p)),
      (proj2 (Z.ltb_lt p 0)) by lia. cbn [andb mbind option_bind].
    fold len. by rewrite Hc.
  - intros Hp. rewrite (proj2 (Z.ltb_lt p len)) by lia. unfold getitem, py_index.
    rewrite (proj2 (Z.leb_gt 0 p)) by lia. cbn [andb].
    by rewrite (proj2 (Z.leb_gt (- Z.of_nat (length data)) p)) by lia.
Qed.

Lemma input_from_buffer_witness :
  process_char demo_world (lit "I") abc_input
    = Returned true (move (set_input_pointer 1 (set_stack [97] abc_input))) /\
  process_char demo_world (lit "I") (set_input_pointer 3 abc_input)
    = Returned true (move (set_stack [-1] (set_input_pointer 3 abc_input))) /\
  process_char demo_world (lit "I") (set_input_pointer (-1) abc_input)
    = Returned true (move (set_input_pointer 0
                             (set_stack [99] (set_input_pointer (-1) abc_input)))) /\
  process_char demo_world (lit "I") (set_input_pointer (-4) abc_input)
    = Returned false (set_input_pointer (-4) abc_input).
Proof.
  destruct (input_from_buffer demo_world abc_input 97 [98; 99] eq_refl eq_refl eq_refl)
    as (H1 & _).
  destruct (input_from_buffer demo_world (set_input_pointer 3 abc_input) 97 [98; 99]
              eq_refl eq_refl eq_refl) as (_ & H2 & _).
  destruct (input_from_buffer demo_world (set_input_pointer (-1) abc_input) 97 [98; 99]
              eq_refl eq_refl eq_refl) as (_ & _ & H3 & _).
  destruct (input_from_buffer demo_world (set_input_pointer (-4) abc_input) 97 [98; 99]
              eq_refl eq_refl eq_refl) as (_ & _ & _ & H4).
  destruct H1 as (c1 & Hc1 & H1); [simpl; lia|]. injection Hc1 as <-.
  destruct H3 as (c3 & Hc3 & H3); [simpl; lia|]. injection Hc3 as <-.
  split_and!; [exact H1|apply H2; simpl; lia|exact H3|apply H4; simpl; lia].
Defined.

(** ** Digits *)

Lemma digit_step (w : World) (s : t) (d : Z) :
  string_mode s = false -> ignore_mode s = false -> 0 <= d <= 9 ->
  process_char w [48 + d] s = Returned true (move (set_stack (stack s ++ [d]) s)).
Proof.
  intros Hs Hi Hd. rewrite process_char_normal by done.
  unfold dispatch, isdigit, int_of_str, isdigit1, int1. cbn [truthy negb forallb foldl andb].
  rewrite (proj2 (Z.ltb_lt (48 + d) 128)) by lia.
  rewrite (proj2 (Z.leb_le 48 (48 + d))), (proj2 (Z.leb_le (48 + d) 57)) by lia.
  cbn [andb mbind option_bind]. unfold bind, of_sum, ret, stack_append, modify.
  replace (0 * 10 + (48 + d - 48)) with d by lia. by destruct s.
Qed.

(** X14: a cell holding an ASCII digit pushes its value.  A character
    beyond ASCII that [str.isdigit] accepts pushes its decimal value
    when [int] gives it one; when [int] rejects it (the superscript
    two is such a character) the [ValueError] is caught and the step
    returns False with the interpreter unchanged. *)
Theorem digit_cells (w : World) (s : t) :
  string_mode s = false -> ignore_mode s = false ->
  (forall d, 0 <= d <= 9 ->
     process_char w [48 + d] s = Returned true (move (set_stack (stack s ++ [d]) s))) /\
  (forall c d, 128 <= c -> unicode_isdigit w c = true -> unicode_decimal w c = Some d ->
     process_char w [c] s = Returned true (move (set_stack (stack s ++ [d]) s))) /\
  (forall c, 128 <= c -> unicode_isdigit w c = true -> unicode_decimal w c = None ->
     process_char w [c] s = Returned false s).
Proof.
  intros Hs Hi. split_and!.
  - intros d Hd. by apply digit_step.
  - intros c d Hc Hdig Hdec. rewrite process_char_normal by done.
    unfold dispatch, isdigit, int_of_str, isdigit1, int1.
    cbn [truthy negb forallb foldl andb].
    rewrite (proj2 (Z.ltb_ge c 128)) by lia. rewrite Hdig, Hdec.
    cbn [andb mbind option_bind]. unfold bind, of_sum, ret, stack_append, modify.
    replace (0 * 10 + d) with d by lia. by destruct s.
  - intros c Hc Hdig Hdec. rewrite process_char_normal by done.
    unfold dispatch, isdigit, int_of_str, isdigit1, int1.
    cbn [truthy negb forallb foldl andb].
    rewrite (proj2 (Z.ltb_ge c 128)) by lia. by rewrite Hdig, Hdec.
Qed.

Lemma digit_cells_witness :
  process_char superscript_world (lit "7") stack123
    = Returned true (move (set_stack [1; 2; 3; 7] stack123)) /\
  process_char superscript_world [178] stack123 = Returned false stack123.
Proof.
  destruct (digit_cells superscript_world stack123 eq_refl eq_refl) as (H1 & _ & H3).
  split; [exact (H1 7 ltac:(lia))|exact (H3 178 ltac:(lia) eq_refl eq_refl)].
Defined.

(** ** Strings on the stack *)

Lemma chr_char_code (c : Z) : char_code c -> chr c = inr [c] /\ (c =? 0) = false.
Proof.
  intros [H1 H2]. unfold chr.
  rewrite (proj2 (Z.leb_le 0 c)), (proj2 (Z.ltb_lt c 1114112)) by lia.
  split; [done|]. apply Z.eqb_neq. lia.
Qed.

Lemma pop_string_loop_run (cs rs : list Z) (acc : pystr) :
  Forall char_code cs ->
  pop_string_loop (cs ++ rs) acc = pop_string_loop rs (acc ++ cs).
Proof.
  intros H. revert acc. induction H as [|c cs Hc _ IH]; intros acc; simpl.
  - by rewrite app_nil_r.
  - destruct (chr_char_code c Hc) as [-> ->].
    rewrite IH. by rewrite <- app_assoc.
Qed.

Lemma pop_string_run (s : t) (bottom cs : list Z) :
  Forall char_code cs -> stack s = bottom ++ [0] ++ reverse cs ->
  _pop_string s = (Ok cs, set_stack bottom s).
Proof.
  intros Hcs H. unfold _pop_string. rewrite H.
  rewrite !reverse_app, reverse_involutive, reverse_singleton, <- !app_assoc.
  rewrite (pop_string_loop_run cs _ [] Hcs).
  cbn [app pop_string_loop Z.eqb].
  by rewrite reverse_involutive.
Qed.

(** X15: [_pop_string] pops down to and including the first 0, or to
    the bottom when there is none, and returns the characters in the
    order popped, the top of the stack first; a value that [chr]
    rejects raises after it and everything above it have been
    popped. *)
Theorem pop_string_to_sentinel (s : t) (bottom cs : list Z) :
  Forall char_code cs ->
  (stack s = bottom ++ [0] ++ reverse cs ->
     _pop_string s = (Ok cs, set_stack bottom s)) /\
  (stack s = reverse cs -> _pop_string s = (Ok cs, set_stack [] s)) /\
  (forall bad, ~ 0 <= bad < 1114112 -> stack s = bottom ++ [bad] ++ reverse cs ->
     exists e, _pop_string s = (Err e, set_stack bottom s)).
Proof.
  intros Hcs. split_and!; [by apply pop_string_run|unfold _pop_string..].
  - intros ->. rewrite reverse_involutive.
    rewrite <- (app_nil_r cs) at 1. by rewrite (pop_string_loop_run cs [] [] Hcs).
  - intros bad Hbad ->.
    rewrite !reverse_app, reverse_involutive, reverse_singleton, <- !app_assoc.
    rewrite (pop_string_loop_run cs _ [] Hcs).
    cbn [app pop_string_loop].
    rewrite (proj2 (Z.eqb_neq bad 0)) by lia. unfold chr.
    destruct ((0 <=? bad) && (bad <? 1114112)) eqn:E.
    { apply andb_true_iff in E as [?%Z.leb_le ?%Z.ltb_lt]. lia. }
    destruct ((-2147483648 <=? bad) && (bad <=? 2147483647));
      cbv beta iota; rewrite reverse_involutive; by eexists.
Qed.

Lemma pop_string_to_sentinel_witness :
  _pop_string (set_stack [5; 0; 98; 97] (init None PyNone))
    = (Ok (lit "ab"), set_stack [5] (init None PyNone)) /\
  _pop_string (set_stack [98; 97] (init None PyNone))
    = (Ok (lit "ab"), set_stack [] (init None PyNone)).
Proof.
  assert (H : Forall char_code (lit "ab")).
  { repeat (apply Forall_cons; split); [by vm_compute..|by apply Forall_nil]. }
  destruct (pop_string_to_sentinel (set_stack [5; 0; 98; 97] (init None PyNone))
              [5] (lit "ab") H) as (H1 & _).
  destruct (pop_string_to_sentinel (set_stack [98; 97] (init None PyNone))
              [] (lit "ab") H) as (_ & H2 & _).
  split; [exact (H1 eq_refl)|exact (H2 eq_refl)].
Defined.

(** In string mode every one-character cell other than the double
    quote is pushed and the IP moves on. *)
Lemma feed_string_mode (w : World) (cs : list Z) (s : t) :
  string_mode s = true -> Forall (fun c => c <> 34) cs ->
  exists s', feed w (map (fun c => [c]) cs) s = Some s' /\
             stack s' = stack s ++ cs /\ string_mode s' = true /\
             ignore_mode s' = ignore_mode s /\ direction s' = direction s /\
             addition_stack s' = addition_stack s /\ heap s' = heap s /\
             program s' = program s /\ output s' = output s /\
             call_stack s' = call_stack s /\
             x s' = x s + Z.of_nat (length cs) * (direction s).1 /\
             y s' = y s + Z.of_nat (length cs) * (direction s).2.
Proof.
  intros Hs Hcs. revert s Hs. induction Hcs as [|c cs Hc _ IH]; intros s Hs.
  - exists s. simpl. rewrite app_nil_r. split_and!; try done; lia.
  - cbn [map feed]. unfold process_char at 1. rewrite Hs.
    case_decide as Hq; [by injection Hq|]. cbn [ord].
    destruct (IH (move (set_stack (stack s ++ [c]) s)) Hs)
      as (s' & Hf & H1 & H2 & H3 & H4 & H5 & H6 & H7 & H8 & H9 & H10 & H11).
    exists s'. rewrite Hf. cbn [length].
    split_and!; try done.
    + rewrite H1. cbn [stack move set_xy set_stack]. by rewrite <- app_assoc.
    + rewrite H10. cbn [x direction move set_xy set_stack]. lia.
    + rewrite H11. cbn [y direction move set_xy set_stack]. lia.
Qed.

(** X16: string mode and [_pop_string] fit together, back to front.  A
    [0], a double quote, the characters [cs] and a closing double quote
    leave 0 and [cs] on the stack, the last character on top, and
    normal mode; [_pop_string] then returns [cs] reversed and leaves
    the stack as it was before the [0]. *)
Theorem string_mode_round_trip (w : World) (cs : list Z) (s : t) :
  string_mode s = false -> ignore_mode s = false ->
  Forall (fun c => char_code c /\ c <> 34) cs ->
  exists s',
    feed w ([lit "0"; quote] ++ map (fun c => [c]) cs ++ [quote]) s = Some s' /\
    stack s' = stack s ++ [0] ++ cs /\
    string_mode s' = false /\ ignore_mode s' = false /\
    _pop_string s' = (Ok (reverse cs), set_stack (stack s) s').
Proof.
  intros Hs Hi Hcs.
  assert (Hq : Forall (fun c => c <> 34) cs) by (eapply Forall_impl; [exact Hcs|simpl; by intros ? [? ?]]).
  assert (Hc : Forall char_code (reverse cs)).
  { apply Forall_reverse. eapply Forall_impl; [exact Hcs|simpl; by intros ? [? ?]]. }
  change (lit "0") with [48 + 0]. cbn [app feed].
  rewrite (digit_step w s 0) by (done || lia).
  set (s1 := move (set_stack (stack s ++ [0]) s)).
  rewrite (process_char_handler w quote op_quote s1) by done.
  cbn [op_quote bind modify ret].
  set (s2 := move (set_string_mode true s1)).
  destruct (feed_string_mode w cs s2 eq_refl Hq)
    as (s3 & Hf & H1 & H2 & H3 & _).
  assert (Hfeed : forall l1 l2 sa sb, feed w l1 sa = Some sb ->
            feed w (l1 ++ l2) sa = feed w l2 sb).
  { induction l1 as [|c l1 IH]; intros l2 sa sb; cbn [app feed]; [by intros [= ->]|].
    destruct (process_char w c sa) as [[|] ?|? ?]; try done. apply IH. }
  exists (move (set_string_mode false s3)). split.
  { etrans; [exact (Hfeed _ [quote] s2 s3 Hf)|]. cbn [feed].
    unfold process_char. rewrite H2. by rewrite decide_True by done. }
  assert (Hst : stack s3 = stack s ++ [0] ++ cs)
    by (rewrite H1; cbn; by rewrite <- app_assoc).
  split_and!; [done|done|simpl; by rewrite H3|].
  rewrite (pop_string_run (move (set_string_mode false s3)) (stack s) (reverse cs) Hc)
    by (cbn [stack move set_xy set_string_mode]; by rewrite Hst, reverse_involutive).
  by destruct s3.
Qed.

Lemma string_mode_round_trip_witness :
  exists s',
    feed demo_world [lit "0"; quote; lit "a"; lit "b"; quote] stack123 = Some s' /\
    stack s' = [1; 2; 3; 0; 97; 98] /\
    _pop_string s' = (Ok (lit "ba"), set_stack [1; 2; 3] s').
Proof.
  destruct (string_mode_round_trip demo_world (lit "ab") stack123 eq_refl eq_refl)
    as (s' & H1 & H2 & _ & _ & H5).
  { repeat (apply Forall_cons; split); [by vm_compute..|by apply Forall_nil]. }
  exists s'. split_and!; [exact H1|exact H2|exact H5].
Defined.

(** ** Reading and writing the grid: the edges *)

(** X17: [g] pops y, then x, and pushes the code point of the cell at
    (x, y), or 0 when that cell is empty; outside the grid (negative
    coordinates, y past the last row) it pushes 0.  It never changes
    the program and never halts the machine on a loaded program whose
    cells hold at most one character. *)
Theorem grid_get_reads (w : World) (s : t) (g : GridMap.t) (rest : list Z) (vx vy : Z) :
  string_mode s = false -> ignore_mode s = false ->
  program s = Some g -> stack s = rest ++ [vx; vy] ->
  (forall c, GridMap.get_item g vx vy = [c] ->
     process_char w (lit "g") s = Returned true (move (set_stack (rest ++ [c]) s))) /\
  (GridMap.get_item g vx vy = [] ->
     process_char w (lit "g") s = Returned true (move (set_stack (rest ++ [0]) s))) /\
  (vx < 0 \/ vy < 0 \/ Z.of_nat (length (GridMap._map g)) <= vy ->
     process_char w (lit "g") s = Returned true (move (set_stack (rest ++ [0]) s))).
Proof.
  intros Hs Hi Hg H.
  assert (Hrun : op_grid_get w s =
            (let val := GridMap.get_item g vx vy in
             v <- (if truthy val then of_sum (ord val) else ret 0);;
             stack_append v;; ret RNone) (set_stack rest s)).
  { unfold op_grid_get. rewrite guard_len_enough by eauto using two_on_stack.
    rewrite (pop2_run _ s rest vx vy) by done.
    unfold bind at 1, the_program. cbn [program set_stack]. by rewrite Hg. }
  rewrite (process_char_handler w _ op_grid_get), Hrun by done.
  assert (He : GridMap.get_item g vx vy = [] ->
            (let (r, s') := (let val := GridMap.get_item g vx vy in
               v <- (if truthy val then of_sum (ord val) else ret 0);;
               stack_append v;; ret RNone) (set_stack rest s) in
             match r with
             | Ok RNone => Returned true (move s')
             | Ok RJumped => Returned true s'
             | _ => Returned false s'
             end) = Returned true (move (set_stack (rest ++ [0]) s))).
  { intros ->. by destruct s. }
  split_and!.
  - intros c ->. by destruct s.
  - exact He.
  - intros Hout. apply He. by apply get_item_outside.
Qed.

Lemma grid_get_reads_witness :
  process_char demo_world (lit "g") (set_stack [1; 1] grid_demo)
    = Returned true (move (set_stack [100] (set_stack [1; 1] grid_demo))) /\
  process_char demo_world (lit "g") (set_stack [0; -1] grid_demo)
    = Returned true (move (set_stack [0] (set_stack [0; -1] grid_demo))).
Proof.
  destruct (grid_get_reads demo_world (set_stack [1; 1] grid_demo)
              (GridMap.of_lines [lit "ab"; lit "cd"]) [] 1 1
              eq_refl eq_refl eq_refl eq_refl) as (H1 & _).
  destruct (grid_get_reads demo_world (set_stack [0; -1] grid_demo)
              (GridMap.of_lines [lit "ab"; lit "cd"]) [] 0 (-1)
              eq_refl eq_refl eq_refl eq_refl) as (_ & _ & H3).
  split; [exact (H1 100 eq_refl)|apply H3; lia].
Defined.

(** X18: [p] pops y, x and val in every case.  At a negative coordinate
    it writes nothing and the step goes on; when val is not a code
    point, [chr] raises, the step returns False with the three
    operands gone, and the grid is as before. *)
Theorem grid_put_edges (w : World) (s : t) (g : GridMap.t)
    (rest : list Z) (val vx vy : Z) :
  string_mode s = false -> ignore_mode s = false ->
  program s = Some g -> stack s = rest ++ [val; vx; vy] ->
  (0 <= val < 1114112 -> vx < 0 \/ vy < 0 ->
     process_char w (lit "p") s = Returned true (move (set_stack rest s))) /\
  (~ 0 <= val < 1114112 ->
     process_char w (lit "p") s = Returned false (set_stack rest s)).
Proof.
  intros Hs Hi Hg H.
  assert (Hrun : op_grid_put w s =
            (c <- of_sum (chr val);;
             (fun s0 => let '(r, g') := GridMap.set_item g vx vy c in
                        (match r with Ok _ => Ok RNone | Err e => Err e end,
                         set_program (Some g') s0))) (set_stack rest s)).
  { unfold op_grid_put. rewrite guard_len_enough
      by (rewrite H, length_app; simpl; lia).
    unfold bind at 1.
    rewrite (stack_pop_snoc s (rest ++ [val; vx]) vy)
      by (by rewrite H, <- app_assoc).
    rewrite (pop2_run _ _ rest val vx) by done.
    unfold bind at 1, the_program. cbn [program set_stack]. by rewrite Hg. }
  rewrite (process_char_handler w _ op_grid_put), Hrun by done.
  split.
  - intros Hval Hneg. unfold bind, of_sum, chr, GridMap.set_item.
    rewrite (proj2 (Z.leb_le 0 val)), (proj2 (Z.ltb_lt val 1114112)) by lia.
    cbn [andb ret].
    assert ((vx <? 0) || (vy <? 0) = true) as ->.
    { apply orb_true_iff. destruct Hneg; [left|right]; by apply Z.ltb_lt. }
    destruct s; simpl in *; by subst.
  - intros Hval. unfold bind, of_sum, chr.
    destruct ((0 <=? val) && (val <? 1114112)) eqn:E.
    { apply andb_true_iff in E as [?%Z.leb_le ?%Z.ltb_lt]. lia. }
    by destruct ((-2147483648 <=? val) && (val <=? 2147483647)).
Qed.

Lemma grid_put_edges_witness :
  process_char demo_world (lit "p") (set_stack [65; -1; 0] grid_demo)
    = Returned true (move (set_stack [] (set_stack [65; -1; 0] grid_demo))) /\
  process_char demo_world (lit "p") (set_stack [-5; 0; 0] grid_demo)
    = Returned false (set_stack [] (set_stack [-5; 0; 0] grid_demo)).
Proof.
  destruct (grid_put_edges demo_world (set_stack [65; -1; 0] grid_demo)
              (GridMap.of_lines [lit "ab"; lit "cd"]) [] 65 (-1) 0
              eq_refl eq_refl eq_refl eq_refl) as (H1 & _).
  destruct (grid_put_edges demo_world (set_stack [-5; 0; 0] grid_demo)
              (GridMap.of_lines [lit "ab"; lit "cd"]) [] (-5) 0 0
              eq_refl eq_refl eq_refl eq_refl) as (_ & H2).
  split; [apply H1; lia|apply H2; lia].
Defined.

(** ** Merging a file that is not there *)

(** X19: [M] pops y and x and then a file name down to its 0.  When no
    file of that name exists, or the name is empty, the failure is
    silent: the operands are gone, the program is untouched and the
    step returns True. *)
Theorem merge_missing_file (w : World) (s : t) (g : GridMap.t)
    (bottom name : list Z) (vx vy : Z) :
  string_mode s = false -> ignore_mode s = false -> program s = Some g ->
  Forall char_code name ->
  stack s = bottom ++ [0] ++ reverse name ++ [vx; vy] ->
  name = [] \/ files w name = None ->
  GridMap.merge_grid w g name vx vy = (false, g) /\
  process_char w (lit "M") s = Returned true (move (set_stack bottom s)).
Proof.
  intros Hs Hi Hg Hname H Hmiss.
  assert (Hm : GridMap.merge_grid w g name vx vy = (false, g)).
  { unfold GridMap.merge_grid, GridMap.init.
    destruct Hmiss as [->|Hf]; [done|]. destruct name; [done|]. by rewrite Hf. }
  split; [done|].
  rewrite (process_char_handler w _ op_merge) by done.
  unfold op_merge. rewrite guard_len_enough
    by (rewrite H, !length_app; simpl; lia).
  rewrite (pop2_run _ s (bottom ++ [0] ++ reverse name) vx vy)
    by (rewrite H; by rewrite <- !app_assoc).
  unfold bind at 1.
  rewrite (pop_string_run _ bottom name Hname) by done.
  unfold bind, the_program, modify, ret. cbn [program set_stack].
  rewrite Hg, Hm. destruct s; simpl in *; by subst.
Qed.

Lemma merge_missing_file_witness :
  process_char demo_world (lit "M") (set_stack [9; 0; 98; 97; 2; 3] grid_demo)
    = Returned true (move (set_stack [9] (set_stack [9; 0; 98; 97; 2; 3] grid_demo))).
Proof.
  apply (merge_missing_file demo_world (set_stack [9; 0; 98; 97; 2; 3] grid_demo)
           (GridMap.of_lines [lit "ab"; lit "cd"]) [9] (lit "ab") 2 3);
    try reflexivity.
  - repeat (apply Forall_cons; split); [by vm_compute..|by apply Forall_nil].
  - by right.
Defined.

(** ** The grid as a function of its coordinates *)

Lemma get_item_cell_at (g : GridMap.t) (vx vy : Z) :
  GridMap.get_item g vx vy =
    if (0 <=? vx) && (0 <=? vy)
    then cell_at (GridMap._map g) (Z.to_nat vx) (Z.to_nat vy) else [].
Proof.
  unfold GridMap.get_item, cell_at.
  destruct (Z.leb_spec 0 vy); [|by rewrite andb_false_r].
  rewrite andb_true_r. cbn [andb].
  destruct (Z.ltb_spec vy (Z.of_nat (length (GridMap._map g)))) as [Hy|Hy].
  - destruct (lookup_lt_is_Some_2 (GridMap._map g) (Z.to_nat vy)) as [row Hrow]; [lia|].
    rewrite Hrow. cbn [default from_option id mbind option_bind].
    destruct (Z.leb_spec 0 vx); cbn [andb]; [|done].
    destruct (Z.ltb_spec vx (Z.of_nat (length row))) as [Hx|Hx]; [done|].
    destruct (row !! Z.to_nat vx) eqn:E; [|done].
    apply lookup_lt_Some in E. unfold pystr in *. lia.
  - rewrite (lookup_ge_None_2 (GridMap._map g) (Z.to_nat vy)) by lia.
    by destruct (0 <=? vx).
Qed.

Lemma cell_at_app_blank (m : list (list pystr)) (k n c r : nat) :
  cell_at (m ++ replicate k (replicate n ([] : pystr))) c r = cell_at m c r.
Proof.
  unfold cell_at. destruct (decide (r < length m)%nat) as [Hr|Hr].
  - by rewrite lookup_app_l.
  - rewrite lookup_app_r, (lookup_ge_None_2 m r) by lia.
    destruct (replicate _ _ !! _) as [row|] eqn:E; [|done].
    apply lookup_replicate in E as [-> _]. simpl.
    destruct (replicate _ _ !! _) as [x0|] eqn:E'; [|done].
    by apply lookup_replicate in E' as [-> _].
Qed.

Lemma cell_at_pad (m : list (list pystr)) (f : list pystr -> nat) (c r : nat) :
  cell_at (map (fun row => row ++ replicate (f row) ([] : pystr)) m) c r = cell_at m c r.
Proof.
  unfold cell_at. rewrite list_lookup_fmap.
  destruct (m !! r) as [row|]; [|done]. simpl.
  destruct (decide (c < length row)%nat) as [Hc|Hc].
  - by rewrite lookup_app_l.
  - rewrite lookup_app_r by (unfold pystr in *; lia).
    destruct (row !! c) eqn:E0;
      [apply lookup_lt_Some in E0; unfold pystr in *; lia|].
    destruct (replicate _ _ !! _) as [x0|] eqn:E; [|done].
    by apply lookup_replicate in E as [-> _].
Qed.

(** Growing the grid shows the same cells: the new ones are empty, as
    cells outside the grid read. *)
Lemma ensure_size_get_item (g : GridMap.t) (w h vx vy : Z) :
  GridMap.get_item (GridMap._ensure_size g w h) vx vy = GridMap.get_item g vx vy.
Proof.
  rewrite !get_item_cell_at. destruct ((0 <=? vx) && (0 <=? vy)); [|done].
  unfold GridMap._ensure_size. cbn [GridMap._map].
  destruct (_ <? w).
  - rewrite (cell_at_pad _ (fun row => Z.to_nat (w - Z.of_nat (length row)))).
    destruct (_ <? h); [apply cell_at_app_blank|done].
  - destruct (_ <? h); [apply cell_at_app_blank|done].
Qed.

(** X20: [set_item] is a one-cell update.  On a grid whose rows have one
    width (every grid the interpreter can hold) a write at
    non-negative coordinates succeeds, is read back at (x, y), and
    leaves what [get_item] returns everywhere else as it was, however
    much the grid had to grow; a write at a negative coordinate changes
    nothing. *)
Theorem set_item_updates_one_cell (g : GridMap.t) (vx vy : Z) (c : pystr) :
  GridMap.uniform g ->
  (0 <= vx -> 0 <= vy ->
     (GridMap.set_item g vx vy c).1 = Ok () /\
     forall ux uy,
       GridMap.get_item (GridMap.set_item g vx vy c).2 ux uy
       = if decide ((ux, uy) = (vx, vy)) then c else GridMap.get_item g ux uy) /\
  (vx < 0 \/ vy < 0 -> GridMap.set_item g vx vy c = (Ok (), g)).
Proof.
  intros Hu. split.
  - intros Hx Hy.
    destruct (set_item_get_item g vx vy c Hu Hx Hy) as (g' & Hs & Hget & _).
    rewrite Hs. split; [done|]. intros ux uy. cbn [snd].
    case_decide as Heq; [by injection Heq as -> ->|].
    rewrite <- (ensure_size_get_item g (vx + 1) (vy + 1) ux uy).
    unfold GridMap.set_item in Hs.
    rewrite (proj2 (Z.ltb_ge vx 0)), (proj2 (Z.ltb_ge vy 0)) in Hs by lia.
    cbn [orb] in Hs.
    destruct (GridMap.setitem2 _ vy vx c) as [m|] eqn:Em; [|done].
    injection Hs as <-.
    rewrite !get_item_cell_at. cbn [GridMap._map].
    destruct ((0 <=? ux) && (0 <=? uy)) eqn:E; [|done].
    apply andb_true_iff in E as [Hux%Z.leb_le Huy%Z.leb_le].
    unfold GridMap.setitem2, getitem, setitem in Em.
    set (m0 := GridMap._map (GridMap._ensure_size g (vx + 1) (vy + 1))) in *.
    destruct (py_index (length m0) vy) as [i|] eqn:Ei; [|done].
    cbn [mbind option_bind] in Em.
    destruct (m0 !! i) as [row|] eqn:Erow; [|done]. cbn [mbind option_bind] in Em.
    destruct (py_index (length row) vx) as [j|] eqn:Ej; [|done].
    cbn [mbind option_bind] in Em. injection Em as <-.
    pose proof (py_index_lt _ _ _ Ei) as Hi. pose proof (py_index_lt _ _ _ Ej) as Hj.
    assert (i = Z.to_nat vy) as ->.
    { unfold py_index in Ei. rewrite (proj2 (Z.leb_le 0 vy)) in Ei by lia.
      destruct (vy <? _); [by injection Ei|]. cbn [andb] in Ei.
      rewrite (proj2 (Z.ltb_ge vy 0)), andb_false_r in Ei by lia. done. }
    assert (j = Z.to_nat vx) as ->.
    { unfold py_index in Ej. rewrite (proj2 (Z.leb_le 0 vx)) in Ej by lia.
      destruct (vx <? _); [by injection Ej|]. cbn [andb] in Ej.
      rewrite (proj2 (Z.ltb_ge vx 0)), andb_false_r in Ej by lia. done. }
    unfold cell_at.
    destruct (decide (Z.to_nat uy = Z.to_nat vy)) as [Hr|Hr].
    + rewrite Hr, list_lookup_insert_eq, Erow by done.
      cbn [mbind option_bind].
      rewrite list_lookup_insert_ne; [done|].
      intros Hc. apply Heq. f_equal; lia.
    + by rewrite list_lookup_insert_ne.
  - intros Hneg. unfold GridMap.set_item.
    assert ((vx <? 0) || (vy <? 0) = true) as ->; [|done].
    apply orb_true_iff. destruct Hneg; [left|right]; by apply Z.ltb_lt.
Qed.

Lemma set_item_updates_one_cell_witness :
  GridMap.get_item (GridMap.set_item (GridMap.of_lines [lit "ab"; lit "cd"]) 4 3 [65]).2 4 3
    = [65] /\
  GridMap.get_item (GridMap.set_item (GridMap.of_lines [lit "ab"; lit "cd"]) 4 3 [65]).2 1 1
    = lit "d" /\
  GridMap.get_item (GridMap.set_item (GridMap.of_lines [lit "ab"; lit "cd"]) 4 3 [65]).2 3 3
    = [].
Proof.
  destruct (set_item_updates_one_cell (GridMap.of_lines [lit "ab"; lit "cd"]) 4 3 [65]
              (of_lines_uniform _)) as [H _].
  destruct (H ltac:(lia) ltac:(lia)) as [_ Hget].
  split_and!; [exact (Hget 4 3)|exact (Hget 1 1)|exact (Hget 3 3)].
Defined.

(** ** The constructor *)

Lemma foldl_ext_fun {A B} (f f' : A -> B -> A) (l : list B) (a : A) :
  (forall a b, f a b = f' a b) -> foldl f a l = foldl f' a l.
Proof. intros H. revert a. induction l as [|b l IH]; intros a; simpl; [done|]. by rewrite H, IH. Qed.

(** Filling one row of the blank grid, on the row itself. *)
Lemma fill_row_alter (m : list (list pystr)) (r : nat) (row : pystr) :
  GridMap.fill_row m r row = alter (fill_cells_of row) r m.
Proof.
  unfold GridMap.fill_row, fill_cells_of.
  generalize (imap (fun (c : nat) (ch : Z) => (c, ch)) row). intros l.
  induction l as [|rc l IH] using rev_ind.
  - simpl. by rewrite list_alter_id.
  - rewrite foldl_app. simpl. rewrite IH, list_alter_alter_eq.
    apply list_alter_ext; [|done]. intros old _. by rewrite foldl_app.
Qed.

Lemma fill_cells (row : pystr) (old : list pystr) :
  (length row <= length old)%nat ->
  fill_cells_of row old = map (fun ch => [ch]) row ++ drop (length row) old.
Proof.
  unfold fill_cells_of.
  induction row as [|ch row IH] using rev_ind; intros Hlen.
  - by rewrite drop_0.
  - rewrite length_app in Hlen. simpl in Hlen.
    rewrite imap_app, foldl_app, IH by lia. simpl.
    rewrite Nat.add_0_r.
    rewrite insert_app_r_alt by (rewrite length_map; lia).
    rewrite length_map, Nat.sub_diag, map_app, length_app. simpl.
    destruct (drop (length row) old) as [|x0 tl] eqn:E.
    { apply (f_equal length) in E. rewrite length_drop in E. simpl in E. lia. }
    simpl. rewrite <- app_assoc. simpl. do 2 f_equal.
    transitivity (drop 1 (drop (length row) old)); [by rewrite E|by rewrite drop_drop].
Qed.

Lemma fill_rows_alter (m : list (list pystr)) (l : list (nat * pystr)) :
  foldl (fun m rr => GridMap.fill_row m rr.1 rr.2) m l
  = foldl (fun m rr => alter (fill_cells_of rr.2) rr.1 m) m l.
Proof. apply foldl_ext_fun. intros m0 rr. apply fill_row_alter. Qed.

(** The outer loop of the constructor changes each row once. *)
Lemma fill_rows_lookup (g : pystr -> list pystr -> list pystr)
    (l : list pystr) (k : nat) (m : list (list pystr)) (j : nat) :
  foldl (fun m rr => alter (g rr.2) rr.1 m) m (imap (fun r row => (k + r, row)%nat) l) !! j
  = match (if decide (k <= j)%nat then l !! (j - k)%nat else None) with
    | Some row => g row <$> m !! j
    | None => m !! j
    end.
Proof.
  revert k m. induction l as [|row0 l IH]; intros k m.
  - simpl. by case_decide.
  - rewrite imap_cons. cbn [foldl fst snd].
    rewrite (imap_ext _ (fun r row => (S k + r, row)%nat))
      by (intros; simpl; f_equal; lia).
    rewrite IH. rewrite Nat.add_0_r.
    destruct (decide (j = k)) as [->|Hne].
    + rewrite decide_False by lia. rewrite decide_True by lia.
      rewrite Nat.sub_diag. simpl. by rewrite list_lookup_alter_eq.
    + rewrite list_lookup_alter_ne by done.
      destruct (decide (S k <= j)%nat) as [Hle|Hgt].
      * rewrite decide_True by lia.
        replace (j - k)%nat with (S (j - S k)) by lia. done.
      * case_decide; [|done].
        by rewrite (lookup_ge_None_2 _ (j - k)%nat) by (simpl; lia) || (exfalso; lia).
Qed.

Lemma le_foldr_max (l : list nat) (n : nat) :
  n ∈ l -> (n <= foldr Nat.max 0%nat l)%nat.
Proof.
  induction l as [|a l IH]; [by intros ?%elem_of_nil|].
  intros [->|H]%elem_of_cons; simpl; [lia|]. specialize (IH H). lia.
Qed.

(** Row [r] of the grid the constructor builds: the characters of line
    [r], padded with empty cells to the width of the longest line. *)
Lemma of_lines_row (lines : list pystr) (r : nat) :
  GridMap._map (GridMap.of_lines lines) !! r
  = (fun line => map (fun ch => [ch]) line
                 ++ replicate (foldr Nat.max 0%nat (map length (map rstrip_nl lines))
                               - length line) ([] : pystr))
    <$> map rstrip_nl lines !! r.
Proof.
  set (raw := map rstrip_nl lines).
  set (cols := foldr Nat.max 0%nat (map length raw)).
  unfold GridMap.of_lines. cbn [GridMap._map]. fold raw cols.
  rewrite fill_rows_alter.
  rewrite (imap_ext _ (fun r0 row => (0 + r0, row)%nat)) by done.
  rewrite (fill_rows_lookup fill_cells_of).
  rewrite decide_True by lia. rewrite Nat.sub_0_r.
  destruct (raw !! r) as [line|] eqn:E.
  - rewrite lookup_replicate_2 by (apply lookup_lt_Some in E; lia).
    simpl. f_equal.
    assert (length line <= cols)%nat.
    { apply le_foldr_max, list_elem_of_fmap. exists line. split; [done|].
      by eapply list_elem_of_lookup_2. }
    rewrite fill_cells by (by rewrite length_replicate).
    by rewrite drop_replicate.
  - simpl. apply lookup_ge_None_2. rewrite length_replicate.
    by apply lookup_ge_None_1 in E.
Qed.

Lemma of_lines_length (lines : list pystr) :
  length (GridMap._map (GridMap.of_lines lines)) = length lines.
Proof.
  assert (Hn : forall n, (n < length (GridMap._map (GridMap.of_lines lines)))%nat
                         <-> (n < length (map rstrip_nl lines))%nat).
  { intros n. rewrite <- !lookup_lt_is_Some, of_lines_row. by rewrite fmap_is_Some. }
  rewrite length_map in Hn.
  destruct (Nat.lt_trichotomy (length (GridMap._map (GridMap.of_lines lines)))
              (length lines)) as [H|[H|H]];
    [apply Hn in H; lia|done|apply Hn in H; lia].
Qed.

(** X21: the constructor builds the grid the text describes.  The cell
    at column c of row r holds the c-th character of the r-th line
    (trailing line feeds stripped) and is empty when the line is
    shorter or there is no such line; the grid has as many rows as
    there are lines and is as wide as the longest one, and every row
    has that width. *)
Theorem of_lines_cells (lines : list pystr) :
  let raw := map rstrip_nl lines in
  let g := GridMap.of_lines lines in
  (forall c r : nat,
     GridMap.get_item g (Z.of_nat c) (Z.of_nat r)
     = match raw !! r ≫= fun line => line !! c with
       | Some ch => [ch]
       | None => []
       end) /\
  GridMap.rows g = length lines /\
  GridMap.cols g = foldr Nat.max 0%nat (map length raw) /\
  length (GridMap._map g) = GridMap.rows g /\
  Forall (fun row => length row = GridMap.cols g) (GridMap._map g).
Proof.
  intros raw g.
  set (cols := foldr Nat.max 0%nat (map length raw)).
  assert (Hrow := of_lines_row lines). fold raw cols in Hrow.
  split_and!.
  - intros c r. rewrite get_item_cell_at.
    rewrite (proj2 (Z.leb_le 0 _)), (proj2 (Z.leb_le 0 _)) by lia. cbn [andb].
    rewrite !Nat2Z.id. unfold cell_at. rewrite Hrow.
    destruct (raw !! r) as [line|]; [|done]. simpl. unfold pystr in *.
    destruct (line !! c) as [ch|] eqn:E.
    + rewrite lookup_app_l by (rewrite length_map; by eapply lookup_lt_Some).
      change (map (fun ch : Z => [ch]) line) with ((fun ch : Z => [ch]) <$> line).
      by rewrite list_lookup_fmap, E.
    + apply lookup_ge_None_1 in E.
      rewrite lookup_app_r by (by rewrite length_map).
      destruct (replicate _ _ !! _) as [x0|] eqn:E'; [|done].
      by apply lookup_replicate in E' as [-> _].
  - unfold g, GridMap.of_lines. cbn [GridMap.rows]. by rewrite length_map.
  - done.
  - unfold g. rewrite of_lines_length. unfold GridMap.of_lines. cbn [GridMap.rows].
    by rewrite length_map.
  - apply Forall_lookup. intros r row Hr. rewrite Hrow in Hr.
    destruct (raw !! r) as [line|] eqn:E; [|done]. injection Hr as <-.
    rewrite length_app, length_map, length_replicate.
    assert (length line <= cols)%nat; [|unfold g, GridMap.of_lines; cbn; fold raw cols; lia].
    apply le_foldr_max, list_elem_of_fmap. exists line. split; [done|].
    by eapply list_elem_of_lookup_2.
Qed.

(** ** Every grid the interpreter holds is well formed *)

Lemma width0_rows_of_width (n : nat) (m : list (list pystr)) :
  rows_of_width n m -> m <> [] -> GridMap.width0 m = n.
Proof. destruct m as [|row m]; [done|]. intros H _. by apply Forall_inv in H. Qed.

Lemma setitem2_cells_ok (m m' : list (list pystr)) (i j : Z) (v : pystr) :
  GridMap.setitem2 m i j v = Some m' -> cells_ok m -> (length v <= 1)%nat ->
  cells_ok m'.
Proof.
  unfold GridMap.setitem2, getitem, setitem. intros H Hm Hv.
  destruct (py_index (length m) i) as [k|]; [|done]. simpl in H.
  destruct (m !! k) as [row|] eqn:Erow; [|done]. simpl in H.
  destruct (py_index (length row) j) as [k'|]; [|done]. simpl in H.
  injection H as <-. apply Forall_insert; [done|].
  apply Forall_insert; [|done]. by apply (Forall_lookup_1 _ _ _ _ Hm Erow).
Qed.

Lemma setitem2_width0 (m m' : list (list pystr)) (i j : Z) (v : pystr) (n : nat) :
  GridMap.setitem2 m i j v = Some m' -> rows_of_width n m ->
  GridMap.width0 m' = GridMap.width0 m /\ length m' = length m.
Proof.
  intros H Hn. destruct (setitem2_rows_of_width _ _ _ _ _ _ H Hn) as [Hn' Hl].
  split; [|done]. destruct m as [|r0 m], m' as [|r0' m'']; try done.
  by rewrite (width0_rows_of_width n (r0 :: m)), (width0_rows_of_width n (r0' :: m'')).
Qed.

Lemma ensure_size_wf (g : GridMap.t) (w h : Z) :
  grid_wf g -> grid_wf (GridMap._ensure_size g w h).
Proof.
  intros (Hu & _ & _ & Hc). split_and!; [by apply ensure_size_uniform|done|done|].
  unfold GridMap._ensure_size. cbn [GridMap._map].
  set (m1 := if _ <? h then _ else _).
  assert (H1 : cells_ok m1).
  { unfold m1. case_match; [|done]. apply Forall_app. split; [done|].
    apply Forall_replicate, Forall_replicate. simpl. lia. }
  case_match; [|done]. apply Forall_map. eapply Forall_impl; [exact H1|].
  intros row Hrow. simpl. apply Forall_app. split; [done|].
  apply Forall_replicate. simpl. lia.
Qed.

Lemma set_item_wf (g : GridMap.t) (vx vy : Z) (c : pystr) :
  grid_wf g -> (length c <= 1)%nat -> grid_wf (GridMap.set_item g vx vy c).2.
Proof.
  intros Hg Hc. unfold GridMap.set_item.
  destruct ((vx <? 0) || (vy <? 0)); [done|].
  pose proof (ensure_size_wf g (vx + 1) (vy + 1) Hg) as Hg1.
  set (g1 := GridMap._ensure_size g (vx + 1) (vy + 1)) in *.
  destruct (GridMap.setitem2 _ _ _ _) as [m|] eqn:Em; [|done].
  destruct Hg1 as (Hu1 & Hr1 & Hc1 & Hcell1).
  apply uniform_rows_of_width in Hu1 as [n Hn].
  destruct (setitem2_rows_of_width _ _ _ _ _ _ Em Hn) as [Hn' _].
  destruct (setitem2_width0 _ _ _ _ _ _ Em Hn) as [Hw Hl].
  cbn [snd]. split_and!; cbn [GridMap._map GridMap.rows GridMap.cols].
  - apply uniform_rows_of_width. by exists n.
  - by rewrite Hl.
  - by rewrite Hw.
  - by eapply setitem2_cells_ok.
Qed.

Lemma of_lines_wf (lines : list pystr) : grid_wf (GridMap.of_lines lines).
Proof.
  set (raw := map rstrip_nl lines).
  set (cols := foldr Nat.max 0%nat (map length raw)).
  assert (Hrow := of_lines_row lines). fold raw cols in Hrow.
  assert (Hw : rows_of_width cols (GridMap._map (GridMap.of_lines lines))).
  { apply Forall_lookup. intros r row Hr. rewrite Hrow in Hr.
    destruct (raw !! r) as [line|] eqn:E; [|done]. injection Hr as <-.
    rewrite length_app, length_map, length_replicate.
    assert (length line <= cols)%nat; [|lia].
    apply le_foldr_max, list_elem_of_fmap. exists line. split; [done|].
    by eapply list_elem_of_lookup_2. }
  split_and!.
  - apply of_lines_uniform.
  - rewrite of_lines_length. unfold GridMap.of_lines. cbn [GridMap.rows].
    by rewrite length_map.
  - destruct (GridMap._map (GridMap.of_lines lines)) as [|r0 m] eqn:E.
    + pose proof (of_lines_length lines) as Hl. rewrite E in Hl.
      destruct lines; [done|done].
    + rewrite <- E, (width0_rows_of_width cols) by (done || by rewrite E). done.
  - apply Forall_lookup. intros r row Hr. rewrite Hrow in Hr.
    destruct (raw !! r) as [line|]; [|done]. injection Hr as <-.
    apply Forall_app. split.
    + apply Forall_map, Forall_forall. intros. simpl. lia.
    + apply Forall_replicate. simpl. lia.
Qed.

Lemma init_wf (w : World) (file content : option pystr) (g : GridMap.t) :
  GridMap.init w file content = Ok g -> grid_wf g.
Proof.
  unfold GridMap.init. intros H.
  repeat case_match; simplify_eq; apply of_lines_wf.
Qed.

Lemma merge_grid_wf (w : World) (g : GridMap.t) (file : pystr) (vx vy : Z) :
  grid_wf g -> grid_wf (GridMap.merge_grid w g file vx vy).2.
Proof.
  intros Hg. unfold GridMap.merge_grid.
  destruct (GridMap.init w (Some file) None) as [other|e] eqn:Eo; [|done].
  apply init_wf in Eo. destruct Eo as (_ & _ & _ & Hoc).
  set (g1 := GridMap._ensure_size g _ _).
  assert (Hg1 : grid_wf g1) by by apply ensure_size_wf.
  destruct Hg1 as (Hu1 & Hr1 & Hc1 & Hcell1).
  apply uniform_rows_of_width in Hu1 as [n Hn].
  set (cells := _ ≫= _).
  assert (Hf : let m := (foldl (GridMap.merge_cell (GridMap.get_map other) vx vy)
                           (None, GridMap._map g1) cells).2 in
               rows_of_width n m /\ cells_ok m /\
               length m = length (GridMap._map g1) /\
               GridMap.width0 m = GridMap.width0 (GridMap._map g1)).
  { apply (foldl_preserves (fun acc =>
             rows_of_width n acc.2 /\ cells_ok acc.2 /\
             length acc.2 = length (GridMap._map g1) /\
             GridMap.width0 acc.2 = GridMap.width0 (GridMap._map g1))); [|done].
    intros [e m] rc (Hm1 & Hm2 & Hm3 & Hm4). unfold GridMap.merge_cell.
    cbn [snd] in *.
    destruct e; [done|].
    destruct (GridMap.get_map other !! rc.1 ≫= _) as [val|] eqn:Ev; [|done].
    destruct (truthy val); [|done].
    destruct (GridMap.setitem2 _ _ _ _) as [m'|] eqn:Em; [|done]. cbn [snd].
    destruct (setitem2_rows_of_width _ _ _ _ _ _ Em Hm1) as [? ?].
    destruct (setitem2_width0 _ _ _ _ _ _ Em Hm1) as [? ?].
    split_and!; [done| |congruence|congruence].
    eapply setitem2_cells_ok; [done..|].
    unfold GridMap.get_map in Ev.
    destruct (GridMap._map other !! rc.1) as [row|] eqn:Er; [|done]. simpl in Ev.
    pose proof (Forall_lookup_1 _ _ _ _ Hoc Er) as Hrow.
    by apply (Forall_lookup_1 _ _ _ _ Hrow Ev). }
  destruct (foldl _ _ _) as [e m]. cbn [snd] in *.
  destruct Hf as (Hf1 & Hf2 & Hf3 & Hf4).
  split_and!; cbn [GridMap._map GridMap.rows GridMap.cols].
  - apply uniform_rows_of_width. by exists n.
  - by rewrite Hf3.
  - by rewrite Hf4.
  - done.
Qed.

Lemma chr_length (v : Z) (c : pystr) : chr v = inr c -> (length c <= 1)%nat.
Proof. unfold chr. repeat case_match; try done. intros [= <-]. simpl. lia. Qed.

Lemma handlers_program_wf :
  Forall (fun kv : pystr * (World -> M retval) =>
            forall w s, program_wf s -> program_wf (kv.2 w s).2) ops.
Proof.
  unfold ops.
  repeat (apply Forall_cons; split); [..|by apply Forall_nil];
    intros w s Hg; cbn [snd]; unfold_handlers.
  all: repeat case_match; simplify_eq; cbn [snd]; try done.
  all: unfold program_wf in *; simpl in *; try done.
  all: rename select (program s = Some _) into Hp; rewrite Hp in Hg.
  all: try by apply merge_grid_wf.
  all: match goal with
       | Hs : GridMap.set_item ?g ?vx ?vy ?c = _, Hc : chr _ = inr ?c |- _ =>
         pose proof (set_item_wf g vx vy c Hg (chr_length _ _ Hc)) as Hu;
         by rewrite Hs in Hu
       end.
Qed.

Lemma dispatch_program_wf (w : World) (char : pystr) (s : t) :
  program_wf s -> program_wf (dispatch w char s).2.
Proof.
  intros Hg.
  destruct (dispatch_cases w char s) as [H|[[n H]|[H|(h & Hin & H)]]];
    rewrite H; try done.
  by apply (in_ops _ _ handlers_program_wf Hin).
Qed.

Lemma process_char_program_wf (w : World) (char : pystr) (s : t) :
  program_wf s -> program_wf (final (process_char w char s)).
Proof.
  intros Hg. unfold process_char.
  destruct (string_mode s); [case_decide; [done|by destruct (ord char)]|].
  destruct (ignore_mode s); [by case_match|].
  pose proof (dispatch_program_wf w char s Hg) as Hd.
  by destruct (dispatch w char s) as [[[| |]|e] s'].
Qed.

Lemma method_call_program_wf (s s' : t) :
  method_call s s' -> program_wf s -> program_wf s'.
Proof.
  destruct 1 as [w code s|w file s|s|data p s|w s]; intros Hg; try done.
  - unfold load_code. destruct (GridMap.init _ _ _) eqn:E; [|done].
    by apply init_wf in E.
  - unfold load_program. destruct (GridMap.init _ _ _) eqn:E; [|done].
    by apply init_wf in E.
  - unfold step. destruct (program s); [|done]. by apply process_char_program_wf.
Qed.

Lemma reachable_program_wf (s : t) : reachable s -> program_wf s.
Proof.
  intros (inp & cb & Hr). revert s Hr. apply rtc_ind_r; [done|].
  intros s s' _ Hc IH. by eapply method_call_program_wf.
Qed.

Lemma cell_at_length (m : list (list pystr)) (c r : nat) :
  cells_ok m -> (length (cell_at m c r) <= 1)%nat.
Proof.
  intros Hm. unfold cell_at.
  destruct (m !! r) as [row|] eqn:Er; [|simpl; lia]. simpl.
  destruct (row !! c) as [v|] eqn:Ec; [|simpl; lia]. simpl.
  pose proof (Forall_lookup_1 _ _ _ _ Hm Er) as Hrow.
  by apply (Forall_lookup_1 _ _ _ _ Hrow Ec).
Qed.

Lemma get_item_length (g : GridMap.t) (vx vy : Z) :
  cells_ok (GridMap._map g) -> (length (GridMap.get_item g vx vy) <= 1)%nat.
Proof.
  intros Hm. rewrite get_item_cell_at.
  destruct (_ && _); [by apply cell_at_length|simpl; lia].
Qed.

(** X22: whatever the program, its input and the files merged into it,
    the grid of an interpreter keeps rows of one width, [rows] and
    [cols] give its real size, every cell is empty or one character,
    and the character field of the snapshot is the cell under the
    IP. *)
Theorem reachable_grid_well_formed (s : t) (g : GridMap.t) :
  reachable s -> program s = Some g ->
  GridMap.rows g = length (GridMap._map g) /\
  Forall (fun row => length row = GridMap.cols g) (GridMap._map g) /\
  (forall vx vy, GridMap.get_item g vx vy = []
                 \/ exists c, GridMap.get_item g vx vy = [c]) /\
  get_current_char s = GridMap.get_item g (x s) (y s).
Proof.
  intros Hr Hg. pose proof (reachable_program_wf s Hr) as Hwf.
  unfold program_wf in Hwf. rewrite Hg in Hwf.
  destruct Hwf as (Hu & Hrows & Hcols & Hcells).
  split_and!.
  - done.
  - rewrite Hcols. exact Hu.
  - intros vx vy. pose proof (get_item_length g vx vy Hcells) as Hl.
    destruct (GridMap.get_item g vx vy) as [|c [|c' l]]; [by left|right; by exists c|].
    simpl in Hl. lia.
  - unfold get_current_char, program_truthy. rewrite Hg.
    destruct (GridMap.len g =? 0)%nat eqn:E; [|done]. cbn [negb].
    apply Nat.eqb_eq in E. unfold GridMap.len in E.
    rewrite get_item_cell_at. destruct (_ && _); [|done].
    unfold cell_at.
    destruct (GridMap._map g !! Z.to_nat (y s)) as [row|] eqn:Er; [|done]. simpl.
    destruct (row !! Z.to_nat (x s)) as [v|] eqn:Ec; [|done]. exfalso.
    pose proof (Forall_lookup_1 _ _ _ _ Hu Er) as Hrl. simpl in Hrl.
    apply lookup_lt_Some in Er. apply lookup_lt_Some in Ec.
    apply Nat.eq_mul_0 in E. unfold pystr in *. lia.
Qed.

Lemma reachable_grid_well_formed_witness :
  GridMap.rows (GridMap.of_lines [lit "1@"]) = 1%nat /\
  get_current_char halt_demo = lit "@".
Proof.
  destruct (reachable_grid_well_formed halt_demo (GridMap.of_lines [lit "1@"]))
    as (H1 & _ & _ & H4).
  - unfold halt_demo. apply reachable_step, reachable_load_code, reachable_init.
  - reflexivity.
  - split; [exact H1|exact H4].
Defined.

(** X23: what can leave a step as an exception.  For an interpreter as
    its methods can make it, [run] raises out of a step in two
    situations only, and changes nothing when it does: no program is
    loaded ([AttributeError]), or string mode is on and the cell
    under the IP is empty ([TypeError]).  In normal and in ignore mode
    a step on a loaded program always returns. *)
Theorem step_raises_only (w : World) (s s' : t) (e : exn) :
  reachable s ->
  (step w s = Uncaught e s' <->
   s' = s /\
   ((program s = None /\ e = AttributeError) \/
    (exists g, program s = Some g /\ string_mode s = true /\
               GridMap.get_item g (x s) (y s) = [] /\ e = TypeError))).
Proof.
  intros Hr. pose proof (reachable_program_wf s Hr) as Hwf.
  unfold program_wf in Hwf. unfold step.
  destruct (program s) as [g|] eqn:Hg.
  - destruct Hwf as (_ & _ & _ & Hcells).
    pose proof (get_item_length g (x s) (y s) Hcells) as Hl.
    unfold process_char. split.
    + destruct (string_mode s) eqn:Hs.
      * case_decide; [done|].
        destruct (GridMap.get_item g (x s) (y s)) as [|c [|c' l]] eqn:Ec;
          [|done|simpl in Hl; lia].
        simpl. intros [= <- <-]. split; [done|]. right. by exists g.
      * destruct (ignore_mode s); [done|].
        by destruct (dispatch w _ s) as [[[| |]|?] ?].
    + intros [-> [[[=] _]|(g' & [= <-] & Hs & Hc & ->)]].
      rewrite Hs, Hc. by rewrite decide_False by done.
  - split.
    + intros [= <- <-]. split; [done|]. by left.
    + intros [-> [[_ ->]|(g' & [=] & _)]]. done.
Qed.

Lemma step_raises_only_witness :
  step demo_world lone_quote = Uncaught TypeError lone_quote /\
  step demo_world (init None PyNone) = Uncaught AttributeError (init None PyNone).
Proof.
  assert (H1 : reachable lone_quote).
  { unfold lone_quote. apply reachable_step, reachable_load_code, reachable_init. }
  split.
  - apply (step_raises_only demo_world lone_quote lone_quote TypeError H1).
    split; [done|]. right. by exists (GridMap.of_lines [[34]]).
  - apply (step_raises_only demo_world _ _ AttributeError (reachable_init None PyNone)).
    split; [done|]. by left.
Defined.

(** ** Output *)



(** ** Input from the host *)

(** X25: without a pre-supplied input (none, or the empty string) [I]
    asks the callback, when one is bound: a non-empty string pushes its
    first character, an integer is pushed as it is, the empty string
    and every other value push nothing, and an exception raised by the
    callback makes the step return False.  With no callback bound [I]
    does nothing. *)
Theorem input_from_callback (w : World) (s : t) :
  string_mode s = false -> ignore_mode s = false ->
  input s = None \/ input s = Some [] ->
  (built_in_input s = PyCallable ->
     process_char w (lit "I") s
     = match answer w with
       | AnsStr (c :: _) => Returned true (move (set_stack (stack s ++ [c]) s))
       | AnsInt n => Returned true (move (set_stack (stack s ++ [n]) s))
       | AnsStr [] | AnsOther => Returned true (move s)
       | AnsRaise => Returned false s
       end) /\
  (built_in_input s = PyNone \/ built_in_input s = PyBool false ->
     process_char w (lit "I") s = Returned true (move s)).
Proof.
  intros Hs Hi Hin.
  rewrite (process_char_handler w _ op_input) by done.
  assert (Hop : op_input w s =
            (cb <- gets built_in_input;;
             if obj_truthy cb then
               val <- call_built_in_input w;;
               match val with
               | AnsStr (c :: _) => stack_append c;; ret RNone
               | AnsInt n => stack_append n;; ret RNone
               | _ => ret RNone
               end
             else ret RNone) s).
  { unfold op_input, bind at 1, gets at 1. by destruct Hin as [-> | ->]. }
  rewrite Hop. unfold bind, gets, call_built_in_input. split.
  - intros Hcb. rewrite Hcb. cbn [obj_truthy]. cbv beta. rewrite Hcb.
    by destruct (answer w) as [[|c cs]|n| |].
  - intros [Hcb | Hcb]; cbv beta; by rewrite !Hcb.
Qed.

Lemma input_from_callback_witness :
  process_char demo_world (lit "I") (init None PyCallable)
    = Returned true (move (init None PyCallable)) /\
  process_char superscript_world (lit "I") (init None PyNone)
    = Returned true (move (init None PyNone)).
Proof.
  destruct (input_from_callback demo_world (init None PyCallable) eq_refl eq_refl
              (or_introl eq_refl)) as [H1 _].
  destruct (input_from_callback superscript_world (init None PyNone) eq_refl eq_refl
              (or_introl eq_refl)) as [_ H2].
  split; [exact (H1 eq_refl)|exact (H2 (or_introl eq_refl))].
Defined.

(** ** Merging a file that is there *)

Lemma cell_at_insert2 (m : list (list pystr)) (row : list pystr) (i j c r : nat)
    (v : pystr) :
  m !! i = Some row -> (j < length row)%nat ->
  cell_at (<[i := <[j := v]> row]> m) c r
  = if decide (r = i /\ c = j) then v else cell_at m c r.
Proof.
  intros Hrow Hj. unfold cell_at.
  pose proof (lookup_lt_Some _ _ _ Hrow) as Hi.
  destruct (decide (r = i)) as [->|Hr].
  - rewrite list_lookup_insert_eq by done. simpl.
    destruct (decide (c = j)) as [->|Hc].
    + rewrite list_lookup_insert_eq by done. by rewrite decide_True.
    + rewrite list_lookup_insert_ne by done. rewrite Hrow. simpl.
      by rewrite decide_False by naive_solver.
  - rewrite list_lookup_insert_ne by done. by rewrite decide_False by naive_solver.
Qed.

(** The two loops of [merge_grid] on a grid that is large enough. *)
Lemma merge_cells_run (other_map m0 : list (list pystr)) (vx vy : Z) (n : nat)
    (cells : list (nat * nat)) :
  0 <= vx -> 0 <= vy -> rows_of_width n m0 ->
  (forall r c, (r, c) ∈ cells ->
     is_Some (other_map !! r ≫= (fun row => row !! c)) /\
     Z.of_nat r + vy < Z.of_nat (length m0) /\ Z.of_nat c + vx < Z.of_nat n) ->
  exists m', foldl (GridMap.merge_cell other_map vx vy) (None, m0) cells = (None, m') /\
    rows_of_width n m' /\ length m' = length m0 /\
    (forall r c, (r, c) ∈ cells -> truthy (cell_at other_map c r) = true ->
       cell_at m' (c + Z.to_nat vx) (r + Z.to_nat vy) = cell_at other_map c r) /\
    (forall c r,
       (forall r' c', (r', c') ∈ cells -> truthy (cell_at other_map c' r') = true ->
          ~ (r = (r' + Z.to_nat vy)%nat /\ c = (c' + Z.to_nat vx)%nat)) ->
       cell_at m' c r = cell_at m0 c r).
Proof.
  intros Hvx Hvy Hn0. induction cells as [|[r0 c0] cells IH] using rev_ind; intros Hcells.
  { exists m0. split_and!; try done. intros r c Hin. by apply elem_of_nil in Hin. }
  destruct IH as (m & Hfold & Hn & Hlen & H1 & H2).
  { intros r c Hin. apply Hcells, elem_of_app. by left. }
  rewrite foldl_app. cbn [foldl]. rewrite Hfold.
  destruct (Hcells r0 c0) as ([val Eval] & Hr0 & Hc0).
  { apply elem_of_app. right. by apply list_elem_of_singleton. }
  assert (Hval : cell_at other_map c0 r0 = val) by exact (f_equal (default []) Eval).
  unfold GridMap.merge_cell. cbn [fst snd]. rewrite Eval.
  destruct (truthy val) eqn:Et.
  - destruct (lookup_lt_is_Some_2 m (Z.to_nat (Z.of_nat r0 + vy))) as [row Hrow];
      [lia|].
    pose proof (Forall_lookup_1 _ _ _ _ Hn Hrow) as Hw. cbv beta in Hw.
    rewrite (setitem2_in_range m row) by (done || lia).
    exists (<[Z.to_nat (Z.of_nat r0 + vy) := <[Z.to_nat (Z.of_nat c0 + vx) := val]> row]> m).
    split_and!.
    + done.
    + apply Forall_insert; [done|]. rewrite length_insert. exact Hw.
    + by rewrite length_insert.
    + intros r c Hin Ht. rewrite (cell_at_insert2 m row) by (done || lia).
      destruct (decide _) as [[Hr Hc]|Hne].
      * assert (r = r0) as -> by lia. assert (c = c0) as -> by lia. done.
      * apply elem_of_app in Hin as [Hin|Hin]; [by apply H1|].
        apply list_elem_of_singleton in Hin. injection Hin as -> ->.
        exfalso. apply Hne. lia.
    + intros c r Hfree. rewrite (cell_at_insert2 m row) by (done || lia).
      rewrite decide_False.
      * apply H2. intros r' c' Hin. apply Hfree, elem_of_app. by left.
      * intros [Hr Hc]. apply (Hfree r0 c0).
        -- apply elem_of_app. right. by apply list_elem_of_singleton.
        -- by rewrite Hval.
        -- lia.
  - exists m. split_and!; try done.
    + intros r c Hin Ht. apply elem_of_app in Hin as [Hin|Hin]; [by apply H1|].
      apply list_elem_of_singleton in Hin. injection Hin as -> ->. congruence.
    + intros c r Hfree. apply H2. intros r' c' Hin. apply Hfree, elem_of_app. by left.
Qed.

Lemma ensure_size_length (g : GridMap.t) (w h : Z) :
  length (GridMap._map (GridMap._ensure_size g w h))
  = Nat.max (length (GridMap._map g)) (Z.to_nat h).
Proof.
  unfold GridMap._ensure_size. cbn [GridMap._map].
  destruct (Z.ltb_spec (Z.of_nat (length (GridMap._map g))) h);
    destruct (_ <? w); rewrite ?length_map, ?length_app, ?length_replicate;
    unfold pystr in *; lia.
Qed.

Lemma cell_at_truthy (m : list (list pystr)) (n c r : nat) :
  rows_of_width n m -> truthy (cell_at m c r) = true ->
  (r < length m)%nat /\ (c < n)%nat /\ is_Some (m !! r ≫= (fun row => row !! c)).
Proof.
  intros Hn. unfold cell_at.
  destruct (m !! r) as [row|] eqn:Er; [|done]. simpl.
  destruct (row !! c) as [v|] eqn:Ec; [|done]. intros _.
  pose proof (Forall_lookup_1 _ _ _ _ Hn Er) as Hw. cbv beta in Hw.
  apply lookup_lt_Some in Er, Ec. unfold pystr in *.
  split_and!; [done|lia|by eexists].
Qed.

(** X26: merging a readable file at non-negative offsets into a grid
    whose rows have one width succeeds: [merge_grid] returns True, the
    grid has grown to at least y_offset plus the number of lines of the
    file, and every cell then reads as the overlay's cell at the
    shifted position where the overlay has a character there, and as
    before wherever the overlay has none (outside it, or in the
    padding of its shorter lines). *)
Theorem merge_grid_overlay (w : World) (g : GridMap.t) (file : pystr)
    (lines : list pystr) (vx vy : Z) :
  GridMap.uniform g -> 0 <= vx -> 0 <= vy ->
  file <> [] -> files w file = Some (Some lines) ->
  (GridMap.merge_grid w g file vx vy).1 = true /\
  GridMap.rows (GridMap.merge_grid w g file vx vy).2
    = Nat.max (length (GridMap._map g)) (Z.to_nat vy + length lines) /\
  forall ux uy,
    GridMap.get_item (GridMap.merge_grid w g file vx vy).2 ux uy
    = if truthy (GridMap.get_item (GridMap.of_lines lines) (ux - vx) (uy - vy))
      then GridMap.get_item (GridMap.of_lines lines) (ux - vx) (uy - vy)
      else GridMap.get_item g ux uy.
Proof.
  intros Hu Hvx Hvy Hfile Hf.
  set (other := GridMap.of_lines lines).
  set (om := GridMap._map other).
  set (g1 := GridMap._ensure_size g (vx + Z.of_nat (GridMap.width0 om))
                                    (vy + Z.of_nat (length om))).
  set (cells := r ← seq 0 (length om); c ← seq 0 (GridMap.width0 om); [(r, c)]).
  assert (Hcells : forall r c, (r, c) ∈ cells <->
            (r < length om)%nat /\ (c < GridMap.width0 om)%nat).
  { intros r c. unfold cells. rewrite list_elem_of_bind. split.
    - intros (r' & Hin & Hr'). apply list_elem_of_bind in Hin as (c' & Hin & Hc').
      apply list_elem_of_singleton in Hin. injection Hin as -> ->.
      apply elem_of_seq in Hr', Hc'. lia.
    - intros [Hr Hc]. exists r. split; [|apply elem_of_seq; lia].
      apply list_elem_of_bind. exists c.
      split; [by apply list_elem_of_singleton|apply elem_of_seq; lia]. }
  assert (Hom : rows_of_width (GridMap.width0 om) om).
  { exact (of_lines_uniform lines). }
  destruct (ensure_size_rows g (vx + Z.of_nat (GridMap.width0 om))
              (vy + Z.of_nat (length om)) Hu) as (n & Hn & Hwn & Hhn).
  fold g1 in Hn, Hhn.
  destruct (merge_cells_run om (GridMap._map g1) vx vy n cells Hvx Hvy Hn)
    as (m' & Hfold & Hn' & Hlen & H1 & H2).
  { intros r c [Hr Hc]%Hcells. split; [|lia].
    destruct (lookup_lt_is_Some_2 om r Hr) as [row Hrow]. rewrite Hrow. simpl.
    apply lookup_lt_is_Some_2.
    pose proof (Forall_lookup_1 _ _ _ _ Hom Hrow) as Hw. cbv beta in Hw.
    unfold pystr in *. lia. }
  assert (Hm : GridMap.merge_grid w g file vx vy
               = (true, {| GridMap._map := m'; GridMap.rows := GridMap.rows g1;
                           GridMap.cols := GridMap.cols g1 |})).
  { unfold GridMap.merge_grid, GridMap.init. destruct file as [|ch file]; [done|].
    rewrite Hf. cbv zeta. unfold GridMap.get_map.
    fold other. fold om. fold g1. fold cells. by rewrite Hfold. }
  rewrite Hm. cbn [fst snd]. split; [done|]. split.
  { cbn [GridMap.rows]. unfold g1 at 1.
    change (GridMap.rows (GridMap._ensure_size ?a ?b ?c))
      with (length (GridMap._map (GridMap._ensure_size a b c))).
    rewrite ensure_size_length. unfold om, other. rewrite of_lines_length. lia. }
  intros ux uy.
  rewrite <- (ensure_size_get_item g (vx + Z.of_nat (GridMap.width0 om))
                (vy + Z.of_nat (length om)) ux uy). fold g1.
  rewrite !get_item_cell_at. cbn [GridMap._map]. fold om.
  destruct (Z.leb_spec 0 ux) as [Hux|Hux]; cycle 1.
  { cbn [andb]. destruct (Z.leb_spec 0 (ux - vx)); [lia|]. done. }
  destruct (Z.leb_spec 0 uy) as [Huy|Huy]; cycle 1.
  { cbn [andb]. destruct (Z.leb_spec 0 (uy - vy)); [lia|]. by rewrite andb_false_r. }
  cbn [andb].
  destruct (truthy (if (0 <=? ux - vx) && (0 <=? uy - vy)
                    then cell_at om (Z.to_nat (ux - vx)) (Z.to_nat (uy - vy)) else []))
    eqn:Et.
  - destruct (Z.leb_spec 0 (ux - vx)) as [Hcx|]; [|done].
    destruct (Z.leb_spec 0 (uy - vy)) as [Hcy|]; [|done].
    cbn [andb] in Et |- *.
    destruct (cell_at_truthy om _ _ _ Hom Et) as (Hr & Hc & _).
    rewrite <- (H1 _ _ (proj2 (Hcells _ _) (conj Hr Hc)) Et).
    f_equal; lia.
  - apply H2. intros r' c' [Hr Hc]%Hcells Ht [Hy Hx].
    replace (ux - vx) with (Z.of_nat c') in Et by lia.
    replace (uy - vy) with (Z.of_nat r') in Et by lia.
    destruct (Z.leb_spec 0 (Z.of_nat c')); [|lia].
    destruct (Z.leb_spec 0 (Z.of_nat r')); [|lia].
    cbn [andb] in Et. rewrite !Nat2Z.id in Et. congruence.
Qed.

Lemma merge_grid_overlay_witness :
  (GridMap.merge_grid overlay_world (GridMap.of_lines [lit "ab"; lit "cd"]) (lit "f") 1 0).1
    = true /\
  GridMap.get_item
    (GridMap.merge_grid overlay_world (GridMap.of_lines [lit "ab"; lit "cd"]) (lit "f") 1 0).2
    1 0 = lit "x" /\
  GridMap.get_item
    (GridMap.merge_grid overlay_world (GridMap.of_lines [lit "ab"; lit "cd"]) (lit "f") 1 0).2
    0 0 = lit "a".
Proof.
  destruct (merge_grid_overlay overlay_world (GridMap.of_lines [lit "ab"; lit "cd"])
              (lit "f") [lit "x" ++ [10]; lit "yz"] 1 0) as (H1 & _ & H3).
  - repeat (apply Forall_cons; split); [by vm_compute..|by apply Forall_nil].
  - lia.
  - lia.
  - done.
  - reflexivity.
  - split_and!; [exact H1|exact (H3 1 0)|exact (H3 0 0)].
Defined.

(** ** The captured output *)

(** Only [N] and [A] touch the output, and they append to it. *)
Lemma handlers_output :
  Forall (fun kv : pystr * (World -> M retval) =>
            forall w s, output (kv.2 w s).2 = output s
                        \/ (kv.1 ∈ [lit "N"; lit "A"] /\
                            exists text, output (kv.2 w s).2 = output s ++ [text])) ops.
Proof.
  each_handler; crunch; try (by left); try (by left; destruct s);
    right; (split; [apply (proj2 (list_elem_of_In _ _));
                    first [left; reflexivity|right; left; reflexivity]
                   |eexists; reflexivity]).
Qed.

Lemma dispatch_output (w : World) (char : pystr) (s : t) :
  output (dispatch w char s).2 = output s
  \/ (char ∈ [lit "N"; lit "A"] /\
      exists text, output (dispatch w char s).2 = output s ++ [text]).
Proof.
  destruct (dispatch_cases w char s) as [->|[[n ->]|[->|(h & Hin & ->)]]];
    try (by left).
  exact (in_ops _ _ handlers_output Hin w s).
Qed.

Lemma process_char_output (w : World) (char : pystr) (s : t) :
  output (final (process_char w char s)) = output s
  \/ (char ∈ [lit "N"; lit "A"] /\ string_mode s = false /\ ignore_mode s = false /\
      exists text, output (final (process_char w char s)) = output s ++ [text]).
Proof.
  unfold process_char. destruct (string_mode s) eqn:Hs.
  - left. case_decide; [done|]. by destruct (ord char).
  - destruct (ignore_mode s) eqn:Hi.
    + left. simpl. by case_match.
    + destruct (dispatch_output w char s) as [H|(Hc & text & H)].
      * left. by destruct (dispatch w char s) as [[[| |]|e] s'].
      * right. split_and!; [done..|]. exists text.
        by destruct (dispatch w char s) as [[[| |]|e] s'].
Qed.

Lemma step_output (w : World) (s : t) :
  exists texts, output (final (step w s)) = output s ++ texts.
Proof.
  unfold step. destruct (program s) as [g|]; [|exists []; by rewrite app_nil_r].
  destruct (process_char_output w (GridMap.get_item g (x s) (y s)) s)
    as [H|(_ & _ & _ & text & H)].
  - exists []. by rewrite app_nil_r.
  - by exists [text].
Qed.

Lemma for_loop_output (ws : nat -> World) (n i : nat) (s : t) :
  exists texts,
    output (match for_loop ws i n s with inl s' => s' | inr o => final o end)
    = output s ++ texts.
Proof.
  revert i s. induction n as [|n IH]; intros i s; simpl.
  { exists []. by rewrite app_nil_r. }
  destruct (step_output (ws i) s) as [t1 H1].
  destruct (step (ws i) s) as [[|] s'|e s']; simpl in *; [|by exists t1..].
  destruct (IH (S i) s') as [t2 H2]. exists (t1 ++ t2).
  by rewrite H2, H1, app_assoc.
Qed.

(** X27: a run never takes back what the program has printed: whatever
    [run] does (it returns True or False, or an exception leaves it),
    the captured output afterwards is the captured output before
    followed by some text.  One step changes the output only on a cell
    [N] or [A] met in normal mode. *)
Theorem output_only_grows (fuel : nat) (ws : nat -> World) (steps : Z) (s : t)
    (o : outcome bool) :
  run fuel ws steps s = Some o ->
  (exists text, get_output (final o) = get_output s ++ text) /\
  (forall w g, program s = Some g ->
     ~ (GridMap.get_item g (x s) (y s) ∈ [lit "N"; lit "A"]
        /\ string_mode s = false /\ ignore_mode s = false) ->
     output (final (step w s)) = output s).
Proof.
  intros Hrun. split.
  - assert (H : exists texts, output (final o) = output s ++ texts).
    { unfold run in Hrun. destruct (steps <? 0).
      { injection Hrun as <-. exists []. by rewrite app_nil_r. }
      destruct (0 <? steps).
      - destruct (for_loop_output ws (Z.to_nat steps) 0 s) as [texts H].
        destruct (for_loop ws 0 (Z.to_nat steps) s); injection Hrun as <-; by exists texts.
      - rewrite while_loop_for_loop in Hrun.
        destruct (for_loop_output ws fuel 0 s) as [texts H].
        destruct (for_loop ws 0 fuel s); [done|]. injection Hrun as <-. by exists texts. }
    destruct H as [texts H]. exists (concat texts).
    unfold get_output. by rewrite H, concat_app.
  - intros w g Hg Hcell. unfold step. rewrite Hg.
    destruct (process_char_output w (GridMap.get_item g (x s) (y s)) s)
      as [H|(Hc & Hs & Hi & _)]; [done|].
    by destruct Hcell.
Qed.

Lemma output_only_grows_witness :
  exists text, get_output (final add_demo_end) = get_output add_demo ++ text.
Proof.
  assert (H : run 0 (fun _ => demo_world) 5 add_demo = Some add_demo_end)
    by (vm_compute; reflexivity).
  exact (proj1 (output_only_grows 0 (fun _ => demo_world) 5 add_demo add_demo_end H)).
Defined.
